(** * Survey analysis engine: a shallow embedding of [src/lib/analysis.ts],
      of the table normaliser ([parser.ts]) and of the actions of the store,
      with the properties of the specification, and further laws of the
      code, stated and proved over it.

    Conventions of the embedding.

    - A JavaScript [number] is modelled by [JS.number]: the IEEE-754 special
      values [NaN], [+Infinity], [-Infinity] are kept with their arithmetic
      (propagation of [NaN], [Infinity - Infinity = NaN], comparisons with
      [NaN] false, ...), and a finite number carries a real.  Arithmetic on
      finite numbers is exact: rounding to 53 bits, overflow and the sign of
      zero are not modelled.
    - A JavaScript string is the list of its UTF-16 code units, so that
      [length] is the [.length] of the source.
    - An object used as a record with enumerable keys (a parsed row) is an
      association list in enumeration order; arrays are lists.
    - Built-ins of the language and library functions whose definition is
      not part of the repository (locale collation, number/string
      conversion, the random source, [uuidv4], the clock) are section
      variables or arguments. *)

From Stdlib Require Import Reals Lra Lia ZArith NArith Bool String Ascii List Permutation
  Sorted.
Import ListNotations.

(** ** JavaScript values *)

Module JS.

(** *** Strings *)

Definition jsstring := list N.

(** [str "abc"] is the JavaScript string with the same (ASCII) characters. *)
Definition str (s : string) : jsstring :=
  map N_of_ascii (list_ascii_of_string s).

Definition jsstring_eq_dec : forall a b : jsstring, {a = b} + {a <> b} :=
  list_eq_dec N.eq_dec.

(** [a === b] on strings. *)
Definition streq (a b : jsstring) : bool :=
  if jsstring_eq_dec a b then true else false.

(** [Boolean(s)]: a string is truthy when it is not empty. *)
Definition truthy_string (s : jsstring) : bool :=
  match s with [] => false | _ => true end.

(** *** Numbers *)

Inductive number : Type :=
| Fin (r : R)
| PInf
| NInf
| NaN.

Definition Rltb (a b : R) : bool := if Rlt_dec a b then true else false.
Definition Rleb (a b : R) : bool := if Rle_dec a b then true else false.
Definition Reqb (a b : R) : bool := if Req_dec_T a b then true else false.

Definition isNaN (x : number) : bool :=
  match x with NaN => true | _ => false end.

Definition isFinite (x : number) : bool :=
  match x with Fin _ => true | _ => false end.

Definition neg (x : number) : number :=
  match x with
  | Fin a => Fin (- a)
  | PInf => NInf
  | NInf => PInf
  | NaN => NaN
  end.

Definition add (x y : number) : number :=
  match x, y with
  | NaN, _ | _, NaN => NaN
  | PInf, NInf | NInf, PInf => NaN
  | PInf, _ | _, PInf => PInf
  | NInf, _ | _, NInf => NInf
  | Fin a, Fin b => Fin (a + b)
  end.

Definition sub (x y : number) : number := add x (neg y).

(** Sign of a finite factor against an infinity. *)
Definition scale_inf (pos : bool) (a : R) : number :=
  if Reqb a 0 then NaN
  else if Bool.eqb pos (Rltb 0 a) then PInf else NInf.

Definition mul (x y : number) : number :=
  match x, y with
  | NaN, _ | _, NaN => NaN
  | Fin a, Fin b => Fin (a * b)
  | PInf, Fin a | Fin a, PInf => scale_inf true a
  | NInf, Fin a | Fin a, NInf => scale_inf false a
  | PInf, PInf | NInf, NInf => PInf
  | PInf, NInf | NInf, PInf => NInf
  end.

(** Division; a zero divisor is read as [+0]. *)
Definition div (x y : number) : number :=
  match x, y with
  | NaN, _ | _, NaN => NaN
  | Fin a, Fin b =>
      if Reqb b 0 then
        (if Reqb a 0 then NaN else if Rltb 0 a then PInf else NInf)
      else Fin (a / b)
  | Fin _, (PInf | NInf) => Fin 0
  | PInf, Fin b => if Rltb b 0 then NInf else PInf
  | NInf, Fin b => if Rltb b 0 then PInf else NInf
  | (PInf | NInf), (PInf | NInf) => NaN
  end.

(** [x < y], [x <= y]; [x > y] is [lt y x] and [x >= y] is [le y x]. *)
Definition lt (x y : number) : bool :=
  match x, y with
  | NaN, _ | _, NaN => false
  | Fin a, Fin b => Rltb a b
  | NInf, (Fin _ | PInf) => true
  | Fin _, PInf => true
  | _, _ => false
  end.

Definition le (x y : number) : bool :=
  match x, y with
  | NaN, _ | _, NaN => false
  | Fin a, Fin b => Rleb a b
  | NInf, _ => true
  | _, PInf => true
  | _, _ => false
  end.

Definition gt (x y : number) : bool := lt y x.
Definition ge (x y : number) : bool := le y x.

(** [x === y] on numbers: [NaN] is equal to nothing. *)
Definition eqn (x y : number) : bool :=
  match x, y with
  | Fin a, Fin b => Reqb a b
  | PInf, PInf | NInf, NInf => true
  | _, _ => false
  end.

(** SameValueZero, the equality of [Map] keys: [NaN] is equal to [NaN]. *)
Definition same_value_zero (x y : number) : bool :=
  match x, y with
  | Fin a, Fin b => Reqb a b
  | PInf, PInf | NInf, NInf | NaN, NaN => true
  | _, _ => false
  end.

(** [Math.floor], [Math.round] (ties go up), [Math.abs], [Math.sqrt]. *)
Definition Rfloor (a : R) : Z := Int_part a.

Definition Math_floor (x : number) : number :=
  match x with Fin a => Fin (IZR (Rfloor a)) | _ => x end.

Definition Math_round (x : number) : number :=
  match x with Fin a => Fin (IZR (Rfloor (a + / 2))) | _ => x end.

Definition Math_abs (x : number) : number :=
  match x with
  | Fin a => Fin (Rabs a)
  | PInf | NInf => PInf
  | NaN => NaN
  end.

Definition Math_sqrt (x : number) : number :=
  match x with
  | Fin a => if Rltb a 0 then NaN else Fin (sqrt a)
  | PInf => PInf
  | NInf | NaN => NaN
  end.

(** [Math.max(...l)]; [-Infinity] on the empty list, [NaN] if any is. *)
Definition max2 (x y : number) : number :=
  match x, y with
  | NaN, _ | _, NaN => NaN
  | _, _ => if lt x y then y else x
  end.

Definition Math_max (l : list number) : number := fold_left max2 l NInf.

(** The number of an array length or of a loop counter. *)
Definition of_nat (n : nat) : number := Fin (INR n).
Definition of_Z (z : Z) : number := Fin (IZR z).

(** Truthiness of a number: [0] and [NaN] are falsy. *)
Definition truthy_number (x : number) : bool :=
  match x with
  | Fin a => negb (Reqb a 0)
  | NaN => false
  | _ => true
  end.

End JS.

Declare Scope js_scope.
Delimit Scope js_scope with js.
Bind Scope js_scope with JS.number.
Infix "+" := JS.add : js_scope.
Infix "-" := JS.sub : js_scope.
Infix "*" := JS.mul : js_scope.
Infix "/" := JS.div : js_scope.
Infix "<?" := JS.lt (at level 70) : js_scope.
Infix "<=?" := JS.le (at level 70) : js_scope.
Infix ">?" := JS.gt (at level 70) : js_scope.
Infix ">=?" := JS.ge (at level 70) : js_scope.
Infix "===" := JS.eqn (at level 70) : js_scope.

(** ** Arrays and objects *)

Module Arr.

(** [o[k]] on an object whose own enumerable properties are [o]:
    [None] is [undefined]. *)
Fixpoint lookup {V : Type} (k : JS.jsstring) (o : list (JS.jsstring * V)) : option V :=
  match o with
  | [] => None
  | (k', v) :: o' => if JS.streq k' k then Some v else lookup k o'
  end.

(** [o[k] = v]: overwrite in place, or add as the last property. *)
Fixpoint assign {V : Type} (k : JS.jsstring) (v : V) (o : list (JS.jsstring * V))
  : list (JS.jsstring * V) :=
  match o with
  | [] => [(k, v)]
  | (k', v') :: o' => if JS.streq k' k then (k', v) :: o' else (k', v') :: assign k v o'
  end.

(** [Object.keys(o)]. *)
Definition keys {V : Type} (o : list (JS.jsstring * V)) : list JS.jsstring := map fst o.

(** [a[i]] where the element is used as a number: [undefined] acts as [NaN]. *)
Definition get (a : list JS.number) (i : nat) : JS.number := nth i a JS.NaN.

(** [[...new Set(l)]]: the first occurrence of each string, in order. *)
Fixpoint dedup (l : list JS.jsstring) : list JS.jsstring :=
  match l with
  | [] => []
  | x :: l' => x :: filter (fun y => negb (JS.streq x y)) (dedup l')
  end.

(** [l.sort(cmp)], a stable sort: [cmp a b > 0] puts [a] after [b]
    ([NaN] counts as [0]). *)
Section Sort.
Variable A : Type.
Variable cmp : A -> A -> JS.number.

Fixpoint insert (x : A) (l : list A) : list A :=
  match l with
  | [] => [x]
  | y :: l' => if JS.gt (cmp x y) (JS.Fin 0) then y :: insert x l' else x :: l
  end.

Fixpoint sort (l : list A) : list A :=
  match l with
  | [] => []
  | x :: l' => insert x (sort l')
  end.

End Sort.

Arguments insert {A} cmp x l.
Arguments sort {A} cmp l.

End Arr.

(** ** The data model ([types/index.ts]) *)

Module Types.
Import JS.

Record Question : Type := {
  q_id : jsstring;
  q_projectId : jsstring;
  q_key : jsstring;
  q_label : jsstring;
  q_categoryId : jsstring;
  q_scaleMin : number;
  q_scaleMax : number
}.

(** [answers : Record<string, number>]. *)
Record SurveyResponse : Type := {
  r_id : jsstring;
  r_projectId : jsstring;
  r_respondentId : jsstring;
  r_department : jsstring;
  r_answers : list (jsstring * number)
}.

Inductive Priority : Type := high | medium | low.
Inductive Quadrant : Type := improve | maintain | monitor | excess.
Inductive ExtractionType : Type := issue | excellent | neutral.

Record AnalysisResult : Type := {
  ar_questionId : jsstring;
  ar_questionKey : jsstring;
  ar_questionLabel : jsstring;
  ar_categoryId : jsstring;
  ar_mean : number;
  ar_median : number;
  ar_stdDev : number;
  ar_lowRatio : number;
  ar_highRatio : number;
  ar_importance : number;
  ar_priority : Priority;
  ar_quadrant : Quadrant;
  ar_extractionType : ExtractionType
}.

Record DepartmentAnalysis : Type := {
  da_department : jsstring;
  da_questionKey : jsstring;
  da_mean : number;
  da_diffFromOverall : number
}.

Record AppSettings : Type := {
  issueThreshold : number;
  excellentThreshold : number;
  scaleMin : number;
  scaleMax : number;
  apiKey : jsstring
}.

(** [CATEGORY_KEYWORDS], in the order of [Object.entries]. *)
Definition CATEGORY_KEYWORDS : list (jsstring * list jsstring) :=
  [(str "cat-1",
    [(* 職場 *) [32887; 22580]%N;
     (* 環境 *) [29872; 22659]%N;
     (* オフィス *) [12458; 12501; 12451; 12473]%N;
     (* 設備 *) [35373; 20633]%N;
     (* 働く場所 *) [20685; 12367; 22580; 25152]%N;
     (* 勤務 *) [21220; 21209]%N]);
   (str "cat-2",
    [(* 人間関係 *) [20154; 38291; 38306; 20418]%N;
     (* 上司 *) [19978; 21496]%N;
     (* 同僚 *) [21516; 20698]%N;
     (* チーム *) [12481; 12540; 12512]%N;
     (* コミュニケーション *) [12467; 12511; 12517; 12491; 12465; 12540; 12471; 12519; 12531]%N;
     (* 関係 *) [38306; 20418]%N]);
   (str "cat-3",
    [(* 給与 *) [32102; 19982]%N;
     (* 報酬 *) [22577; 37228]%N;
     (* 待遇 *) [24453; 36935]%N;
     (* 賞与 *) [36062; 19982]%N;
     (* ボーナス *) [12508; 12540; 12490; 12473]%N;
     (* 福利厚生 *) [31119; 21033; 21402; 29983]%N;
     (* 手当 *) [25163; 24403]%N]);
   (str "cat-4",
    [(* 成長 *) [25104; 38263]%N;
     (* キャリア *) [12461; 12515; 12522; 12450]%N;
     (* 研修 *) [30740; 20462]%N;
     (* 教育 *) [25945; 32946]%N;
     (* スキル *) [12473; 12461; 12523]%N;
     (* 昇進 *) [26119; 36914]%N;
     (* 機会 *) [27231; 20250]%N]);
   (str "cat-5",
    [(* 仕事 *) [20181; 20107]%N;
     (* 業務 *) [26989; 21209]%N;
     (* やりがい *) [12420; 12426; 12364; 12356]%N;
     (* 裁量 *) [35009; 37327]%N;
     (* 負荷 *) [36000; 33655]%N;
     (* 残業 *) [27531; 26989]%N;
     (* ワークライフ *) [12527; 12540; 12463; 12521; 12452; 12501]%N]);
   (str "cat-6",
    [(* 経営 *) [32076; 21942]%N;
     (* 組織 *) [32068; 32340]%N;
     (* ビジョン *) [12499; 12472; 12519; 12531]%N;
     (* 戦略 *) [25126; 30053]%N;
     (* 方針 *) [26041; 37341]%N;
     (* 理念 *) [29702; 24565]%N;
     (* 会社 *) [20250; 31038]%N])].

End Types.

(** ** The statistics engine ([lib/analysis.ts]) *)

Module Analysis.
Import JS Types.

(** [Math.round(x * 100) / 100]. *)
Definition round2 (x : number) : number :=
  (Math_round (x * Fin 100) / Fin 100)%js.

Definition calcMean (values : list number) : number :=
  if (length values =? 0)%nat then Fin 0
  else (fold_left (fun a b => a + b) values (Fin 0) / of_nat (length values))%js.

Definition calcMedian (values : list number) : number :=
  if (length values =? 0)%nat then Fin 0
  else
    let sorted := Arr.sort (fun a b => a - b)%js values in
    let mid := (length sorted / 2)%nat in
    if negb (length sorted mod 2 =? 0)%nat then Arr.get sorted mid
    else ((Arr.get sorted (mid - 1) + Arr.get sorted mid) / Fin 2)%js.

Definition calcStdDev (values : list number) : number :=
  if (length values <=? 1)%nat then Fin 0
  else
    let mean := calcMean values in
    let variance :=
      (fold_left (fun sum v => sum + (v - mean) * (v - mean)) values (Fin 0)
       / of_nat (length values))%js in
    Math_sqrt variance.

(** The three accumulators of the loop of [calcCorrelation]. *)
Record CorrAcc : Type := { numerator : number; denomX : number; denomY : number }.

Definition calcCorrelation_step (x y : list number) (meanX meanY : number)
  (acc : CorrAcc) (i : nat) : CorrAcc :=
  let dx := (Arr.get x i - meanX)%js in
  let dy := (Arr.get y i - meanY)%js in
  {| numerator := (numerator acc + dx * dy)%js;
     denomX := (denomX acc + dx * dx)%js;
     denomY := (denomY acc + dy * dy)%js |}.

Definition calcCorrelation (x y : list number) : number :=
  let n := length x in
  if (n <=? 1)%nat then Fin 0
  else
    let meanX := calcMean x in
    let meanY := calcMean y in
    let acc :=
      fold_left (calcCorrelation_step x y meanX meanY) (seq 0 n)
        {| numerator := Fin 0; denomX := Fin 0; denomY := Fin 0 |} in
    let denom := Math_sqrt (denomX acc * denomY acc) in
    if (denom === Fin 0)%js then Fin 0 else (numerator acc / denom)%js.

(** [r.answers[k]]. *)
Definition answer (r : SurveyResponse) (k : jsstring) : option number :=
  Arr.lookup k (r_answers r).

(** [l.filter((v) => v !== undefined && !isNaN(v))]. *)
Definition defined_numbers (l : list (option number)) : list number :=
  flat_map (fun v => match v with
                     | Some x => if isNaN x then [] else [x]
                     | None => []
                     end) l.

Definition calcOverallScores (responses : list SurveyResponse)
  (questionKeys : list jsstring) : list number :=
  map (fun r =>
         let scores := defined_numbers (map (fun k => answer r k) questionKeys) in
         if (0 <? length scores)%nat then calcMean scores else Fin 0)
      responses.

Definition getQuadrant (mean importance meanThreshold importanceThreshold : number)
  : Quadrant :=
  if (importance >=? importanceThreshold)%js && (mean <? meanThreshold)%js then improve
  else if (importance >=? importanceThreshold)%js && (mean >=? meanThreshold)%js then maintain
  else if (importance <? importanceThreshold)%js && (mean <? meanThreshold)%js then monitor
  else excess.

(** [quadrant === 'improve'] and the like. *)
Definition quadrant_eqb (a b : Quadrant) : bool :=
  match a, b with
  | improve, improve | maintain, maintain | monitor, monitor | excess, excess => true
  | _, _ => false
  end.

Definition getPriority (quadrant : Quadrant) (mean issueThreshold : number) : Priority :=
  if quadrant_eqb quadrant improve then high
  else if quadrant_eqb quadrant monitor && (mean <=? issueThreshold)%js then medium
  else if quadrant_eqb quadrant maintain then low
  else low.

(** [r.answers[k] ?? 0]. *)
Definition answer_or_zero (r : SurveyResponse) (k : jsstring) : number :=
  match answer r k with Some v => v | None => Fin 0 end.

(** The body of [questions.map((question) => ...)] in [runAnalysis]. *)
Definition analyseQuestion (responses : list SurveyResponse) (overallScores : list number)
  (settings : AppSettings) (question : Question) : AnalysisResult :=
  let values := defined_numbers (map (fun r => answer r (q_key question)) responses) in
  let mean := calcMean values in
  let median := calcMedian values in
  let stdDev := calcStdDev values in
  let lowRatio :=
    if (0 <? length values)%nat
    then (of_nat (length (filter (fun v => v <=? Fin 2)%js values)) / of_nat (length values))%js
    else Fin 0 in
  let highRatio :=
    if (0 <? length values)%nat
    then (of_nat (length (filter (fun v => v >=? Fin 4)%js values)) / of_nat (length values))%js
    else Fin 0 in
  let questionScores := map (fun r => answer_or_zero r (q_key question)) responses in
  let importance := Math_abs (calcCorrelation questionScores overallScores) in
  let meanThreshold := ((scaleMin settings + scaleMax settings) / Fin 2)%js in
  let importanceThreshold := Fin (5 / 10) in
  let quadrant := getQuadrant mean importance meanThreshold importanceThreshold in
  let priority := getPriority quadrant mean (issueThreshold settings) in
  let extractionType :=
    if (mean <=? issueThreshold settings)%js then issue
    else if (mean >=? excellentThreshold settings)%js then excellent
    else neutral in
  {| ar_questionId := q_id question;
     ar_questionKey := q_key question;
     ar_questionLabel := q_label question;
     ar_categoryId := q_categoryId question;
     ar_mean := round2 mean;
     ar_median := median;
     ar_stdDev := round2 stdDev;
     ar_lowRatio := round2 lowRatio;
     ar_highRatio := round2 highRatio;
     ar_importance := round2 importance;
     ar_priority := priority;
     ar_quadrant := quadrant;
     ar_extractionType := extractionType |}.

Definition runAnalysis (responses : list SurveyResponse) (questions : list Question)
  (settings : AppSettings) : list AnalysisResult :=
  if (length responses =? 0)%nat || (length questions =? 0)%nat then []
  else
    let questionKeys := map q_key questions in
    let overallScores := calcOverallScores responses questionKeys in
    map (analyseQuestion responses overallScores settings) questions.

(** [sub] is a prefix of [s]. *)
Fixpoint starts_with (sub s : jsstring) : bool :=
  match sub, s with
  | [], _ => true
  | c :: sub', d :: s' => N.eqb c d && starts_with sub' s'
  | _ :: _, [] => false
  end.

(** [s.includes(sub)]. *)
Fixpoint includes (s sub : jsstring) : bool :=
  starts_with sub s ||
  match s with
  | [] => false
  | _ :: s' => includes s' sub
  end.

(** [Map<number, V>]: entries in insertion order, keys compared by
    SameValueZero. *)
Fixpoint Map_get {V : Type} (k : number) (m : list (number * V)) : option V :=
  match m with
  | [] => None
  | (k', v) :: m' => if same_value_zero k' k then Some v else Map_get k m'
  end.

Definition Map_has {V : Type} (k : number) (m : list (number * V)) : bool :=
  match Map_get k m with Some _ => true | None => false end.

Fixpoint Map_set {V : Type} (k : number) (v : V) (m : list (number * V))
  : list (number * V) :=
  match m with
  | [] => [(k, v)]
  | (k', v') :: m' =>
      if same_value_zero k' k then (k', v) :: m' else (k', v') :: Map_set k v m'
  end.

Definition NumMap : Type := list (number * number).

Record Bucket : Type := { value : number; count : number }.

Section Builtins.

(** [a.localeCompare(b, 'ja', { numeric: true })] and [s.toLowerCase()]. *)
Variable localeCompare : jsstring -> jsstring -> number.
Variable toLowerCase : jsstring -> jsstring.

Definition sortDepartments (departments : list jsstring) : list jsstring :=
  Arr.sort (fun a b => localeCompare a b) departments.

Definition classifyQuestion (questionLabel : jsstring) : jsstring :=
  let label := toLowerCase questionLabel in
  match find (fun entry => existsb (fun kw => includes label (toLowerCase kw)) (snd entry))
             CATEGORY_KEYWORDS with
  | Some (categoryId, _) => categoryId
  | None => str "cat-other"
  end.

(** The body of the inner loop of [runDepartmentAnalysis]: one
    [results.push]. *)
Definition departmentEntry (deptResponses : list SurveyResponse)
  (overallResults : list AnalysisResult) (dept : jsstring) (question : Question)
  : DepartmentAnalysis :=
  let values := defined_numbers (map (fun r => answer r (q_key question)) deptResponses) in
  let mean := calcMean values in
  let overall := find (fun r => streq (ar_questionKey r) (q_key question)) overallResults in
  let diffFromOverall :=
    match overall with
    | Some o => round2 (mean - ar_mean o)
    | None => Fin 0
    end in
  {| da_department := dept;
     da_questionKey := q_key question;
     da_mean := round2 mean;
     da_diffFromOverall := diffFromOverall |}.

Definition runDepartmentAnalysis (responses : list SurveyResponse)
  (questions : list Question) (overallResults : list AnalysisResult)
  : list DepartmentAnalysis :=
  let departments :=
    sortDepartments
      (Arr.dedup (filter truthy_string (map r_department responses))) in
  fold_left
    (fun results dept =>
       let deptResponses := filter (fun r => streq (r_department r) dept) responses in
       fold_left
         (fun results question =>
            results ++ [departmentEntry deptResponses overallResults dept question])
         questions results)
    departments [].

End Builtins.

(** The first loop of [getDistribution],
    [for (let i = scaleMin; i <= scaleMax; i++) counts.set(i, 0)];
    [None] when the fuel runs out before the loop exits. *)
Fixpoint initCounts (fuel : nat) (i scaleMax : number) (counts : NumMap) : option NumMap :=
  match fuel with
  | O => None
  | S fuel' =>
      if (i <=? scaleMax)%js
      then initCounts fuel' (i + Fin 1)%js scaleMax (Map_set i (Fin 0) counts)
      else Some counts
  end.

(** [x || 0] for [x] a number or [undefined]. *)
Definition or_zero (x : option number) : number :=
  match x with
  | Some v => if truthy_number v then v else Fin 0
  | None => Fin 0
  end.

Definition countAnswer (questionKey : jsstring) (counts : NumMap) (r : SurveyResponse)
  : NumMap :=
  match answer r questionKey with
  | Some v =>
      if Map_has v counts
      then Map_set v (or_zero (Map_get v counts) + Fin 1)%js counts
      else counts
  | None => counts
  end.

Definition getDistribution (fuel : nat) (responses : list SurveyResponse)
  (questionKey : jsstring) (scaleMin scaleMax : number) : option (list Bucket) :=
  match initCounts fuel scaleMin scaleMax [] with
  | None => None
  | Some counts =>
      let counts := fold_left (countAnswer questionKey) responses counts in
      Some (map (fun entry => {| value := fst entry; count := snd entry |}) counts)
  end.

End Analysis.

(** ** The table normaliser ([lib/parser.ts]) *)

Module Parser.
Import JS Types Analysis.

(** A cell of a parsed row: [string | number]. *)
Inductive cell : Type :=
| CStr (s : jsstring)
| CNum (n : number).

(** A parsed row, [Record<string, string | number>], in enumeration order. *)
Definition Row : Type := list (jsstring * cell).

Record DepartmentScoreQuestion : Type := {
  dq_number : number;
  dq_label : jsstring;
  dq_categoryId : jsstring;
  dq_scores : list (jsstring * number)
}.

Record DepartmentScoreData : Type := {
  ds_questions : list DepartmentScoreQuestion;
  ds_departments : list jsstring;
  ds_overallDepartment : jsstring
}.

Record ParsedSurveyData : Type := {
  pd_headers : list jsstring;
  pd_respondentIdColumn : jsstring;
  pd_departmentColumn : jsstring;
  pd_questionColumns : list jsstring;
  pd_rows : list Row
}.

(** The outcome of a function that may [throw new Error(message)]. *)
Inductive Result (A : Type) : Type :=
| Return (a : A)
| Throw (message : jsstring).

Arguments Return {A} a.
Arguments Throw {A} message.

(** The four messages of [extractDepartmentScores]. *)
Definition MSG_EMPTY : jsstring :=
  (* データが空です *) [12487; 12540; 12479; 12364; 31354; 12391; 12377]%N.
Definition MSG_NO_TEXT_COLUMN : jsstring :=
  (* 質問テキスト列が見つかりません *)
  [36074; 21839; 12486; 12461; 12473; 12488; 21015; 12364; 35211; 12388; 12363; 12426;
   12414; 12379; 12435]%N.
Definition MSG_NO_DEPT_COLUMNS : jsstring :=
  (* 部署別スコア列が見つかりません *)
  [37096; 32626; 21029; 12473; 12467; 12450; 21015; 12364; 35211; 12388; 12363; 12426;
   12414; 12379; 12435]%N.
Definition MSG_NO_QUESTIONS : jsstring :=
  (* 設問データが見つかりません *)
  [35373; 21839; 12487; 12540; 12479; 12364; 35211; 12388; 12363; 12426; 12414; 12379;
   12435]%N.

(** The header of the generated respondent column, [回答者ID]. *)
Definition RESPONDENT_ID : jsstring := [22238; 31572; 32773; 73; 68]%N.

(** *** Strings: [trim], [padStart] and the regular expressions *)

(** White space and line terminators of ECMAScript. *)
Definition is_space (c : N) : bool :=
  existsb (N.eqb c)
    [9; 10; 11; 12; 13; 32; 160; 5760; 8192; 8193; 8194; 8195; 8196; 8197; 8198; 8199;
     8200; 8201; 8202; 8232; 8233; 8239; 8287; 12288; 65279]%N.

Fixpoint trimStart (s : jsstring) : jsstring :=
  match s with
  | c :: s' => if is_space c then trimStart s' else s
  | [] => []
  end.

Definition trim (s : jsstring) : jsstring := rev (trimStart (rev (trimStart s))).

(** [s.padStart(3, '0')]. *)
Definition padStart3 (s : jsstring) : jsstring :=
  repeat 48%N (3 - length s) ++ s.

(** Canonical form of a code unit under the [i] flag, for patterns whose
    letters are ASCII: the two cases of an ASCII letter are identified and
    nothing else is. *)
Definition canon (c : N) : N :=
  if (97 <=? c)%N && (c <=? 122)%N then (c - 32)%N else c.

Fixpoint ci_starts_with (pattern s : jsstring) : bool :=
  match pattern, s with
  | [], _ => true
  | c :: pattern', d :: s' => N.eqb (canon c) (canon d) && ci_starts_with pattern' s'
  | _ :: _, [] => false
  end.

(** [/pattern/i.test(s)] for a literal pattern. *)
Fixpoint ci_includes (s pattern : jsstring) : bool :=
  ci_starts_with pattern s ||
  match s with
  | [] => false
  | _ :: s' => ci_includes s' pattern
  end.

(** [/^pattern$/i.test(s)] for a literal pattern. *)
Definition ci_equal (s pattern : jsstring) : bool :=
  (length s =? length pattern)%nat && ci_starts_with pattern s.

(** [/番号|No|#/i]. *)
Definition NUMBER_HEADER : list jsstring :=
  [(* 番号 *) [30058; 21495]%N; str "No"; str "#"].

(** [SKIP_COL_PATTERNS], an anchored alternation; [No\.?] is [No] or [No.]. *)
Definition SKIP_COL_PATTERNS : list jsstring :=
  [(* 番号 *) [30058; 21495]%N;
   str "No"; str "No."; str "#";
   (* 質問 *) [36074; 21839]%N;
   (* そう思う *) [12381; 12358; 24605; 12358]%N;
   (* 少しそう思う *) [23569; 12375; 12381; 12358; 24605; 12358]%N;
   (* どちらでもない *) [12393; 12385; 12425; 12391; 12418; 12394; 12356]%N;
   (* あまりそう思わない *) [12354; 12414; 12426; 12381; 12358; 24605; 12431; 12394; 12356]%N;
   (* そう思わない *) [12381; 12358; 24605; 12431; 12394; 12356]%N;
   (* 無回答 *) [28961; 22238; 31572]%N;
   (* 総数 *) [32207; 25968]%N;
   (* 点 *) [28857]%N;
   (* 平均 *) [24179; 22343]%N;
   str "average"; str "avg"; str "mean"; str "count"; str "total";
   (* 回答 *) [22238; 31572]%N;
   str "ID"].

(** [/部門計|全体|合計|total/i]. *)
Definition OVERALL_HEADER : list jsstring :=
  [(* 部門計 *) [37096; 38272; 35336]%N;
   (* 全体 *) [20840; 20307]%N;
   (* 合計 *) [21512; 35336]%N;
   str "total"].

(** [/点|平均|average|avg|mean/i]. *)
Definition AVERAGE_HEADER : list jsstring :=
  [(* 点 *) [28857]%N; (* 平均 *) [24179; 22343]%N; str "average"; str "avg"; str "mean"].

Definition test_includes (alternatives : list jsstring) (s : jsstring) : bool :=
  existsb (ci_includes s) alternatives.

Definition test_equal (alternatives : list jsstring) (s : jsstring) : bool :=
  existsb (ci_equal s) alternatives.

(** [typeof v === 'string' && v.length > n]. *)
Definition long_string (n : nat) (v : option cell) : bool :=
  match v with
  | Some (CStr s) => (n <? length s)%nat
  | _ => false
  end.

(** Truthiness of [row[h]]. *)
Definition truthy_cell (v : option cell) : bool :=
  match v with
  | Some (CStr s) => truthy_string s
  | Some (CNum n) => truthy_number n
  | None => false
  end.

(** [Number.isInteger(x)]. *)
Definition isInteger (x : number) : bool :=
  match x with
  | Fin a => Reqb (IZR (Rfloor a)) a
  | _ => false
  end.

(** [x || y] on numbers. *)
Definition num_or (x y : number) : number := if truthy_number x then x else y.

Section Builtins.

(** [Number(s)] and [String(x)], the conversions between strings and
    numbers, and the built-ins [classifyQuestion] and [sortDepartments]
    rest on. *)
Variable String_toNumber : jsstring -> number.
Variable Number_toString : number -> jsstring.
Variable toLowerCase : jsstring -> jsstring.
Variable localeCompare : jsstring -> jsstring -> number.

(** [Number(row[h])]: [undefined] gives [NaN]. *)
Definition Number_of (v : option cell) : number :=
  match v with
  | Some (CStr s) => String_toNumber s
  | Some (CNum n) => n
  | None => NaN
  end.

(** [String(row[h])]. *)
Definition String_of (v : option cell) : jsstring :=
  match v with
  | Some (CStr s) => s
  | Some (CNum n) => Number_toString n
  | None => str "undefined"
  end.

(** [String(row[h] || '')]. *)
Definition String_or_empty (v : option cell) : jsstring :=
  if truthy_cell v then String_of v else [].

(** The positive numbers of a column,
    [rows.map((r) => Number(r[h])).filter((v) => !isNaN(v) && v > 0)]. *)
Definition numericVals (rows : list Row) (h : jsstring) : list number :=
  filter (fun v => negb (isNaN v) && (v >? Fin 0)%js)
         (map (fun r => Number_of (Arr.lookup h r)) rows).

(** The predicate of [headers.filter] that selects the department columns;
    [textCol] is a string, [numCol] a string or [undefined]. *)
Definition isDeptColumn (rows : list Row) (textCol : jsstring) (numCol : option jsstring)
  (h : jsstring) : bool :=
  if streq h textCol
     || match numCol with Some n => streq h n | None => false end
  then false
  else if test_equal SKIP_COL_PATTERNS (trim h) then false
  else
    (of_nat (length (numericVals rows h)) >=? of_nat (length rows) * Fin (3 / 10))%js
    && forallb (fun v => (v >=? Fin 1)%js && (v <=? Fin (55 / 10))%js) (numericVals rows h).

(** The [scores] object of one question row. *)
Definition rowScores (deptColumns : list jsstring) (row : Row) : list (jsstring * number) :=
  fold_left
    (fun scores dept =>
       let val := Number_of (Arr.lookup dept row) in
       if negb (isNaN val) && (val >? Fin 0)%js
       then Arr.assign dept (round2 val) scores
       else scores)
    deptColumns [].

(** [rows.map(f)] where [f] also receives the index. *)
Fixpoint mapi {A B : Type} (f : A -> nat -> B) (l : list A) (idx : nat) : list B :=
  match l with
  | [] => []
  | x :: l' => f x idx :: mapi f l' (S idx)
  end.

Definition extractDepartmentScores (rows : list Row) : Result DepartmentScoreData :=
  match rows with
  | [] => Throw MSG_EMPTY
  | row0 :: _ =>
      let headers := Arr.keys row0 in
      match find (fun h => existsb (fun r => long_string 5 (Arr.lookup h r)) rows) headers with
      | None => Throw MSG_NO_TEXT_COLUMN
      | Some textCol =>
          if negb (truthy_string textCol) then Throw MSG_NO_TEXT_COLUMN
          else
            let numCol :=
              find (fun h => negb (streq h textCol) && test_includes NUMBER_HEADER h)
                   headers in
            let deptColumns := filter (isDeptColumn rows textCol numCol) headers in
            if (length deptColumns =? 0)%nat then Throw MSG_NO_DEPT_COLUMNS
            else
              let overallDept :=
                match find (test_includes OVERALL_HEADER) deptColumns with
                | Some h => if truthy_string h then h else []
                | None => []
                end in
              let questions :=
                mapi
                  (fun row idx =>
                     let label := trim (String_of (Arr.lookup textCol row)) in
                     let number :=
                       match numCol with
                       | Some n =>
                           if truthy_string n
                           then num_or (Number_of (Arr.lookup n row)) (of_nat (idx + 1))
                           else of_nat (idx + 1)
                       | None => of_nat (idx + 1)
                       end in
                     {| dq_number := number;
                        dq_label := label;
                        dq_categoryId := classifyQuestion toLowerCase label;
                        dq_scores := rowScores deptColumns row |})
                  (filter
                     (fun row =>
                        (2 <? length (trim (String_or_empty (Arr.lookup textCol row))))%nat)
                     rows)
                  0 in
              if (length questions =? 0)%nat then Throw MSG_NO_QUESTIONS
              else
                Return
                  {| ds_questions := questions;
                     ds_departments := Arr.sort (fun a b => localeCompare a b) deptColumns;
                     ds_overallDepartment := overallDept |}
      end
  end.

End Builtins.

(** *** The frequency-distribution table *)

Record QuestionFreq : Type := {
  qf_number : number;
  qf_text : jsstring;
  qf_counts : NumMap;
  qf_total : number;
  qf_weightedAvg : option number
}.

(** [a[i] = x] for an index inside the array. *)
Fixpoint set_nth {A : Type} (i : nat) (x : A) (a : list A) : list A :=
  match a, i with
  | [], _ => []
  | _ :: a', O => x :: a'
  | y :: a', S i' => y :: set_nth i' x a'
  end.

(** [[a[i], a[j]] = [a[j], a[i]]] for indices inside the array. *)
Definition swap {A : Type} (i j : nat) (a : list A) : list A :=
  match nth_error a i, nth_error a j with
  | Some x, Some y => set_nth j x (set_nth i y a)
  | _, _ => a
  end.

(** [for (let i = 0; i < count; i++) arr.push(score)], entered at counter
    [i]; [None] when the fuel runs out before the loop exits. *)
Fixpoint pushScore (fuel i : nat) (count score : number) (arr : list (option number))
  : option (list (option number)) :=
  match fuel with
  | O => None
  | S fuel' =>
      if (of_nat i <? count)%js
      then pushScore fuel' (S i) count score (arr ++ [Some score])
      else Some arr
  end.

(** [for (const [score, count] of q.counts) ...]. *)
Fixpoint pushScores (fuel : nat) (counts : NumMap) (arr : list (option number))
  : option (list (option number)) :=
  match counts with
  | [] => Some arr
  | (score, count) :: counts' =>
      match pushScore fuel 0 count score arr with
      | Some arr' => pushScores fuel counts' arr'
      | None => None
      end
  end.

(** [while (arr.length < maxTotal) arr.push(null)]. *)
Fixpoint padNull (fuel : nat) (maxTotal : number) (arr : list (option number))
  : option (list (option number)) :=
  match fuel with
  | O => None
  | S fuel' =>
      if (of_nat (length arr) <? maxTotal)%js
      then padNull fuel' maxTotal (arr ++ [None])
      else Some arr
  end.

(** One pseudo-respondent row: the id, then the score of every question
    whose array holds one at index [i] (the arrays are padded to
    [maxTotal], so index [i] is inside each). *)
Definition pseudoRow (respondentId : jsstring) (questionKeys : list jsstring)
  (scoreArrays : list (list (option number))) (i : nat) : Row :=
  fold_left
    (fun row entry =>
       match nth_error (snd entry) i with
       | Some (Some score) => Arr.assign (fst entry) (CNum score) row
       | _ => row
       end)
    (combine questionKeys scoreArrays)
    [(RESPONDENT_ID, CStr respondentId)].

Section Conversion.

Variable String_toNumber : jsstring -> number.
Variable Number_toString : number -> jsstring.

(** [Math.random()]: the value of the [k]-th call, a real of [[0, 1)]. *)
Variable random : nat -> R.

(** The Fisher-Yates loop [for (let i = arr.length - 1; i > 0; i--)],
    entered at index [i] with [k] earlier calls of [Math.random].  A value
    of [[0, 1)] gives [j <= i], so both indices of the swap are inside the
    array. *)
Fixpoint shuffle (i : nat) (arr : list (option number)) (k : nat)
  : list (option number) * nat :=
  match i with
  | O => (arr, k)
  | S i' =>
      let j := Z.to_nat (Rfloor (random k * (INR i + 1))) in
      shuffle i' (swap i j arr) (S k)
  end.

(** The body of [questions.map] that builds one score array. *)
Definition scoreArray (fuel : nat) (maxTotal : number) (q : QuestionFreq) (k : nat)
  : option (list (option number) * nat) :=
  match pushScores fuel (qf_counts q) [] with
  | None => None
  | Some arr =>
      match padNull fuel maxTotal arr with
      | None => None
      | Some arr' => Some (shuffle (length arr' - 1) arr' k)
      end
  end.

Fixpoint scoreArrays (fuel : nat) (maxTotal : number) (questions : list QuestionFreq)
  (k : nat) : option (list (list (option number))) :=
  match questions with
  | [] => Some []
  | q :: questions' =>
      match scoreArray fuel maxTotal q k with
      | None => None
      | Some (arr, k') =>
          match scoreArrays fuel maxTotal questions' k' with
          | None => None
          | Some arrs => Some (arr :: arrs)
          end
      end
  end.

(** [for (let i = 0; i < maxTotal; i++) pseudoRows.push(row)]. *)
Fixpoint pseudoRows (fuel i : nat) (maxTotal : number) (questionKeys : list jsstring)
  (arrays : list (list (option number))) (rows : list Row) : option (list Row) :=
  match fuel with
  | O => None
  | S fuel' =>
      if (of_nat i <? maxTotal)%js
      then pseudoRows fuel' (S i) maxTotal questionKeys arrays
             (rows ++ [pseudoRow (padStart3 (Number_toString (of_nat (i + 1))))
                                 questionKeys arrays i])
      else Some rows
  end.

(** The score columns: [scoreHeaderMap], from score to header. *)
Definition scoreHeaderMap (headers : list jsstring) : list (number * jsstring) :=
  fold_left
    (fun m h =>
       let num := String_toNumber h in
       if isInteger num && (num >=? Fin 1)%js && (num <=? Fin 10)%js
       then Map_set num h m
       else m)
    headers [].

(** The counts and the total of one data row. *)
Definition rowCounts (scoreHeaders : list (number * jsstring)) (row : Row)
  : NumMap * number :=
  fold_left
    (fun acc entry =>
       let count := num_or (Number_of String_toNumber (Arr.lookup (snd entry) row)) (Fin 0) in
       (Map_set (fst entry) count (fst acc), (snd acc + count)%js))
    scoreHeaders ([], Fin 0).

(** The body of [for (const row of dataRows)]. *)
Definition parseQuestion (scoreHeaders : list (number * jsstring))
  (textColumn : jsstring) (numberColumn avgColumn : option jsstring)
  (questions : list QuestionFreq) (row : Row) : list QuestionFreq :=
  let text := trim (String_or_empty Number_toString (Arr.lookup textColumn row)) in
  if negb (truthy_string text) || (length text <? 2)%nat then questions
  else
    let (counts, total) := rowCounts scoreHeaders row in
    if (total === Fin 0)%js then questions
    else
      let next := of_nat (length questions + 1) in
      let qNum :=
        match numberColumn with
        | Some n =>
            if truthy_string n
            then num_or (Number_of String_toNumber (Arr.lookup n row)) next
            else next
        | None => next
        end in
      let wAvg :=
        match avgColumn with
        | Some a =>
            if truthy_string a
            then (let v := Number_of String_toNumber (Arr.lookup a row) in
                  if truthy_number v then Some v else None)
            else None
        | None => None
        end in
      questions ++ [{| qf_number := qNum; qf_text := text; qf_counts := counts;
                       qf_total := total; qf_weightedAvg := wAvg |}].

(** [`Q${q.number}_${q.text}`]. *)
Definition questionKey (q : QuestionFreq) : jsstring :=
  str "Q" ++ Number_toString (qf_number q) ++ str "_" ++ qf_text q.

(** The first part of [tryConvertFrequencyTable]: the [questions] array of
    a table that is read as a frequency table, [None] where the source
    returns [null]. *)
Definition detectQuestions (headers : list jsstring) (rows : list Row)
  : option (list QuestionFreq) :=
  if (length rows <? 3)%nat then None
  else
    let scoreHeaders := scoreHeaderMap headers in
    if (length scoreHeaders <? 3)%nat then None
    else
      let firstRow := hd [] rows in
      let textInScoreCols :=
        filter (fun h => long_string 1 (Arr.lookup h firstRow)) (map snd scoreHeaders) in
      if (of_nat (length textInScoreCols) <? of_nat (length scoreHeaders) / Fin 2)%js
      then None
      else
        let dataRows := tl rows in
        match find (fun h => existsb (fun row => long_string 5 (Arr.lookup h row)) dataRows)
                   headers with
        | None => None
        | Some textColumn =>
            if negb (truthy_string textColumn) then None
            else
              let nonDataCols := textColumn :: map snd scoreHeaders in
              let numberColumn :=
                find (fun h =>
                        negb (existsb (streq h) nonDataCols)
                        && existsb (fun row =>
                                      let v := Number_of String_toNumber (Arr.lookup h row) in
                                      negb (isNaN v) && (v >? Fin 0)%js)
                                   dataRows)
                     headers in
              let avgColumn := find (test_includes AVERAGE_HEADER) headers in
              let questions :=
                fold_left (parseQuestion scoreHeaders textColumn numberColumn avgColumn)
                          dataRows [] in
              if (length questions =? 0)%nat then None else Some questions
        end.

(** [tryConvertFrequencyTable]: [Some None] is the [null] of the source,
    [None] means that the fuel ran out in one of the counting loops. *)
Definition tryConvertFrequencyTable (fuel : nat) (headers : list jsstring)
  (rows : list Row) : option (option ParsedSurveyData) :=
  match detectQuestions headers rows with
  | None => Some None
  | Some questions =>
      let maxTotal := Math_max (map qf_total questions) in
      let questionKeys := map questionKey questions in
      match scoreArrays fuel maxTotal questions 0 with
      | None => None
      | Some arrays =>
          match pseudoRows fuel 0 maxTotal questionKeys arrays [] with
          | None => None
          | Some rows' =>
              Some (Some {| pd_headers := RESPONDENT_ID :: questionKeys;
                            pd_respondentIdColumn := RESPONDENT_ID;
                            pd_departmentColumn := [];
                            pd_questionColumns := questionKeys;
                            pd_rows := rows' |})
          end
      end
  end.

End Conversion.

End Parser.

(** ** Textbook statistics on real vectors

    The quantities the specification names, written from its words over
    lists of reals; the theorems below compare them with what the code
    computes. *)

Module Stats.

Definition sum (l : list R) : R := fold_right Rplus 0%R l.

(** Arithmetic mean; [0] for the empty list. *)
Definition mean (l : list R) : R :=
  match l with
  | [] => 0%R
  | _ => (sum l / INR (length l))%R
  end.

(** Sum of squared deviations from the mean. *)
Definition sum_sq_dev (l : list R) : R :=
  sum (map (fun v => ((v - mean l) * (v - mean l))%R) l).

(** Population variance and standard deviation: divide by [N]. *)
Definition variance (l : list R) : R := (sum_sq_dev l / INR (length l))%R.

Definition population_stddev (l : list R) : R :=
  match l with
  | [] => 0%R
  | _ => sqrt (variance l)
  end.







(** Rounding to two decimals, ties upwards. *)
Definition round2dp (x : R) : R := (IZR (JS.Rfloor (x * 100 + / 2)) / 100)%R.

End Stats.

(** ** Real-valued views of the survey data

    The vectors the specification speaks of, read off the responses. *)

Module Views.
Import JS Types Analysis.

(** Every stored answer is a finite number. *)
Definition finite_answers (responses : list SurveyResponse) : Prop :=
  Forall (fun r => forall k v, answer r k = Some v -> isFinite v = true) responses.




(** The department groups of a list of responses, in output order. *)
Definition departmentsOf (localeCompare : jsstring -> jsstring -> number)
  (responses : list SurveyResponse) : list jsstring :=
  sortDepartments localeCompare
    (Arr.dedup (filter truthy_string (map r_department responses))).

(** The responses of one department. *)
Definition deptResponses (responses : list SurveyResponse) (dept : jsstring)
  : list SurveyResponse :=
  filter (fun r => streq (r_department r) dept) responses.

(** The integers [a, a+1, ..., b]. *)
Definition Zrange (a b : Z) : list Z :=
  map (fun k => (a + Z.of_nat k)%Z) (seq 0 (Z.to_nat (b - a + 1))).

(** The respondent's answer to [key] is exactly the number [v]. *)
Definition answered (key : jsstring) (v : number) (r : SurveyResponse) : bool :=
  match answer r key with
  | Some x => same_value_zero v x
  | None => false
  end.

Definition count_answers (responses : list SurveyResponse) (key : jsstring) (v : number)
  : nat :=
  length (filter (answered key v) responses).

(** The answer to [key] is one of the integers of the scale. *)
Definition answered_in_scale (key : jsstring) (a b : Z) (r : SurveyResponse) : bool :=
  existsb (fun i => answered key (of_Z i) r) (Zrange a b).

(** The counts map of [getDistribution] with one entry per integer key. *)
Definition buckets (keys : list Z) (cnt : Z -> nat) : NumMap :=
  map (fun i => (of_Z i, of_nat (cnt i))) keys.



End Views.

(** ** Views of the frequency table *)

Module FreqViews.
Import JS Types Analysis Parser.

(** [1] for [true], [0] for [false]. *)
Definition b2n (b : bool) : nat := if b then 1 else 0.

(** The natural number a count cell stands for. *)
Definition count_nat (c : number) : nat :=
  match c with
  | Fin a => Z.to_nat (Rfloor a)
  | _ => 0
  end.

(** Every count of the question is a non-negative integer. *)
Definition natCounts (q : QuestionFreq) : Prop :=
  Forall (fun e => exists n : nat, snd e = of_nat n) (qf_counts q).

(** The total of a question as a natural number, and the largest total. *)
Definition total_nat (q : QuestionFreq) : nat :=
  list_sum (map (fun e => count_nat (snd e)) (qf_counts q)).

Definition max_total (qs : list QuestionFreq) : nat :=
  fold_right Nat.max 0%nat (map total_nat qs).

(** The scores of a question before padding and shuffling. *)
Definition rawScores (q : QuestionFreq) : list (option number) :=
  flat_map (fun e => repeat (Some (fst e)) (count_nat (snd e))) (qf_counts q).

(** The entry is the score [s]; the entry is [null]. *)
Definition is_score (s : number) (o : option number) : bool :=
  match o with
  | Some v => same_value_zero v s
  | None => false
  end.

Definition is_null (o : option number) : bool :=
  match o with
  | None => true
  | Some _ => false
  end.

(** The step of the [forEach] in the construction of a pseudo row. *)
Definition rowStep (i : nat) (row : Row) (entry : jsstring * list (option number)) : Row :=
  match nth_error (snd entry) i with
  | Some (Some score) => Arr.assign (fst entry) (CNum score) row
  | _ => row
  end.

(** How often a score, or no answer, shows in the column [key] of the
    pseudo rows. *)
Definition occurrences (rows : list Row) (key : jsstring) (score : number) : nat :=
  length (filter (fun r => match Arr.lookup key r with
                           | Some (CNum v) => same_value_zero v score
                           | _ => false
                           end) rows).

Definition absences (rows : list Row) (key : jsstring) : nat :=
  length (filter (fun r => match Arr.lookup key r with
                           | None => true
                           | Some _ => false
                           end) rows).

(** What a score array must be for its question. *)
Definition arrayFor (m : nat) (q : QuestionFreq) (arr : list (option number)) : Prop :=
  length arr = m /\
  (forall s c, In (s, c) (qf_counts q) ->
               length (filter (is_score s) arr) = count_nat c) /\
  length (filter is_null arr) = (m - total_nat q)%nat.

Section Cells.
Variable String_toNumber : jsstring -> number.

(** The count read in the column [header] of a row. *)
Definition cellCount (row : Row) (header : jsstring) : number :=
  num_or (Number_of String_toNumber (Arr.lookup header row)) (Fin 0).

(** The counts and the total of [q] were read from one row of the table. *)
Definition fromRow (headers : list jsstring) (q : QuestionFreq) : Prop :=
  exists row,
    rowCounts String_toNumber (scoreHeaderMap String_toNumber headers) row
    = (qf_counts q, qf_total q).

End Cells.

End FreqViews.

(** ** Views of the department-score matrix *)

Module MatrixViews.
Import JS Types Analysis Parser.

(** The columns of a table are the keys of its first row. *)
Definition columns (rows : list Row) : list jsstring := Arr.keys (hd [] rows).

(** The question-label column: the first column with a string cell longer
    than five characters. *)
Definition labelColumn (rows : list Row) : option jsstring :=
  find (fun h => existsb (fun r => long_string 5 (Arr.lookup h r)) rows) (columns rows).

(** The question-number column: the first column other than the label
    column whose header matches [NUMBER_HEADER]. *)
Definition numberColumn (rows : list Row) (textCol : jsstring) : option jsstring :=
  find (fun h => negb (streq h textCol) && test_includes NUMBER_HEADER h) (columns rows).

Section Cells.
Variable String_toNumber : jsstring -> number.
Variable Number_toString : number -> jsstring.

(** The department/score columns that qualify. *)
Definition deptColumns (rows : list Row) (textCol : jsstring) : list jsstring :=
  filter (isDeptColumn String_toNumber rows textCol (numberColumn rows textCol))
         (columns rows).

(** The rows that stay as questions: label text longer than two
    characters. *)
Definition questionRows (rows : list Row) (textCol : jsstring) : list Row :=
  filter (fun row =>
            (2 <? length (trim (String_or_empty Number_toString (Arr.lookup textCol row))))%nat)
         rows.

End Cells.

End MatrixViews.

(** ** The plain table, validation and conversion ([lib/parser.ts]) *)

Module Ingest.
Import JS Types Analysis Parser.

(** [/回答者|respondent|id/i], [/部署|dept/i] and [/部署|department|dept|組織/i]. *)
Definition RESPONDENT_HEADER : list jsstring :=
  [(* 回答者 *) [22238; 31572; 32773]%N; str "respondent"; str "id"].

Definition NOT_RESPONDENT_HEADER : list jsstring :=
  [(* 部署 *) [37096; 32626]%N; str "dept"].

Definition DEPARTMENT_HEADER : list jsstring :=
  [(* 部署 *) [37096; 32626]%N; str "department"; str "dept";
   (* 組織 *) [32068; 32340]%N].

(** The property key that [undefined] denotes in [row[undefined]]. *)
Definition UNDEFINED_KEY : jsstring := str "undefined".

(** [processParsedRows].  With no header at all [headers[0]] is
    [undefined]; the field is then only used as a property key (in
    [convertToResponses]), and holds that key here. *)
Definition processParsedRows (headers : list jsstring) (rows : list Row)
  : ParsedSurveyData :=
  let respondentIdColumn :=
    match find (fun h => test_includes RESPONDENT_HEADER h
                         && negb (test_includes NOT_RESPONDENT_HEADER h)) headers with
    | Some h => if truthy_string h then h else hd UNDEFINED_KEY headers
    | None => hd UNDEFINED_KEY headers
    end in
  let departmentColumn :=
    match find (test_includes DEPARTMENT_HEADER) headers with
    | Some h => if truthy_string h then h else []
    | None => []
    end in
  let questionColumns :=
    filter (fun h => negb (streq h respondentIdColumn) && negb (streq h departmentColumn))
           headers in
  {| pd_headers := headers;
     pd_respondentIdColumn := respondentIdColumn;
     pd_departmentColumn := departmentColumn;
     pd_questionColumns := questionColumns;
     pd_rows := rows |}.

(** *** Validation *)

Record ValidationError : Type := {
  ve_row : option number;
  ve_column : option jsstring;
  ve_message : jsstring
}.

Record ValidationWarning : Type := {
  vw_row : option number;
  vw_column : option jsstring;
  vw_message : jsstring
}.

Record ValidationResult : Type := {
  isValid : bool;
  errors : list ValidationError;
  warnings : list ValidationWarning
}.

Definition MSG_NO_ROWS : jsstring :=
  (* データが空です。 *) [12487; 12540; 12479; 12364; 31354; 12391; 12377; 12290]%N.
Definition MSG_NO_QUESTION_COLUMNS : jsstring :=
  (* 設問カラムが見つかりません。 *)
  [35373; 21839; 12459; 12521; 12512; 12364; 35211; 12388; 12363; 12426; 12414; 12379;
   12435; 12290]%N.
Definition MSG_MISSING : jsstring := (* 欠損値 *) [27424; 25613; 20516]%N.
(** The text before [val] in the message of a non-numeric cell, up to the
    opening quotation mark; the closing one follows [val]. *)
Definition MSG_NOT_A_NUMBER : jsstring :=
  (* 数値ではありません: *)
  [25968; 20516; 12391; 12399; 12354; 12426; 12414; 12379; 12435; 58; 32; 34]%N.
Definition QUOTE : jsstring := [34]%N.
Definition MSG_OUT_OF_RANGE : jsstring :=
  (* 範囲外の値: *) [31684; 22258; 22806; 12398; 20516; 58; 32]%N.
Definition PAREN_OPEN : jsstring := (* （ *) [65288]%N.
Definition WAVE_DASH : jsstring := (* 〜 *) [12316]%N.
Definition PAREN_CLOSE : jsstring := (* ） *) [65289]%N.

(** [val === '' || val === null || val === undefined]; a cell is a string
    or a number, never [null]. *)
Definition isMissing (val : option cell) : bool :=
  match val with
  | None => true
  | Some (CStr s) => negb (truthy_string s)
  | Some (CNum _) => false
  end.

Section Builtins.

Variable String_toNumber : jsstring -> number.
Variable Number_toString : number -> jsstring.
Variable toLowerCase : jsstring -> jsstring.

(** [uuidv4()]: the identifier the [k]-th call returns. *)
Variable uuidv4 : nat -> jsstring.

(** The body of [data.questionColumns.forEach((col) => ...)]. *)
Definition validateCell (scaleMin scaleMax : number) (rowNum : number) (row : Row)
  (acc : list ValidationError * list ValidationWarning) (col : jsstring)
  : list ValidationError * list ValidationWarning :=
  let val := Arr.lookup col row in
  if isMissing val
  then (fst acc,
        snd acc ++ [{| vw_row := Some rowNum; vw_column := Some col;
                       vw_message := MSG_MISSING |}])
  else
    let num := Number_of String_toNumber val in
    if isNaN num
    then (fst acc ++ [{| ve_row := Some rowNum; ve_column := Some col;
                         ve_message :=
                           MSG_NOT_A_NUMBER ++ String_of Number_toString val ++ QUOTE |}],
          snd acc)
    else if (num <? scaleMin)%js || (num >? scaleMax)%js
    then (fst acc,
          snd acc ++ [{| vw_row := Some rowNum; vw_column := Some col;
                         vw_message :=
                           MSG_OUT_OF_RANGE ++ Number_toString num ++ PAREN_OPEN
                           ++ Number_toString scaleMin ++ WAVE_DASH
                           ++ Number_toString scaleMax ++ PAREN_CLOSE |}])
    else acc.

(** [data.rows.forEach((row, idx) => ...)], entered at index [idx]. *)
Fixpoint validateRows (scaleMin scaleMax : number) (questionColumns : list jsstring)
  (rows : list Row) (idx : nat) (acc : list ValidationError * list ValidationWarning)
  : list ValidationError * list ValidationWarning :=
  match rows with
  | [] => acc
  | row :: rows' =>
      let rowNum := of_nat (idx + 2) in
      validateRows scaleMin scaleMax questionColumns rows' (S idx)
        (fold_left (validateCell scaleMin scaleMax rowNum row) questionColumns acc)
  end.

Definition validateData (data : ParsedSurveyData) (scaleMin scaleMax : number)
  : ValidationResult :=
  if (length (pd_rows data) =? 0)%nat
  then {| isValid := false;
          errors := [{| ve_row := None; ve_column := None; ve_message := MSG_NO_ROWS |}];
          warnings := [] |}
  else if (length (pd_questionColumns data) =? 0)%nat
  then {| isValid := false;
          errors := [{| ve_row := None; ve_column := None;
                        ve_message := MSG_NO_QUESTION_COLUMNS |}];
          warnings := [] |}
  else
    let acc :=
      validateRows scaleMin scaleMax (pd_questionColumns data) (pd_rows data) 0 ([], []) in
    {| isValid := (length (fst acc) =? 0)%nat;
       errors := fst acc;
       warnings := snd acc |}.

(** *** Conversion to responses and questions *)

(** [Object.fromEntries(entries)]; the object is only read by key. *)
Definition fromEntries (entries : list (jsstring * number)) : list (jsstring * number) :=
  fold_left (fun o e => Arr.assign (fst e) (snd e) o) entries [].

(** [convertToResponses], after [k] earlier calls of [uuidv4]. *)
Definition convertToResponses (k : nat) (data : ParsedSurveyData) (projectId : jsstring)
  : list SurveyResponse :=
  mapi
    (fun row i =>
       {| r_id := uuidv4 (k + i);
          r_projectId := projectId;
          r_respondentId :=
            String_or_empty Number_toString (Arr.lookup (pd_respondentIdColumn data) row);
          r_department :=
            if truthy_string (pd_departmentColumn data)
            then String_or_empty Number_toString (Arr.lookup (pd_departmentColumn data) row)
            else [];
          r_answers :=
            fromEntries
              (filter (fun e => negb (isNaN (snd e)))
                 (map (fun col => (col, Number_of String_toNumber (Arr.lookup col row)))
                      (pd_questionColumns data))) |})
    (pd_rows data) 0.

(** [\d] and the class [[_\s]]. *)
Definition is_digit (c : N) : bool := (48 <=? c)%N && (c <=? 57)%N.
Definition is_separator (c : N) : bool := N.eqb c 95 || is_space c.

Fixpoint dropWhile (p : N -> bool) (s : jsstring) : jsstring :=
  match s with
  | c :: s' => if p c then dropWhile p s' else s
  | [] => []
  end.

(** [col.replace(/^Q\d+[_\s]*/i, '')]. *)
Definition stripQuestionNumber (col : jsstring) : jsstring :=
  match col with
  | c :: d :: rest =>
      if N.eqb (canon c) 81 && is_digit d
      then dropWhile is_separator (dropWhile is_digit rest)
      else col
  | _ => col
  end.

(** [generateQuestions], after [k] earlier calls of [uuidv4]. *)
Definition generateQuestions (k : nat) (data : ParsedSurveyData) (projectId : jsstring)
  (scaleMin scaleMax : number) : list Question :=
  mapi
    (fun col i =>
       let label := stripQuestionNumber col in
       {| q_id := uuidv4 (k + i);
          q_projectId := projectId;
          q_key := col;
          q_label := if truthy_string label then label else col;
          q_categoryId := classifyQuestion toLowerCase col;
          q_scaleMin := scaleMin;
          q_scaleMax := scaleMax |})
    (pd_questionColumns data) 0.

(** *** Label rows of a department-score sheet *)

(** [typeof v === 'number' || (!isNaN(Number(v)) && String(v).includes('.'))]. *)
Definition looksNumeric (v : option cell) : bool :=
  match v with
  | Some (CNum _) => true
  | _ => negb (isNaN (Number_of String_toNumber v))
         && includes (String_of Number_toString v) (str ".")
  end.

(** [typeof v === 'string' && v.length > 1 && isNaN(Number(v))]. *)
Definition isLabelText (v : option cell) : bool :=
  match v with
  | Some (CStr s) => (1 <? length s)%nat && isNaN (String_toNumber s)
  | _ => false
  end.

Definition skipLabelRows (rows : list Row) : list Row :=
  match rows with
  | [] => rows
  | row0 :: _ =>
      let headers := Arr.keys row0 in
      let numericHeaders :=
        filter (fun h => existsb (fun r => looksNumeric (Arr.lookup h r)) (firstn 5 rows))
               headers in
      if (length numericHeaders =? 0)%nat then rows
      else
        filter
          (fun row =>
             let textInNumCols :=
               filter (fun h => isLabelText (Arr.lookup h row)) numericHeaders in
             (of_nat (length textInNumCols) <? of_nat (length numericHeaders) / Fin 2)%js)
          rows
  end.

(** *** The reader, after the file has been read into rows *)

Variable random : nat -> R.


End Builtins.

End Ingest.

(** ** Categories ([types/index.ts]) *)

Module Catalogue.
Import JS.

Record Category : Type := {
  c_id : jsstring;
  c_name : jsstring;
  c_color : jsstring;
  c_order : number
}.

(** [DEFAULT_CATEGORIES]. *)
Definition DEFAULT_CATEGORIES : list Category :=
  [ {| c_id := str "cat-1"; c_name := (* 職場環境 *) [32887; 22580; 29872; 22659]%N;
       c_color := str "#3b82f6"; c_order := Fin 1 |};
    {| c_id := str "cat-2"; c_name := (* 人間関係 *) [20154; 38291; 38306; 20418]%N;
       c_color := str "#ef4444"; c_order := Fin 2 |};
    {| c_id := str "cat-3"; c_name := (* 報酬・待遇 *) [22577; 37228; 12539; 24453; 36935]%N;
       c_color := str "#f59e0b"; c_order := Fin 3 |};
    {| c_id := str "cat-4";
       c_name := (* 成長・キャリア *) [25104; 38263; 12539; 12461; 12515; 12522; 12450]%N;
       c_color := str "#10b981"; c_order := Fin 4 |};
    {| c_id := str "cat-5"; c_name := (* 業務内容 *) [26989; 21209; 20869; 23481]%N;
       c_color := str "#8b5cf6"; c_order := Fin 5 |};
    {| c_id := str "cat-6"; c_name := (* 経営・組織 *) [32076; 21942; 12539; 32068; 32340]%N;
       c_color := str "#ec4899"; c_order := Fin 6 |};
    {| c_id := str "cat-other"; c_name := (* その他 *) [12381; 12398; 20182]%N;
       c_color := str "#6b7280"; c_order := Fin 99 |} ].

End Catalogue.

(** ** The application store ([store/index.ts]) *)

Module Store.
Import JS Types Parser Catalogue.

(** A [Date], by its time value in milliseconds. *)
Definition Date : Type := Z.

Record SurveyProject : Type := {
  sp_id : jsstring;
  sp_name : jsstring;
  sp_description : jsstring;
  sp_createdAt : Date;
  sp_updatedAt : Date
}.

Inductive TargetType : Type :=
| target_issue
| target_excellent
| target_priority_quadrant
| target_dept_question
| target_dept_department
| target_dept_overview.

(** [a === b] on target types. *)
Definition targetType_eqb (a b : TargetType) : bool :=
  match a, b with
  | target_issue, target_issue
  | target_excellent, target_excellent
  | target_priority_quadrant, target_priority_quadrant
  | target_dept_question, target_dept_question
  | target_dept_department, target_dept_department
  | target_dept_overview, target_dept_overview => true
  | _, _ => false
  end.

Record AIComment : Type := {
  ai_id : jsstring;
  ai_projectId : jsstring;
  ai_targetType : TargetType;
  ai_targetId : jsstring;
  ai_aiGeneratedText : jsstring;
  ai_editedText : jsstring;
  ai_isEdited : bool;
  ai_generatedAt : Date;
  ai_editedAt : option Date
}.

(** The data fields of [SurveyState]. *)
Record SurveyState : Type := {
  st_project : option SurveyProject;
  st_parsedData : option ParsedSurveyData;
  st_questions : list Question;
  st_categories : list Category;
  st_responses : list SurveyResponse;
  st_analysisResults : list AnalysisResult;
  st_departmentAnalyses : list DepartmentAnalysis;
  st_aiComments : list AIComment;
  st_deptScoreData : option DepartmentScoreData;
  st_deptAIComments : list AIComment;
  st_settings : AppSettings
}.

(** [set({ questions })], [set({ aiComments })], [set({ deptAIComments })]:
    the other fields stay. *)
Definition set_questions (questions : list Question) (state : SurveyState) : SurveyState :=
  {| st_project := st_project state;
     st_parsedData := st_parsedData state;
     st_questions := questions;
     st_categories := st_categories state;
     st_responses := st_responses state;
     st_analysisResults := st_analysisResults state;
     st_departmentAnalyses := st_departmentAnalyses state;
     st_aiComments := st_aiComments state;
     st_deptScoreData := st_deptScoreData state;
     st_deptAIComments := st_deptAIComments state;
     st_settings := st_settings state |}.

Definition set_aiComments (comments : list AIComment) (state : SurveyState) : SurveyState :=
  {| st_project := st_project state;
     st_parsedData := st_parsedData state;
     st_questions := st_questions state;
     st_categories := st_categories state;
     st_responses := st_responses state;
     st_analysisResults := st_analysisResults state;
     st_departmentAnalyses := st_departmentAnalyses state;
     st_aiComments := comments;
     st_deptScoreData := st_deptScoreData state;
     st_deptAIComments := st_deptAIComments state;
     st_settings := st_settings state |}.

Definition set_deptAIComments (comments : list AIComment) (state : SurveyState)
  : SurveyState :=
  {| st_project := st_project state;
     st_parsedData := st_parsedData state;
     st_questions := st_questions state;
     st_categories := st_categories state;
     st_responses := st_responses state;
     st_analysisResults := st_analysisResults state;
     st_departmentAnalyses := st_departmentAnalyses state;
     st_aiComments := st_aiComments state;
     st_deptScoreData := st_deptScoreData state;
     st_deptAIComments := comments;
     st_settings := st_settings state |}.

(** [{ ...q, categoryId }]. *)
Definition with_categoryId (q : Question) (categoryId : jsstring) : Question :=
  {| q_id := q_id q;
     q_projectId := q_projectId q;
     q_key := q_key q;
     q_label := q_label q;
     q_categoryId := categoryId;
     q_scaleMin := q_scaleMin q;
     q_scaleMax := q_scaleMax q |}.

Definition updateQuestionCategory (questionId categoryId : jsstring) (state : SurveyState)
  : SurveyState :=
  set_questions
    (map (fun q => if streq (q_id q) questionId then with_categoryId q categoryId else q)
         (st_questions state))
    state.

(** [{ ...c, editedText, isEdited: true, editedAt: new Date() }]; [now] is
    the value of [new Date()]. *)
Definition edited (now : Date) (editedText : jsstring) (c : AIComment) : AIComment :=
  {| ai_id := ai_id c;
     ai_projectId := ai_projectId c;
     ai_targetType := ai_targetType c;
     ai_targetId := ai_targetId c;
     ai_aiGeneratedText := ai_aiGeneratedText c;
     ai_editedText := editedText;
     ai_isEdited := true;
     ai_generatedAt := ai_generatedAt c;
     ai_editedAt := Some now |}.

(** [{ ...c, editedText: c.aiGeneratedText, isEdited: false, editedAt: null }]. *)
Definition restored (c : AIComment) : AIComment :=
  {| ai_id := ai_id c;
     ai_projectId := ai_projectId c;
     ai_targetType := ai_targetType c;
     ai_targetId := ai_targetId c;
     ai_aiGeneratedText := ai_aiGeneratedText c;
     ai_editedText := ai_aiGeneratedText c;
     ai_isEdited := false;
     ai_generatedAt := ai_generatedAt c;
     ai_editedAt := None |}.

(** [{ ...comment, id }]. *)
Definition with_id (comment : AIComment) (id : jsstring) : AIComment :=
  {| ai_id := id;
     ai_projectId := ai_projectId comment;
     ai_targetType := ai_targetType comment;
     ai_targetId := ai_targetId comment;
     ai_aiGeneratedText := ai_aiGeneratedText comment;
     ai_editedText := ai_editedText comment;
     ai_isEdited := ai_isEdited comment;
     ai_generatedAt := ai_generatedAt comment;
     ai_editedAt := ai_editedAt comment |}.

(** The updaters of [updateAIComment] and [updateDeptAIComment], of
    [resetAIComment] and [resetDeptAIComment], and of [addOrUpdateAIComment]
    and [addOrUpdateDeptAIComment], which differ in the field only. *)
Definition updateComments (now : Date) (id editedText : jsstring)
  (comments : list AIComment) : list AIComment :=
  map (fun c => if streq (ai_id c) id then edited now editedText c else c) comments.

Definition resetComments (id : jsstring) (comments : list AIComment) : list AIComment :=
  map (fun c => if streq (ai_id c) id then restored c else c) comments.

(** [c.targetType === comment.targetType && c.targetId === comment.targetId]. *)
Definition sameTarget (comment c : AIComment) : bool :=
  targetType_eqb (ai_targetType c) (ai_targetType comment)
  && streq (ai_targetId c) (ai_targetId comment).

(** [freshId] is the value [uuidv4()] returns if it is called. *)
Definition addOrUpdateComments (freshId : jsstring) (comment : AIComment)
  (comments : list AIComment) : list AIComment :=
  match find (sameTarget comment) comments with
  | Some existing =>
      map (fun c => if streq (ai_id c) (ai_id existing)
                    then with_id comment (ai_id existing) else c)
          comments
  | None => comments ++ [with_id comment freshId]
  end.

Definition updateAIComment (now : Date) (id editedText : jsstring) (state : SurveyState)
  : SurveyState :=
  set_aiComments (updateComments now id editedText (st_aiComments state)) state.

Definition resetAIComment (id : jsstring) (state : SurveyState) : SurveyState :=
  set_aiComments (resetComments id (st_aiComments state)) state.

Definition addOrUpdateAIComment (freshId : jsstring) (comment : AIComment)
  (state : SurveyState) : SurveyState :=
  set_aiComments (addOrUpdateComments freshId comment (st_aiComments state)) state.

Definition updateDeptAIComment (now : Date) (id editedText : jsstring)
  (state : SurveyState) : SurveyState :=
  set_deptAIComments (updateComments now id editedText (st_deptAIComments state)) state.

Definition resetDeptAIComment (id : jsstring) (state : SurveyState) : SurveyState :=
  set_deptAIComments (resetComments id (st_deptAIComments state)) state.

Definition addOrUpdateDeptAIComment (freshId : jsstring) (comment : AIComment)
  (state : SurveyState) : SurveyState :=
  set_deptAIComments (addOrUpdateComments freshId comment (st_deptAIComments state)) state.

End Store.

(** ** Views for the laws of the statistics engine *)

Module LawViews.
Import JS Types Analysis.

(** Insertion into a list of reals, as [Arr.insert] does with the
    comparator [a - b], and the sort built from it. *)
Fixpoint insertR (x : R) (l : list R) : list R :=
  match l with
  | [] => [x]
  | y :: l' => if Rltb y x then y :: insertR x l' else x :: l
  end.

Definition sortR (l : list R) : list R := fold_right insertR [] l.

(** The median [calcMedian] returns on finite values. *)
Definition medianR (l : list R) : R :=
  match l with
  | [] => 0%R
  | _ =>
      let s := sortR l in
      let mid := (length s / 2)%nat in
      if negb (length s mod 2 =? 0)%nat then nth mid s 0%R
      else ((nth (mid - 1) s 0 + nth mid s 0) / 2)%R
  end.

(** The finite answers given to one question, respondent by respondent. *)
Definition question_values (responses : list SurveyResponse) (k : jsstring) : list R :=
  flat_map (fun r => match answer r k with Some (Fin a) => [a] | _ => [] end) responses.

(** Every stored answer is a finite number between [lo] and [hi]. *)
Definition answers_within (lo hi : R) (responses : list SurveyResponse) : Prop :=
  Forall (fun r => forall k v, answer r k = Some v ->
                   exists a, v = Fin a /\ (lo <= a <= hi)%R) responses.

(** [a] may stand before [b]: the comparator does not put [a] after [b]. *)
Definition precedes (localeCompare : jsstring -> jsstring -> number) (a b : jsstring)
  : Prop :=
  (localeCompare a b >? Fin 0)%js = false.

End LawViews.

(** ** Views of the plain table *)

Module IngestViews.
Import JS Types Analysis Parser Ingest.

(** The header reads as a respondent column. *)
Definition respondentLike (h : jsstring) : bool :=
  test_includes RESPONDENT_HEADER h && negb (test_includes NOT_RESPONDENT_HEADER h).

(** Where a message points: its row number and its column. *)
Definition errorPlace (e : ValidationError) : option number * option jsstring :=
  (ve_row e, ve_column e).
Definition warningPlace (w : ValidationWarning) : option number * option jsstring :=
  (vw_row w, vw_column w).

(** A row without a string cell. *)
Definition numbersOnly (row : Row) : Prop :=
  forall h s, Arr.lookup h row <> Some (CStr s).

Section Cells.
Variable String_toNumber : jsstring -> number.

(** The cell holds something that is not a number. *)
Definition notNumeric (val : option cell) : bool :=
  negb (isMissing val) && isNaN (Number_of String_toNumber val).

(** The cell is flagged but harmless: empty, or a number outside the scale. *)
Definition flagged (scaleMin scaleMax : number) (val : option cell) : bool :=
  isMissing val
  || (negb (isNaN (Number_of String_toNumber val))
      && ((Number_of String_toNumber val <? scaleMin)%js
          || (Number_of String_toNumber val >? scaleMax)%js)).

(** The cells of the question columns that satisfy [p], row by row from
    the index [idx], each with the row number of the sheet (the header is
    row 1). *)
Definition cellsWhere (p : option cell -> bool) (questionColumns : list jsstring)
  (rows : list Row) (idx : nat) : list (option number * option jsstring) :=
  flat_map
    (fun ir =>
       map (fun col => (Some (of_nat (fst ir + 2)), Some col))
           (filter (fun col => p (Arr.lookup col (snd ir))) questionColumns))
    (combine (seq idx (length rows)) rows).

(** The answer [convertToResponses] stores for a cell. *)
Definition cellAnswer (val : option cell) : option number :=
  let v := Number_of String_toNumber val in
  if isNaN v then None else Some v.

End Cells.

End IngestViews.

(** ** Views of the store *)

Module StoreViews.
Import JS Store.

(** The target a comment is attached to. *)
Definition target (c : AIComment) : TargetType * jsstring := (ai_targetType c, ai_targetId c).

End StoreViews.


(** ** Sample inputs *)

Module Samples.
Import JS Types.

(** [DEFAULT_SETTINGS]. *)
Definition DEFAULT_SETTINGS : AppSettings :=
  {| issueThreshold := Fin 3;
     excellentThreshold := Fin 4;
     scaleMin := Fin 1;
     scaleMax := Fin 5;
     apiKey := [] |}.

Definition response (respondentId department : string)
  (answers : list (jsstring * number)) : SurveyResponse :=
  {| r_id := str respondentId;
     r_projectId := str "p1";
     r_respondentId := str respondentId;
     r_department := str department;
     r_answers := answers |}.

Definition question (key : string) : Question :=
  {| q_id := str key;
     q_projectId := str "p1";
     q_key := str key;
     q_label := str key;
     q_categoryId := str "cat-other";
     q_scaleMin := Fin 1;
     q_scaleMax := Fin 5 |}.

(** Eight respondents answer [q1]: one with [1], seven with [5]. *)
Definition one_low_seven_high : list SurveyResponse :=
  map (fun v => response "r" "" [(str "q1", Fin v)])
      [1; 5; 5; 5; 5; 5; 5; 5]%R.

(** The answers [1, 1, 3, 5, 5, 5] to [q1], then [2.5], [7] and a
    respondent without an answer. *)
Definition distribution_sample : list SurveyResponse :=
  map (fun v => response "r" "" [(str "q1", Fin v)])
      [1; 1; 3; 5; 5; 5; 25 / 10; 7]%R
  ++ [response "r" "" []].

(** Two respondents, the first with no department. *)
Definition with_empty_department : list SurveyResponse :=
  [response "r1" "" [(str "q1", Fin 2)]; response "r2" "A" [(str "q1", Fin 4)]].

(** Department [A] answers [q1] with [1, 1, 2]; three respondents without
    a department answer [4]. *)
Definition rounded_overall : list SurveyResponse :=
  map (fun v => response "r" "A" [(str "q1", Fin v)]) [1; 1; 2]%R
  ++ map (fun v => response "r" "" [(str "q1", Fin v)]) [4; 4; 4]%R.


(** A department-score table whose question column has the empty header,
    and the same table with the header [Question]. *)
Definition empty_label_header : list Parser.Row :=
  [ [([], Parser.CStr (str "How satisfied are you?"));
     (str "Sales", Parser.CNum (Fin (32 / 10)))] ].

Definition named_label_header : list Parser.Row :=
  [ [(str "Question", Parser.CStr (str "How satisfied are you?"));
     (str "Sales", Parser.CNum (Fin (32 / 10)))] ].

(** [Number(s)] on the strings of the samples: a one-digit string is its
    digit, the other strings used are not numeric. *)
Definition digit_toNumber (s : jsstring) : number :=
  match s with
  | [c] => if (48 <=? c)%N && (c <=? 57)%N then of_Z (Z.of_N c - 48) else NaN
  | _ => NaN
  end.

(** [String(x)] on the numbers of the samples: a one-digit integer is its
    digit. *)
Definition digit_toString (x : number) : jsstring :=
  match x with
  | Fin a => [(48 + Z.to_N (Rfloor a))%N]
  | _ => str "NaN"
  end.

(** A random source that always answers [0]. *)
Definition zero_random (k : nat) : R := 0%R.

(** The headers of a frequency table with the scores [3], [2], [1]. *)
Definition freq_headers : list jsstring := [str "Question"; str "3"; str "2"; str "1"].

Definition freq_row (text : string) (c3 c2 c1 : Parser.cell) : Parser.Row :=
  [(str "Question", Parser.CStr (str text)); (str "3", c3); (str "2", c2); (str "1", c1)].

Definition freq_label_row : Parser.Row :=
  freq_row "Item" (Parser.CStr (str "agree")) (Parser.CStr (str "neutral"))
           (Parser.CStr (str "disagree")).

(** Two questions with the totals [3] and [2]. *)
Definition freq_table : list Parser.Row :=
  [ freq_label_row;
    freq_row "Work is rewarding" (Parser.CNum (Fin 2)) (Parser.CNum (Fin 1))
             (Parser.CNum (Fin 0));
    freq_row "Pay is fair" (Parser.CNum (Fin 1)) (Parser.CNum (Fin 0))
             (Parser.CNum (Fin 1)) ].

Definition freq_questions : list Parser.QuestionFreq :=
  [ {| Parser.qf_number := Fin 1;
       Parser.qf_text := str "Work is rewarding";
       Parser.qf_counts := [(Fin 3, Fin 2); (Fin 2, Fin 1); (Fin 1, Fin 0)];
       Parser.qf_total := Fin 3;
       Parser.qf_weightedAvg := None |};
    {| Parser.qf_number := Fin 2;
       Parser.qf_text := str "Pay is fair";
       Parser.qf_counts := [(Fin 3, Fin 1); (Fin 2, Fin 0); (Fin 1, Fin 1)];
       Parser.qf_total := Fin 2;
       Parser.qf_weightedAvg := None |} ].

(** A table whose only question has the cell [0.5] under the score [3]. *)
Definition freq_fractional : list Parser.Row :=
  [ freq_label_row;
    freq_row "Work is rewarding" (Parser.CNum (Fin (5 / 10))) (Parser.CNum (Fin 0))
             (Parser.CNum (Fin 0));
    freq_row "Pay is fair" (Parser.CNum (Fin 0)) (Parser.CNum (Fin 0))
             (Parser.CNum (Fin 0)) ].

End Samples.

(** ** Further sample inputs *)

Module Cases.
Import JS Types Parser Store.

(** A collation that puts shorter names first. *)
Definition by_length (a b : jsstring) : number :=
  (of_nat (length a) - of_nat (length b))%js.

(** [toLowerCase] on strings without capital letters. *)
Definition lower (s : jsstring) : jsstring := s.

(** [Number(s)] on the empty string and on one-digit strings. *)
Definition blank_toNumber (s : jsstring) : number :=
  match s with
  | [] => Fin 0
  | _ => Samples.digit_toNumber s
  end.

(** Identifiers [x], [xx], [xxx], ... for the calls of [uuidv4]. *)
Definition counter_uuid (k : nat) : jsstring := repeat 120%N (S k).


(** A plain table with one question column and no department column: the
    answers [3] and, in the second row, an empty cell. *)
Definition plain_data : ParsedSurveyData :=
  {| pd_headers := [str "id"; str "Q1"];
     pd_respondentIdColumn := str "id";
     pd_departmentColumn := [];
     pd_questionColumns := [str "Q1"];
     pd_rows := [ [(str "id", CStr (str "a")); (str "Q1", CNum (Fin 3))] ] |}.

Definition blank_row : Row := [(str "id", CStr (str "b")); (str "Q1", CStr [])].

Definition plain_data_with_blank : ParsedSurveyData :=
  {| pd_headers := [str "id"; str "Q1"];
     pd_respondentIdColumn := str "id";
     pd_departmentColumn := [];
     pd_questionColumns := [str "Q1"];
     pd_rows := [ [(str "id", CStr (str "a")); (str "Q1", CNum (Fin 3))]; blank_row ] |}.



End Cases.

(** * Properties *)

(** ** Facts about numbers *)

Module JSFacts.
Import JS.

Lemma Rltb_true_iff (a b : R) : Rltb a b = true <-> (a < b)%R.
Proof. unfold Rltb. destruct (Rlt_dec a b); split; intros; try easy. Qed.

Lemma Rleb_true_iff (a b : R) : Rleb a b = true <-> (a <= b)%R.
Proof. unfold Rleb. destruct (Rle_dec a b); split; intros; try easy. Qed.

Lemma Reqb_true_iff (a b : R) : Reqb a b = true <-> a = b.
Proof. unfold Reqb. destruct (Req_dec_T a b); split; intros; try easy. Qed.

Lemma Rltb_false_iff (a b : R) : Rltb a b = false <-> (b <= a)%R.
Proof.
  unfold Rltb. destruct (Rlt_dec a b); split; intros; try easy; lra.
Qed.

Lemma Rleb_false_iff (a b : R) : Rleb a b = false <-> (b < a)%R.
Proof.
  unfold Rleb. destruct (Rle_dec a b); split; intros; try easy; lra.
Qed.

Lemma Reqb_false_iff (a b : R) : Reqb a b = false <-> a <> b.
Proof. unfold Reqb. destruct (Req_dec_T a b); split; intros; try easy. Qed.

Lemma Reqb_refl (a : R) : Reqb a a = true.
Proof. now apply Reqb_true_iff. Qed.

(** Decide the real comparisons of a goal whose operands are numerals. *)
Ltac rcmp :=
  repeat match goal with
  | |- context [Rltb ?a ?b] =>
      first [ rewrite (proj2 (Rltb_true_iff a b)) by lra
            | rewrite (proj2 (Rltb_false_iff a b)) by lra ]
  | |- context [Rleb ?a ?b] =>
      first [ rewrite (proj2 (Rleb_true_iff a b)) by lra
            | rewrite (proj2 (Rleb_false_iff a b)) by lra ]
  | |- context [Reqb ?a ?b] =>
      first [ rewrite (proj2 (Reqb_true_iff a b)) by lra
            | rewrite (proj2 (Reqb_false_iff a b)) by lra ]
  end.

Lemma Rfloor_spec (r : R) : (IZR (Rfloor r) <= r < IZR (Rfloor r) + 1)%R.
Proof.
  unfold Rfloor. destruct (base_Int_part r) as [H1 H2]. lra.
Qed.

Lemma Rfloor_unique (r : R) (z : Z) : (IZR z <= r < IZR z + 1)%R -> Rfloor r = z.
Proof.
  intros H. unfold Rfloor. symmetry. apply Int_part_spec. lra.
Qed.

Lemma Rfloor_IZR (z : Z) : Rfloor (IZR z) = z.
Proof. apply Rfloor_unique. lra. Qed.

Lemma Rfloor_le (a b : R) : (a <= b)%R -> (Rfloor a <= Rfloor b)%Z.
Proof.
  intros H. pose proof (Rfloor_spec a) as Ha. pose proof (Rfloor_spec b) as Hb.
  apply Z.lt_succ_r. apply lt_IZR. rewrite succ_IZR. lra.
Qed.


Lemma round2_Fin (x : R) : Analysis.round2 (Fin x) = Fin (Stats.round2dp x).
Proof.
  unfold Analysis.round2, Stats.round2dp. simpl. rcmp. reflexivity.
Qed.

Lemma round2dp_0 : Stats.round2dp 0 = 0%R.
Proof.
  unfold Stats.round2dp. rewrite (Rfloor_unique _ 0); lra.
Qed.

Lemma round2dp_mono (a b : R) : (a <= b)%R -> (Stats.round2dp a <= Stats.round2dp b)%R.
Proof.
  intros H. unfold Stats.round2dp.
  assert (Hz : (Rfloor (a * 100 + / 2) <= Rfloor (b * 100 + / 2))%Z)
    by (apply Rfloor_le; lra).
  apply IZR_le in Hz. lra.
Qed.


Lemma add_Fin (a b : R) : (Fin a + Fin b)%js = Fin (a + b).
Proof. reflexivity. Qed.

Lemma sub_Fin (a b : R) : (Fin a - Fin b)%js = Fin (a - b).
Proof. reflexivity. Qed.


Lemma div_Fin (a b : R) : b <> 0%R -> (Fin a / Fin b)%js = Fin (a / b).
Proof. intros H. simpl. rewrite (proj2 (Reqb_false_iff b 0) H). reflexivity. Qed.

Lemma sqrt_Fin (a : R) : (0 <= a)%R -> Math_sqrt (Fin a) = Fin (sqrt a).
Proof. intros H. simpl. rewrite (proj2 (Rltb_false_iff a 0) H). reflexivity. Qed.

(** [x < y] and [x >= y] exclude each other. *)
Lemma lt_ge_excl (x y : number) : (x <? y)%js = true -> (x >=? y)%js = false.
Proof.
  unfold ge. destruct x as [a| | |], y as [b| | |]; simpl; try easy.
  intros H. apply Rltb_true_iff in H. apply Rleb_false_iff. exact H.
Qed.

End JSFacts.

(** ** Properties of the statistics engine *)

Module AnalysisProps.
Import JS Types Analysis JSFacts.

(** *** Sums and means of finite numbers *)

Lemma fold_left_Rplus (l : list R) (a : R) :
  fold_left Rplus l a = (a + Stats.sum l)%R.
Proof.
  revert a. induction l as [|x l IH]; intros a; simpl.
  - lra.
  - rewrite IH. lra.
Qed.

Lemma fold_left_add_Fin (l : list R) (a : R) :
  fold_left (fun a b => a + b)%js (map Fin l) (Fin a) = Fin (a + Stats.sum l).
Proof.
  revert a. induction l as [|x l IH]; intros a; simpl.
  - f_equal. lra.
  - rewrite IH. f_equal. lra.
Qed.

Lemma INR_length_pos {A : Type} (l : list A) : l <> [] -> (0 < INR (length l))%R.
Proof.
  intros H. destruct l as [|x l]; [easy|]. apply lt_0_INR. simpl. lia.
Qed.

Lemma calcMean_Fin (l : list R) : calcMean (map Fin l) = Fin (Stats.mean l).
Proof.
  unfold calcMean. rewrite length_map.
  destruct l as [|x l]; [reflexivity|].
  cbn [length Nat.eqb]. rewrite fold_left_add_Fin. unfold of_nat.
  rewrite div_Fin.
  - unfold Stats.mean. rewrite Rplus_0_l. reflexivity.
  - apply Rgt_not_eq. apply (INR_length_pos (x :: l)). easy.
Qed.

Lemma sum_nonneg (l : list R) : Forall (fun v => 0 <= v)%R l -> (0 <= Stats.sum l)%R.
Proof.
  induction 1; simpl; lra.
Qed.

Lemma sum_sq_nonneg (m : R) (l : list R) :
  (0 <= Stats.sum (map (fun v => (v - m) * (v - m)) l))%R.
Proof.
  apply sum_nonneg. apply Forall_forall. intros v Hv.
  apply in_map_iff in Hv. destruct Hv as [w [<- _]]. apply Rle_0_sqr.
Qed.

Lemma fold_left_sq_Fin (m : R) (l : list R) (a : R) :
  fold_left (fun sum v => sum + (v - Fin m) * (v - Fin m))%js (map Fin l) (Fin a)
  = Fin (a + Stats.sum (map (fun v => (v - m) * (v - m))%R l)).
Proof.
  revert a. induction l as [|x l IH]; intros a; simpl.
  - f_equal. lra.
  - rewrite IH. f_equal. lra.
Qed.

Lemma variance_nonneg (l : list R) : (0 <= Stats.variance l)%R.
Proof.
  unfold Stats.variance, Stats.sum_sq_dev.
  pose proof (sum_sq_nonneg (Stats.mean l) l) as H.
  destruct l as [|x l].
  - simpl. lra.
  - apply Rmult_le_pos; [exact H|]. left. apply Rinv_0_lt_compat.
    apply (INR_length_pos (x :: l)). easy.
Qed.

Lemma calcStdDev_Fin (l : list R) :
  calcStdDev (map Fin l) = Fin (Stats.population_stddev l).
Proof.
  unfold calcStdDev. rewrite length_map.
  destruct l as [|x [|y l]].
  - reflexivity.
  - simpl. f_equal. unfold Stats.variance, Stats.sum_sq_dev. simpl.
    replace ((x - (x + 0) / 1) * (x - (x + 0) / 1) + 0)%R with 0%R by (field_simplify; lra).
    replace (0 / 1)%R with 0%R by lra. symmetry. apply sqrt_0.
  - cbn [length Nat.leb]. rewrite calcMean_Fin, fold_left_sq_Fin. unfold of_nat.
    rewrite div_Fin.
    + rewrite sqrt_Fin.
      * rewrite Rplus_0_l. reflexivity.
      * rewrite Rplus_0_l. apply (variance_nonneg (x :: y :: l)).
    + apply Rgt_not_eq. apply (INR_length_pos (x :: y :: l)). easy.
Qed.

Lemma population_stddev_nonneg (l : list R) : (0 <= Stats.population_stddev l)%R.
Proof.
  destruct l; simpl; [lra|]. apply sqrt_pos.
Qed.

Lemma Math_sqrt_sign (x : number) : Math_sqrt x = NaN \/ (Fin 0 <=? Math_sqrt x)%js = true.
Proof.
  destruct x as [a| | |]; simpl; auto.
  destruct (Rltb a 0) eqn:E; auto. right. simpl.
  apply Rleb_true_iff. apply sqrt_pos.
Qed.

(** *** Empty input *)

(** C10: if the responses list is empty or the questions list is empty,
    [runAnalysis] returns the empty array, whatever the settings. *)
Theorem runAnalysis_empty_input :
  (forall questions settings, runAnalysis [] questions settings = []) /\
  (forall responses settings, runAnalysis responses [] settings = []).
Proof.
  split.
  - intros questions settings. reflexivity.
  - intros responses settings. unfold runAnalysis.
    destruct (length responses =? 0)%nat; reflexivity.
Qed.

Lemma runAnalysis_nonempty (responses : list SurveyResponse) (questions : list Question)
  (settings : AppSettings) :
  responses <> [] ->
  runAnalysis responses questions settings
  = map (analyseQuestion responses
           (calcOverallScores responses (map q_key questions)) settings) questions.
Proof.
  intros H. unfold runAnalysis.
  destruct responses as [|r rs]; [easy|].
  destruct questions as [|q qs]; reflexivity.
Qed.

(** *** Quadrant and priority *)

(** C2: quadrant classification is total and each quadrant is chosen
    exactly on its region of the (mean, importance) plane, with the mean
    threshold [(scaleMin + scaleMax) / 2] and the importance threshold
    [0.5] that [runAnalysis] passes; the priority is [high] for [improve],
    [medium] for [monitor] with [mean <= issueThreshold], and [low]
    otherwise. *)
Theorem quadrant_classification_total :
  (forall mean importance meanThreshold importanceThreshold : number,
     let q := getQuadrant mean importance meanThreshold importanceThreshold in
     let important := (importance >=? importanceThreshold)%js in
     let unimportant := (importance <? importanceThreshold)%js in
     let below := (mean <? meanThreshold)%js in
     let above := (mean >=? meanThreshold)%js in
     (q = improve <-> important = true /\ below = true) /\
     (q = maintain <-> important = true /\ above = true) /\
     (q = monitor <-> unimportant = true /\ below = true) /\
     (q = excess <->
        ~ (important = true /\ below = true) /\
        ~ (important = true /\ above = true) /\
        ~ (unimportant = true /\ below = true))) /\
  (forall (quadrant : Quadrant) (mean issueThreshold : number),
     getPriority quadrant mean issueThreshold =
       match quadrant with
       | improve => high
       | monitor => if (mean <=? issueThreshold)%js then medium else low
       | maintain | excess => low
       end) /\
  (forall responses overallScores settings question,
     let r := analyseQuestion responses overallScores settings question in
     let values := defined_numbers (map (fun x => answer x (q_key question)) responses) in
     let importance :=
       Math_abs (calcCorrelation
                   (map (fun x => answer_or_zero x (q_key question)) responses)
                   overallScores) in
     ar_quadrant r =
       getQuadrant (calcMean values) importance
         ((scaleMin settings + scaleMax settings) / Fin 2)%js (Fin (5 / 10)) /\
     ar_priority r = getPriority (ar_quadrant r) (calcMean values) (issueThreshold settings)).
Proof.
  split; [|split].
  - intros mean importance meanThreshold importanceThreshold. cbv zeta.
    unfold getQuadrant.
    destruct (mean <? meanThreshold)%js eqn:Em;
      [rewrite (lt_ge_excl _ _ Em)|];
      (destruct (importance <? importanceThreshold)%js eqn:Ei;
       [rewrite (lt_ge_excl _ _ Ei)|]);
      try destruct (importance >=? importanceThreshold)%js;
      try destruct (mean >=? meanThreshold)%js; cbn;
      intuition (try discriminate; try congruence).
  - intros quadrant mean issueThreshold. unfold getPriority.
    destruct quadrant; cbn; reflexivity.
  - intros. split; reflexivity.
Qed.

(** *** Standard deviation *)

(** C5 (amended to finite values): on a list of finite values
    [calcStdDev] returns the population standard deviation (squared
    deviations summed and divided by [N]), a finite number that is [>= 0];
    on any list of numbers the result is [NaN] or [>= 0]; and it is [0] for
    the empty list and for every one-element list. *)
Theorem calcStdDev_population_stddev :
  (forall values : list R,
     calcStdDev (map Fin values) = Fin (Stats.population_stddev values) /\
     (0 <= Stats.population_stddev values)%R) /\
  (forall values : list number,
     calcStdDev values = NaN \/ (Fin 0 <=? calcStdDev values)%js = true) /\
  calcStdDev [] = Fin 0 /\
  (forall x : number, calcStdDev [x] = Fin 0).
Proof.
  repeat split.
  - apply calcStdDev_Fin.
  - apply population_stddev_nonneg.
  - intros values. unfold calcStdDev.
    destruct (length values <=? 1)%nat.
    + right. simpl. apply Rleb_true_iff. lra.
    + apply Math_sqrt_sign.
Qed.

(** C5, counterexample: with an infinite value among two the result is
    [NaN]. *)
Lemma calcStdDev_infinite_value : calcStdDev [PInf; Fin 1] = NaN.
Proof.
  unfold calcStdDev. cbn [length Nat.leb]. unfold calcMean. cbn. rcmp. reflexivity.
Qed.

(** *** Low and high ratios *)

Lemma Forall2_map_graph {A B : Type} (P : A -> B -> Prop) (f : A -> B) (l : list A) :
  (forall a, P a (f a)) -> Forall2 P l (map f l).
Proof.
  intros H. induction l; simpl; constructor; auto.
Qed.




(** Two predicates that exclude each other select disjoint parts. *)
Lemma filter_disjoint_length {A : Type} (p q : A -> bool) (l : list A) :
  (forall x, p x = true -> q x = false) ->
  (length (filter p l) + length (filter q l) <= length l)%nat.
Proof.
  intros H. induction l as [|x l IH]; simpl; [lia|].
  destruct (p x) eqn:Ep.
  - rewrite (H x Ep). simpl. lia.
  - destruct (q x); simpl; lia.
Qed.







(** *** Importance: the correlation on finite data *)

Import Stats Views.






















(** *** Department analysis *)

Lemma fold_left_push {A B : Type} (f : A -> B) (l : list A) (acc : list B) :
  fold_left (fun results x => results ++ [f x]) l acc = acc ++ map f l.
Proof.
  revert acc. induction l as [|x l IH]; intros acc; simpl.
  - now rewrite app_nil_r.
  - rewrite IH, <- app_assoc. reflexivity.
Qed.

Lemma fold_left_push_all {A B : Type} (f : A -> list B) (l : list A) (acc : list B) :
  fold_left (fun results x => results ++ f x) l acc = acc ++ flat_map f l.
Proof.
  revert acc. induction l as [|x l IH]; intros acc; simpl.
  - now rewrite app_nil_r.
  - rewrite IH, <- app_assoc. reflexivity.
Qed.

Lemma fold_left_pointwise {A B : Type} (f g : B -> A -> B) (l : list A) (acc : B) :
  (forall b a, f b a = g b a) -> fold_left f l acc = fold_left g l acc.
Proof.
  intros H. revert acc. induction l as [|x l IH]; intros acc; simpl; [reflexivity|].
  rewrite H. apply IH.
Qed.

Lemma runDepartmentAnalysis_flat_map localeCompare responses questions overallResults :
  runDepartmentAnalysis localeCompare responses questions overallResults
  = flat_map
      (fun dept =>
         map (departmentEntry (deptResponses responses dept) overallResults dept) questions)
      (departmentsOf localeCompare responses).
Proof.
  unfold runDepartmentAnalysis. fold (departmentsOf localeCompare responses).
  rewrite <- (app_nil_l (flat_map _ _)).
  rewrite <- fold_left_push_all.
  apply fold_left_pointwise. intros results dept. apply fold_left_push.
Qed.

(** Sorting and removing duplicates keep the members. *)
Lemma insert_perm {A : Type} (cmp : A -> A -> number) (x : A) (l : list A) :
  Permutation (Arr.insert cmp x l) (x :: l).
Proof.
  induction l as [|y l IH]; cbn [Arr.insert]; [reflexivity|].
  destruct (JS.gt (cmp x y) (Fin 0)); [|reflexivity].
  rewrite IH. apply perm_swap.
Qed.

Lemma sort_perm {A : Type} (cmp : A -> A -> number) (l : list A) :
  Permutation (Arr.sort cmp l) l.
Proof.
  induction l as [|x l IH]; simpl; [reflexivity|].
  rewrite insert_perm. now constructor.
Qed.

Lemma streq_true_iff (a b : jsstring) : streq a b = true <-> a = b.
Proof. unfold streq. destruct (jsstring_eq_dec a b); split; intros; easy. Qed.

Lemma streq_refl (a : jsstring) : streq a a = true.
Proof. now apply streq_true_iff. Qed.

Lemma dedup_In (x : jsstring) (l : list jsstring) : In x (Arr.dedup l) <-> In x l.
Proof.
  induction l as [|y l IH]; simpl; [tauto|].
  rewrite filter_In, IH.
  destruct (jsstring_eq_dec y x) as [E|E].
  - tauto.
  - split.
    + intros [H|[H _]]; auto.
    + intros [H|H]; [now left|]. right. split; [exact H|].
      destruct (streq y x) eqn:Es; [|reflexivity].
      apply streq_true_iff in Es. contradiction.
Qed.

Lemma dedup_NoDup (l : list jsstring) : NoDup (Arr.dedup l).
Proof.
  induction l as [|y l IH]; simpl; constructor.
  - rewrite filter_In. intros [_ H]. rewrite streq_refl in H. discriminate.
  - apply NoDup_filter. exact IH.
Qed.

Lemma truthy_string_iff (s : jsstring) : truthy_string s = true <-> s <> [].
Proof. destruct s; simpl; split; intros; easy. Qed.

Lemma departmentsOf_In localeCompare responses d :
  In d (departmentsOf localeCompare responses)
  <-> In d (map r_department responses) /\ d <> [].
Proof.
  unfold departmentsOf, sortDepartments.
  split.
  - intros H. apply (Permutation_in _ (sort_perm _ _)) in H.
    apply (proj1 (dedup_In _ _)) in H. apply (proj1 (filter_In _ _ _)) in H.
    destruct H as [H1 H2].
    split; [exact H1 | now apply truthy_string_iff].
  - intros [H1 H2]. apply (Permutation_in _ (Permutation_sym (sort_perm _ _))).
    apply (proj2 (dedup_In _ _)). apply (proj2 (filter_In _ _ _)).
    split; [exact H1 | now apply truthy_string_iff].
Qed.

Lemma departmentsOf_NoDup localeCompare responses :
  NoDup (departmentsOf localeCompare responses).
Proof.
  unfold departmentsOf, sortDepartments.
  apply (Permutation_NoDup (Permutation_sym (sort_perm _ _))). apply dedup_NoDup.
Qed.

(** C3 (amended): in [runDepartmentAnalysis] the empty department string
    is not a department value: the departments that appear in the output
    are exactly the non-empty department strings of the responses (given at
    least one question), so respondents without a department form no
    group. *)
Theorem empty_department_is_dropped localeCompare responses questions overallResults d :
  In d (map da_department
          (runDepartmentAnalysis localeCompare responses questions overallResults))
  <-> In d (map r_department responses) /\ d <> [] /\ questions <> [].
Proof.
  rewrite runDepartmentAnalysis_flat_map. rewrite in_map_iff. split.
  - intros [e [He Hin]]. apply in_flat_map in Hin. destruct Hin as [dept [Hd Hm]].
    apply in_map_iff in Hm. destruct Hm as [q [Hq Hqin]]. subst e. simpl in He. subst dept.
    apply (proj1 (departmentsOf_In _ _ _)) in Hd. destruct Hd as [H1 H2].
    repeat split; auto. intros ->. contradiction.
  - intros [H1 [H2 H3]]. destruct questions as [|q qs]; [easy|].
    exists (departmentEntry (deptResponses responses d) overallResults d q).
    split; [reflexivity|].
    apply in_flat_map. exists d. split; [apply departmentsOf_In; auto|]. now left.
Qed.

Lemma Forall2_map_both {A B C : Type} (P : B -> C -> Prop) (f : A -> B) (g : A -> C)
  (l : list A) :
  (forall a, In a l -> P (f a) (g a)) -> Forall2 P (map f l) (map g l).
Proof.
  induction l as [|a l IH]; intros H; simpl; constructor.
  - apply H. now left.
  - apply IH. intros b Hb. apply H. now right.
Qed.



Lemma find_map_analyse (f : Question -> AnalysisResult) (k : jsstring)
  (questions : list Question) :
  (forall q, ar_questionKey (f q) = q_key q) ->
  (exists q, In q questions /\ q_key q = k) ->
  exists q', In q' questions /\ q_key q' = k /\
    find (fun r => streq (ar_questionKey r) k) (map f questions) = Some (f q').
Proof.
  intros Hkey. induction questions as [|q qs IH]; intros [q0 [Hin Hk]]; [easy|].
  simpl. rewrite Hkey.
  destruct (streq (q_key q) k) eqn:E.
  - exists q. apply streq_true_iff in E. repeat split; auto using in_eq.
  - destruct Hin as [->|Hin].
    + rewrite Hk, streq_refl in E. discriminate.
    + destruct (IH (ex_intro _ q0 (conj Hin Hk))) as [q' [H1 [H2 H3]]].
      exists q'. repeat split; auto using in_cons.
Qed.

(** Against the results of [runAnalysis], the difference is taken to the
    overall mean as [runAnalysis] reports it, that is, rounded. *)
Lemma departmentEntry_diff (responses dr : list SurveyResponse) (questions : list Question)
  (settings : AppSettings) (d : jsstring) (q : Question) :
  responses <> [] -> In q questions ->
  da_diffFromOverall
    (departmentEntry dr (runAnalysis responses questions settings) d q)
  = round2 (calcMean (defined_numbers (map (fun r => answer r (q_key q)) dr))
            - round2 (calcMean
                        (defined_numbers (map (fun r => answer r (q_key q)) responses)))).
Proof.
  intros Hne Hq. unfold departmentEntry. cbn [da_diffFromOverall].
  rewrite (runAnalysis_nonempty _ _ _ Hne).
  destruct (find_map_analyse
              (analyseQuestion responses
                 (calcOverallScores responses (map q_key questions)) settings)
              (q_key q) questions) as [q' [H1 [H2 H3]]].
  - intros q0. reflexivity.
  - exists q. split; [exact Hq | reflexivity].
  - rewrite H3. unfold analyseQuestion. cbn [ar_mean]. rewrite H2. reflexivity.
Qed.


(** The rounding of the overall mean shows: department [A] has the mean
    [4/3] and the overall mean [8/3] is reported as [2.67], so the
    difference is [-1.34], where the unrounded means would give [-1.33]. *)
Example diff_against_rounded_overall_mean localeCompare :
  map da_diffFromOverall
    (runDepartmentAnalysis localeCompare Samples.rounded_overall [Samples.question "q1"]
       (runAnalysis Samples.rounded_overall [Samples.question "q1"]
          Samples.DEFAULT_SETTINGS))
  = [Fin (- (134 / 100))] /\
  round2 (calcMean (map Fin [1; 1; 2]%R) - calcMean (map Fin [1; 1; 2; 4; 4; 4]%R))
  = Fin (- (133 / 100)).
Proof.
  split.
  - rewrite runDepartmentAnalysis_flat_map.
    change (departmentsOf localeCompare Samples.rounded_overall) with [str "A"].
    cbn [flat_map map app].
    rewrite departmentEntry_diff by (try discriminate; now left).
    change (defined_numbers _) with (map Fin [1; 1; 2]%R) at 1.
    change (defined_numbers _) with (map Fin [1; 1; 2; 4; 4; 4]%R).
    rewrite !calcMean_Fin, round2_Fin, sub_Fin, round2_Fin.
    unfold Stats.round2dp at 2. unfold Stats.mean, Stats.sum. cbn [fold_right length].
    simpl INR.
    rewrite (Rfloor_unique _ 267) by lra.
    unfold Stats.round2dp.
    rewrite (Rfloor_unique _ (-134)) by lra.
    do 2 f_equal. lra.
  - rewrite !calcMean_Fin, sub_Fin, round2_Fin.
    unfold Stats.round2dp, Stats.mean, Stats.sum. cbn [fold_right length]. simpl INR.
    rewrite (Rfloor_unique _ (-133)) by lra.
    f_equal. lra.
Qed.

(** C3, counterexample: a respondent with the empty department and one of
    department [A]; whatever the collation, no entry of the output has the
    empty department. *)
Lemma empty_department_forms_no_group :
  ~ exists localeCompare,
      In [] (map da_department
               (runDepartmentAnalysis localeCompare Samples.with_empty_department
                  [Samples.question "q1"] [])).
Proof.
  intros [localeCompare H]. rewrite runDepartmentAnalysis_flat_map in H.
  apply in_map_iff in H. destruct H as [e [He Hin]].
  apply in_flat_map in Hin. destruct Hin as [dept [Hd Hm]].
  apply (proj1 (departmentsOf_In _ _ _)) in Hd. destruct Hd as [_ Hd].
  destruct Hm as [<-|[]]. simpl in He. congruence.
Qed.

(** *** Distribution *)

Lemma svz_of_Z (i j : Z) : same_value_zero (of_Z i) (of_Z j) = (i =? j)%Z.
Proof.
  simpl. destruct (Z.eqb_spec i j) as [->|E].
  - apply Reqb_refl.
  - apply Reqb_false_iff. intros H. apply eq_IZR in H. contradiction.
Qed.

Lemma Zrange_cons (a b : Z) : (a <= b)%Z -> Zrange a b = a :: Zrange (a + 1) b.
Proof.
  intros H. unfold Zrange.
  replace (Z.to_nat (b - a + 1)) with (S (Z.to_nat (b - (a + 1) + 1))) by lia.
  cbn [seq map]. f_equal; [lia|].
  rewrite <- seq_shift, map_map. apply map_ext. intros k. lia.
Qed.

Lemma Zrange_nil (a b : Z) : (b < a)%Z -> Zrange a b = [].
Proof.
  intros H. unfold Zrange. replace (Z.to_nat (b - a + 1)) with 0%nat by lia. reflexivity.
Qed.

Lemma Zrange_In (a b i : Z) : In i (Zrange a b) <-> (a <= i <= b)%Z.
Proof.
  unfold Zrange. rewrite in_map_iff. split.
  - intros [k [<- Hk]]. apply in_seq in Hk. lia.
  - intros H. exists (Z.to_nat (i - a)). split; [lia|]. apply in_seq. lia.
Qed.

Lemma Zrange_NoDup (a b : Z) : NoDup (Zrange a b).
Proof.
  unfold Zrange. apply Finite.Injective_map_NoDup; [|apply seq_NoDup].
  intros x y H. lia.
Qed.

Lemma Zrange_length (a b : Z) : length (Zrange a b) = Z.to_nat (b - a + 1).
Proof. unfold Zrange. now rewrite length_map, length_seq. Qed.

Lemma Map_set_fresh (k v : number) (m : NumMap) :
  (forall k' v', In (k', v') m -> same_value_zero k' k = false) ->
  Map_set k v m = m ++ [(k, v)].
Proof.
  induction m as [|[k' v'] m IH]; intros H; simpl; [reflexivity|].
  rewrite (H k' v') by now left.
  f_equal. apply IH. intros k'' v'' Hin. apply (H k'' v''). now right.
Qed.

Lemma initCounts_range (n : nat) :
  forall (fuel : nat) (i b : Z) (m : NumMap),
  n = Z.to_nat (b - i + 1) ->
  (n < fuel)%nat ->
  (forall k v, In (k, v) m -> exists j, (j < i)%Z /\ k = of_Z j) ->
  initCounts fuel (of_Z i) (of_Z b) m
  = Some (m ++ map (fun j => (of_Z j, Fin 0)) (Zrange i b)).
Proof.
  induction n as [|n IH]; intros fuel i b m Hn Hfuel Hm.
  - destruct fuel as [|fuel]; [lia|]. cbn [initCounts].
    assert (Hlt : (b < i)%Z) by lia.
    replace (of_Z i <=? of_Z b)%js with false.
    + rewrite (Zrange_nil _ _ Hlt). simpl. now rewrite app_nil_r.
    + symmetry. simpl. apply Rleb_false_iff. now apply IZR_lt.
  - destruct fuel as [|fuel]; [lia|]. cbn [initCounts].
    assert (Hle : (i <= b)%Z) by lia.
    replace (of_Z i <=? of_Z b)%js with true
      by (symmetry; simpl; apply Rleb_true_iff; now apply IZR_le).
    replace (of_Z i + Fin 1)%js with (of_Z (i + 1))
      by (unfold of_Z; simpl; now rewrite plus_IZR).
    rewrite Map_set_fresh.
    + rewrite IH; [| lia | lia |].
      * rewrite (Zrange_cons _ _ Hle). rewrite <- app_assoc. reflexivity.
      * intros k v Hin. apply in_app_iff in Hin. destruct Hin as [Hin|[Hin|[]]].
        -- destruct (Hm k v Hin) as [j [Hj ->]]. exists j. split; [lia|reflexivity].
        -- injection Hin as <- _. exists i. split; [lia|reflexivity].
    + intros k v Hin. destruct (Hm k v Hin) as [j [Hj ->]].
      rewrite svz_of_Z. apply Z.eqb_neq. lia.
Qed.

Lemma buckets_ext (keys : list Z) (f g : Z -> nat) :
  (forall i, In i keys -> f i = g i) -> buckets keys f = buckets keys g.
Proof.
  intros H. unfold buckets. apply map_ext_in. intros i Hi. now rewrite (H i Hi).
Qed.

Lemma Map_get_buckets_miss (keys : list Z) (cnt : Z -> nat) (v : number) :
  (forall i, In i keys -> same_value_zero (of_Z i) v = false) ->
  Map_get v (buckets keys cnt) = None.
Proof.
  induction keys as [|i keys IH]; intros H; [reflexivity|].
  cbn [buckets map Map_get fst snd].
  rewrite (H i) by now left. apply IH. intros j Hj. apply H. now right.
Qed.

Lemma Map_get_buckets_hit (keys : list Z) (cnt : Z -> nat) (i : Z) :
  In i keys -> Map_get (of_Z i) (buckets keys cnt) = Some (of_nat (cnt i)).
Proof.
  induction keys as [|j keys IH]; intros H; [easy|].
  cbn [buckets map Map_get fst snd]. rewrite svz_of_Z.
  destruct (Z.eqb_spec j i) as [->|E]; [reflexivity|].
  destruct H as [H|H]; [contradiction|]. apply IH. exact H.
Qed.

Lemma Map_set_buckets (keys : list Z) (cnt : Z -> nat) (i : Z) (c : nat) :
  NoDup keys -> In i keys ->
  Map_set (of_Z i) (of_nat c) (buckets keys cnt)
  = buckets keys (fun j => if (j =? i)%Z then c else cnt j).
Proof.
  induction keys as [|j keys IH]; intros Hnd H; [easy|].
  apply NoDup_cons_iff in Hnd. destruct Hnd as [Hj Hnd].
  cbn [buckets map Map_set]. rewrite svz_of_Z.
  destruct (Z.eqb_spec j i) as [->|E].
  - f_equal. apply map_ext_in. intros k Hk.
    destruct (Z.eqb_spec k i) as [->|E']; [contradiction|reflexivity].
  - f_equal. destruct H as [H|H]; [contradiction|]. apply IH; assumption.
Qed.

Lemma or_zero_of_nat (c : nat) : or_zero (Some (of_nat c)) = of_nat c.
Proof.
  unfold or_zero, of_nat, truthy_number.
  destruct (Reqb (INR c) 0) eqn:E; [|reflexivity].
  apply Reqb_true_iff in E. simpl. now rewrite E.
Qed.

(** A number is the image of at most one integer. *)
Lemma same_value_zero_of_Z (v : number) (i : Z) :
  same_value_zero (of_Z i) v = true -> v = of_Z i.
Proof.
  destruct v as [a| | |]; simpl; try easy.
  intros H. apply Reqb_true_iff in H. unfold of_Z. now rewrite H.
Qed.

Lemma countAnswer_buckets (key : jsstring) (keys : list Z) (cnt : Z -> nat)
  (r : SurveyResponse) :
  NoDup keys ->
  countAnswer key (buckets keys cnt) r
  = buckets keys (fun j => (cnt j + if answered key (of_Z j) r then 1 else 0)%nat).
Proof.
  intros Hnd. unfold countAnswer, answered.
  destruct (answer r key) as [v|].
  2:{ apply buckets_ext. intros i _. lia. }
  destruct (existsb (fun i => same_value_zero (of_Z i) v) keys) eqn:Ex.
  - apply existsb_exists in Ex. destruct Ex as [i [Hi Hv]].
    apply same_value_zero_of_Z in Hv. subst v.
    unfold Map_has. rewrite (Map_get_buckets_hit keys cnt i Hi).
    rewrite or_zero_of_nat.
    replace (of_nat (cnt i) + Fin 1)%js with (of_nat (S (cnt i)))
      by (unfold of_nat; rewrite S_INR; reflexivity).
    rewrite (Map_set_buckets keys cnt i (S (cnt i)) Hnd Hi).
    apply buckets_ext. intros j Hj. rewrite svz_of_Z.
    destruct (Z.eqb_spec j i) as [->|]; lia.
  - unfold Map_has. rewrite Map_get_buckets_miss.
    + apply buckets_ext. intros i Hi.
      assert (H : same_value_zero (of_Z i) v = false).
      { destruct (same_value_zero (of_Z i) v) eqn:E; [|reflexivity].
        assert (Hex : existsb (fun i => same_value_zero (of_Z i) v) keys = true)
          by (apply existsb_exists; exists i; auto).
        congruence. }
      rewrite H. lia.
    + intros i Hi. destruct (same_value_zero (of_Z i) v) eqn:E; [|reflexivity].
      assert (Hex : existsb (fun i => same_value_zero (of_Z i) v) keys = true)
        by (apply existsb_exists; exists i; auto).
      congruence.
Qed.

Lemma countAnswer_fold (key : jsstring) (keys : list Z) (responses : list SurveyResponse) :
  NoDup keys ->
  forall cnt,
  fold_left (countAnswer key) responses (buckets keys cnt)
  = buckets keys (fun j => (cnt j + count_answers responses key (of_Z j))%nat).
Proof.
  intros Hnd. induction responses as [|r responses IH]; intros cnt.
  - simpl. apply buckets_ext. intros i _. unfold count_answers. simpl. lia.
  - cbn [fold_left]. rewrite countAnswer_buckets by exact Hnd. rewrite IH.
    apply buckets_ext. intros i _. unfold count_answers. cbn [filter].
    destruct (answered key (of_Z i) r); simpl; lia.
Qed.

Lemma getDistribution_value (fuel : nat) (responses : list SurveyResponse)
  (questionKey : jsstring) (a b : Z) :
  (Z.to_nat (b - a + 1) < fuel)%nat ->
  getDistribution fuel responses questionKey (of_Z a) (of_Z b)
  = Some (map (fun i => {| value := of_Z i;
                           count := of_nat (count_answers responses questionKey (of_Z i)) |})
              (Zrange a b)).
Proof.
  intros Hfuel. unfold getDistribution.
  rewrite (initCounts_range (Z.to_nat (b - a + 1)) fuel a b [] eq_refl Hfuel)
    by (intros k v []).
  cbn [app].
  change (map (fun j => (of_Z j, Fin 0)) (Zrange a b)) with (buckets (Zrange a b) (fun _ => 0%nat)).
  rewrite (countAnswer_fold questionKey (Zrange a b) responses (Zrange_NoDup a b)).
  unfold buckets. rewrite map_map. reflexivity.
Qed.

(** Each response is counted in at most one bucket. *)
Lemma bucket_counts_sum (responses : list SurveyResponse) (key : jsstring) (keys : list Z) :
  NoDup keys ->
  list_sum (map (fun i => count_answers responses key (of_Z i)) keys)
  = length (filter (fun r => existsb (fun i => answered key (of_Z i) r) keys) responses).
Proof.
  intros Hnd. induction responses as [|r responses IH].
  - unfold count_answers. simpl. induction keys; simpl; auto.
    apply IHkeys. now apply NoDup_cons_iff in Hnd.
  - cbn [filter].
    assert (Hr : list_sum (map (fun i => count_answers (r :: responses) key (of_Z i)) keys)
                 = ((if existsb (fun i => answered key (of_Z i) r) keys then 1 else 0)
                    + list_sum (map (fun i => count_answers responses key (of_Z i)) keys))%nat).
    { clear IH. induction keys as [|i keys IHk]; [reflexivity|].
      apply NoDup_cons_iff in Hnd. destruct Hnd as [Hi Hnd].
      cbn [map existsb].
      change (list_sum (?x :: ?l)) with (x + list_sum l)%nat. rewrite (IHk Hnd).
      unfold count_answers at 1. cbn [filter].
      destruct (answered key (of_Z i) r) eqn:Ea.
      - assert (Hno : existsb (fun i0 => answered key (of_Z i0) r) keys = false).
        { destruct (existsb _ keys) eqn:Ex; [|reflexivity].
          apply existsb_exists in Ex. destruct Ex as [j [Hj Hja]].
          unfold answered in Ea, Hja. destruct (answer r key) as [v|]; [|discriminate].
          apply same_value_zero_of_Z in Ea, Hja. rewrite Ea in Hja.
          unfold of_Z in Hja. injection Hja as Hij. apply eq_IZR in Hij. subst j.
          contradiction. }
        rewrite Hno. cbn [orb length]. unfold count_answers. lia.
      - cbn [orb]. unfold count_answers. lia. }
    rewrite Hr, IH. destruct (existsb _ keys); simpl; lia.
Qed.

Lemma sum_of_counts (l : list nat) (a : nat) :
  fold_left (fun x y => x + y)%js (map of_nat l) (of_nat a) = of_nat (a + list_sum l).
Proof.
  revert a. induction l as [|c l IH]; intros a.
  - simpl. f_equal. lia.
  - cbn [map fold_left].
    replace (of_nat a + of_nat c)%js with (of_nat (a + c))
      by (unfold of_nat; rewrite plus_INR; reflexivity).
    rewrite IH. f_equal. simpl. lia.
Qed.

Lemma answered_in_scale_iff (key : jsstring) (a b : Z) (r : SurveyResponse) :
  answered_in_scale key a b r = true
  <-> exists i, (a <= i <= b)%Z /\ answer r key = Some (of_Z i).
Proof.
  unfold answered_in_scale. rewrite existsb_exists. split.
  - intros [i [Hi Ha]]. exists i. split; [now apply Zrange_In|].
    unfold answered in Ha. destruct (answer r key) as [v|]; [|discriminate].
    apply same_value_zero_of_Z in Ha. now subst v.
  - intros [i [Hi Ha]]. exists i. split; [now apply Zrange_In|].
    unfold answered. rewrite Ha. now rewrite svz_of_Z, Z.eqb_refl.
Qed.

(** C9: for integer scale bounds [a <= b] (and fuel for the [b - a + 1]
    iterations of the first loop), [getDistribution] returns [b - a + 1]
    buckets, one per integer of the scale in ascending order; the count of
    the bucket of [i] is the number of responses whose answer to the key is
    exactly [i]; and the counts sum to the number of responses whose answer
    is exactly an integer of the scale, so that a missing, out-of-range or
    non-integer answer is counted nowhere. *)
Theorem getDistribution_buckets (fuel : nat) (responses : list SurveyResponse)
  (questionKey : jsstring) (a b : Z) :
  (a <= b)%Z ->
  (Z.to_nat (b - a + 1) < fuel)%nat ->
  exists result,
    getDistribution fuel responses questionKey (of_Z a) (of_Z b) = Some result /\
    Z.of_nat (length result) = (b - a + 1)%Z /\
    map value result = map of_Z (Zrange a b) /\
    map count result
    = map (fun i => of_nat (count_answers responses questionKey (of_Z i))) (Zrange a b) /\
    fold_left (fun x y => x + y)%js (map count result) (Fin 0)
    = of_nat (length (filter (answered_in_scale questionKey a b) responses)) /\
    (forall r, answered_in_scale questionKey a b r = true
               <-> exists i, (a <= i <= b)%Z /\ answer r questionKey = Some (of_Z i)).
Proof.
  intros Hab Hfuel. eexists. split; [apply getDistribution_value; exact Hfuel|].
  rewrite length_map, Zrange_length, !map_map. cbn [value count].
  repeat split.
  - lia.
  - rewrite <- (map_map (fun i => count_answers responses questionKey (of_Z i)) of_nat).
    change (Fin 0) with (of_nat 0).
    rewrite sum_of_counts, (bucket_counts_sum _ _ _ (Zrange_NoDup a b)). reflexivity.
  - apply answered_in_scale_iff.
  - apply answered_in_scale_iff.
Qed.

(** *** The theorems at sample inputs *)




Lemma getDistribution_buckets_witness :
  (1 <= 5)%Z /\
  (Z.to_nat (5 - 1 + 1) < 10)%nat /\
  exists result,
    getDistribution 10 Samples.distribution_sample (str "q1") (of_Z 1) (of_Z 5)
    = Some result /\
    Z.of_nat (length result) = (5 - 1 + 1)%Z /\
    map value result = map of_Z (Zrange 1 5) /\
    map count result
    = map (fun i => of_nat (count_answers Samples.distribution_sample (str "q1") (of_Z i)))
          (Zrange 1 5) /\
    fold_left (fun x y => x + y)%js (map count result) (Fin 0)
    = of_nat (length (filter (answered_in_scale (str "q1") 1 5)
                             Samples.distribution_sample)) /\
    (forall r, answered_in_scale (str "q1") 1 5 r = true
               <-> exists i, (1 <= i <= 5)%Z /\ answer r (str "q1") = Some (of_Z i)).
Proof.
  split; [lia|]. split; [simpl; lia|].
  apply getDistribution_buckets; [lia | simpl; lia].
Defined.

(** The distribution of the specification's scenario: the answers
    [1, 1, 3, 5, 5, 5] on the scale [1..5] give the counts [2, 0, 1, 0, 3];
    the answers [2.5] and [7] and the missing answer are in no bucket. *)
Example distribution_scenario :
  getDistribution 10 Samples.distribution_sample (str "q1") (of_Z 1) (of_Z 5)
  = Some [ {| value := Fin 1; count := Fin 2 |};
           {| value := Fin 2; count := Fin 0 |};
           {| value := Fin 3; count := Fin 1 |};
           {| value := Fin 4; count := Fin 0 |};
           {| value := Fin 5; count := Fin 3 |} ].
Proof.
  rewrite getDistribution_value by (simpl; lia).
  change (Zrange 1 5) with [1; 2; 3; 4; 5]%Z. cbn [map].
  unfold count_answers, answered, Samples.distribution_sample, answer. cbn.
  rcmp. cbn. unfold of_Z, of_nat. repeat f_equal; simpl; lra.
Qed.

End AnalysisProps.

(** ** Properties of the table normaliser *)

Module ParserProps.
Import JS Types Analysis Parser JSFacts AnalysisProps FreqViews MatrixViews.

Lemma set_nth_length {A : Type} (i : nat) (x : A) (a : list A) :
  length (set_nth i x a) = length a.
Proof.
  revert i. induction a as [|y a IH]; intros [|i]; simpl; auto.
Qed.

Lemma set_nth_count {A : Type} (p : A -> bool) (i : nat) (x old : A) (a : list A) :
  nth_error a i = Some old ->
  (length (filter p (set_nth i x a)) + b2n (p old)
   = length (filter p a) + b2n (p x))%nat.
Proof.
  revert i. induction a as [|y a IH]; intros [|i] H; simpl in *; try discriminate.
  - injection H as ->. destruct (p x), (p old); simpl; lia.
  - specialize (IH i H). destruct (p y); simpl; lia.
Qed.

Lemma nth_error_set_nth {A : Type} (i j : nat) (x : A) (a : list A) :
  nth_error (set_nth i x a) j
  = if (i =? j)%nat then (match nth_error a j with Some _ => Some x | None => None end)
    else nth_error a j.
Proof.
  revert i j. induction a as [|y a IH]; intros i j.
  - destruct i, j; simpl; try reflexivity; destruct (i =? j)%nat; reflexivity.
  - destruct i as [|i], j as [|j]; simpl; auto.
Qed.

Lemma swap_length {A : Type} (i j : nat) (a : list A) : length (swap i j a) = length a.
Proof.
  unfold swap. destruct (nth_error a i), (nth_error a j); auto.
  now rewrite !set_nth_length.
Qed.

Lemma swap_count {A : Type} (p : A -> bool) (i j : nat) (a : list A) :
  length (filter p (swap i j a)) = length (filter p a).
Proof.
  unfold swap.
  destruct (nth_error a i) as [x|] eqn:Ei; [|reflexivity].
  destruct (nth_error a j) as [y|] eqn:Ej; [|reflexivity].
  pose proof (set_nth_count p i y x a Ei) as H1.
  assert (Hj : nth_error (set_nth i y a) j = Some y).
  { rewrite nth_error_set_nth, Ej. destruct (i =? j)%nat; reflexivity. }
  pose proof (set_nth_count p j x y (set_nth i y a) Hj) as H2.
  lia.
Qed.

Section Shuffle.
Variable random : nat -> R.

Lemma shuffle_length (i : nat) (arr : list (option number)) (k : nat) :
  length (fst (shuffle random i arr k)) = length arr.
Proof.
  revert arr k. induction i as [|i IH]; intros arr k; [reflexivity|].
  cbn [shuffle]. rewrite IH. apply swap_length.
Qed.

Lemma shuffle_count (p : option number -> bool) (i : nat) (arr : list (option number))
  (k : nat) :
  length (filter p (fst (shuffle random i arr k))) = length (filter p arr).
Proof.
  revert arr k. induction i as [|i IH]; intros arr k; [reflexivity|].
  cbn [shuffle]. rewrite IH. apply swap_count.
Qed.

(** With [Math.random() < 1] the index [j] drawn at a step is at most [i]. *)
Lemma random_index_range (u : R) (i : nat) :
  (0 <= u < 1)%R -> (Z.to_nat (Rfloor (u * (INR i + 1))) <= i)%nat.
Proof.
  intros [H0 H1].
  pose proof (pos_INR i) as Hi.
  pose proof (Rfloor_spec (u * (INR i + 1))) as [Hf _].
  assert (Hu : (u * (INR i + 1) < 1 * (INR i + 1))%R)
    by (apply Rmult_lt_compat_r; lra).
  assert (Hlt : (IZR (Rfloor (u * (INR i + 1))) < INR i + 1)%R).
  { apply Rle_lt_trans with (1 := Hf). rewrite Rmult_1_l in Hu. exact Hu. }
  assert (Hz : (Rfloor (u * (INR i + 1)) < Z.of_nat i + 1)%Z).
  { apply lt_IZR. rewrite plus_IZR, <- INR_IZR_INZ. exact Hlt. }
  clear Hf Hu Hlt. revert Hz. generalize (Rfloor (u * (INR i + 1))). intros z Hz. lia.
Qed.

End Shuffle.

Lemma pushScore_nat (n : nat) :
  forall (fuel i : nat) (score : number) (arr : list (option number)),
  (n - i < fuel)%nat ->
  pushScore fuel i (of_nat n) score arr = Some (arr ++ repeat (Some score) (n - i)).
Proof.
  intros fuel. revert n. induction fuel as [|fuel IH]; intros n i score arr H; [lia|].
  cbn [pushScore].
  destruct (Nat.lt_ge_cases i n) as [Hlt|Hge].
  - replace (of_nat i <? of_nat n)%js with true
      by (symmetry; simpl; apply Rltb_true_iff; now apply lt_INR).
    rewrite IH by lia.
    replace (n - i)%nat with (S (n - S i)) by lia.
    cbn [repeat]. rewrite <- app_assoc. reflexivity.
  - replace (of_nat i <? of_nat n)%js with false
      by (symmetry; simpl; apply Rltb_false_iff; now apply le_INR).
    replace (n - i)%nat with 0%nat by lia. simpl. now rewrite app_nil_r.
Qed.

Lemma padNull_nat (m : nat) :
  forall (fuel : nat) (arr : list (option number)),
  (m - length arr < fuel)%nat ->
  padNull fuel (of_nat m) arr = Some (arr ++ repeat None (m - length arr)).
Proof.
  intros fuel. induction fuel as [|fuel IH]; intros arr H; [lia|].
  cbn [padNull].
  destruct (Nat.lt_ge_cases (length arr) m) as [Hlt|Hge].
  - replace (of_nat (length arr) <? of_nat m)%js with true
      by (symmetry; simpl; apply Rltb_true_iff; now apply lt_INR).
    rewrite IH by (rewrite length_app; simpl; lia).
    rewrite length_app. cbn [length].
    replace (m - length arr)%nat with (S (m - (length arr + 1))) by lia.
    cbn [repeat]. rewrite <- app_assoc. reflexivity.
  - replace (of_nat (length arr) <? of_nat m)%js with false
      by (symmetry; simpl; apply Rltb_false_iff; now apply le_INR).
    replace (m - length arr)%nat with 0%nat by lia. simpl. now rewrite app_nil_r.
Qed.

Lemma svz_true_iff (x y : number) : same_value_zero x y = true <-> x = y.
Proof.
  destruct x as [a| | |], y as [b| | |]; simpl; split; intros H;
    try discriminate; try reflexivity.
  - apply Reqb_true_iff in H. now subst.
  - injection H as ->. apply Reqb_refl.
Qed.

Lemma svz_refl (x : number) : same_value_zero x x = true.
Proof. now apply svz_true_iff. Qed.

Lemma svz_false_iff (x y : number) : same_value_zero x y = false <-> x <> y.
Proof.
  split.
  - intros H E. apply svz_true_iff in E. congruence.
  - intros H. destruct (same_value_zero x y) eqn:E; [|reflexivity].
    apply svz_true_iff in E. contradiction.
Qed.

Lemma Map_set_keys {V : Type} (k : number) (v : V) (m : list (number * V)) :
  map fst (Map_set k v m) = if existsb (same_value_zero k) (map fst m)
                            then map fst m else map fst m ++ [k].
Proof.
  induction m as [|[k' v'] m IH]; [reflexivity|].
  cbn [Map_set map fst existsb].
  destruct (same_value_zero k' k) eqn:E.
  - apply svz_true_iff in E. subst k'. now rewrite svz_refl.
  - replace (same_value_zero k k') with false.
    + cbn [orb map fst]. rewrite IH. destruct (existsb _ _); reflexivity.
    + symmetry. apply svz_false_iff. apply svz_false_iff in E. congruence.
Qed.

Lemma Map_set_NoDup {V : Type} (k : number) (v : V) (m : list (number * V)) :
  NoDup (map fst m) -> NoDup (map fst (Map_set k v m)).
Proof.
  intros H. rewrite Map_set_keys.
  destruct (existsb (same_value_zero k) (map fst m)) eqn:E; [exact H|].
  apply NoDup_app; [exact H | repeat constructor; easy |].
  intros x Hx Hk. destruct Hk as [Hk|[]]. subst x.
  assert (Hex : existsb (same_value_zero k) (map fst m) = true).
  { apply existsb_exists. exists k. split; [exact Hx | apply svz_refl]. }
  congruence.
Qed.

Lemma Map_set_new {V : Type} (k : number) (v : V) (m : list (number * V)) :
  ~ In k (map fst m) -> Map_set k v m = m ++ [(k, v)].
Proof.
  induction m as [|[k' v'] m IH]; intros H; [reflexivity|].
  cbn [Map_set]. cbn [map fst In] in H.
  replace (same_value_zero k' k) with false.
  - cbn [app]. f_equal. apply IH. tauto.
  - symmetry. apply svz_false_iff. tauto.
Qed.

Section Counts.
Variable String_toNumber : jsstring -> number.

Lemma scoreHeaderMap_NoDup (headers : list jsstring) :
  NoDup (map fst (scoreHeaderMap String_toNumber headers)).
Proof.
  unfold scoreHeaderMap.
  assert (H : forall m : list (number * jsstring), NoDup (map fst m) ->
              NoDup (map fst (fold_left
                (fun m h =>
                   let num := String_toNumber h in
                   if isInteger num && (num >=? Fin 1)%js && (num <=? Fin 10)%js
                   then Map_set num h m else m) headers m))).
  { induction headers as [|h headers IH]; intros m Hm; [exact Hm|].
    cbn [fold_left]. apply IH. cbv zeta.
    destruct (isInteger _ && _ && _); [now apply Map_set_NoDup | exact Hm]. }
  apply H. constructor.
Qed.

Lemma rowCounts_value (scoreHeaders : list (number * jsstring)) (row : Row) :
  NoDup (map fst scoreHeaders) ->
  rowCounts String_toNumber scoreHeaders row
  = (map (fun e => (fst e, cellCount String_toNumber row (snd e))) scoreHeaders,
     fold_left (fun a b => a + b)%js (map (fun e => cellCount String_toNumber row (snd e)) scoreHeaders)
               (Fin 0)).
Proof.
  unfold rowCounts.
  assert (H : forall (sh : list (number * jsstring)) (m : NumMap) (t : number),
            NoDup (map fst m ++ map fst sh) ->
            fold_left
              (fun acc entry =>
                 let count := num_or (Number_of String_toNumber (Arr.lookup (snd entry) row))
                                     (Fin 0) in
                 (Map_set (fst entry) count (fst acc), (snd acc + count)%js))
              sh (m, t)
            = (m ++ map (fun e => (fst e, cellCount String_toNumber row (snd e))) sh,
               fold_left (fun a b => a + b)%js
                         (map (fun e => cellCount String_toNumber row (snd e)) sh) t)).
  { induction sh as [|[k h] sh IH]; intros m t Hnd.
    - simpl. now rewrite app_nil_r.
    - cbn [fold_left fst snd map]. cbv zeta. fold (cellCount String_toNumber row h).
      rewrite Map_set_new.
      + rewrite IH.
        * rewrite <- app_assoc. reflexivity.
        * rewrite map_app. cbn [map fst]. rewrite <- app_assoc. exact Hnd.
      + cbn [map fst] in Hnd. apply NoDup_remove_2 in Hnd.
        intros Hin. apply Hnd. apply in_or_app. now left. }
  intros Hnd. apply (H scoreHeaders [] (Fin 0)). exact Hnd.
Qed.

End Counts.

Lemma count_nat_of_nat (n : nat) : count_nat (of_nat n) = n.
Proof.
  unfold count_nat, of_nat. rewrite INR_IZR_INZ, Rfloor_IZR. apply Nat2Z.id.
Qed.

Section Detect.
Variable String_toNumber : jsstring -> number.
Variable Number_toString : number -> jsstring.

Lemma parseQuestion_fromRow (headers : list jsstring) textColumn numberColumn avgColumn
  (dataRows : list Row) :
  forall acc,
  Forall (fromRow String_toNumber headers) acc ->
  Forall (fromRow String_toNumber headers)
    (fold_left (parseQuestion String_toNumber Number_toString
                  (scoreHeaderMap String_toNumber headers) textColumn numberColumn avgColumn)
               dataRows acc).
Proof.
  induction dataRows as [|row dataRows IH]; intros acc Hacc; [exact Hacc|].
  cbn [fold_left]. apply IH. unfold parseQuestion.
  destruct (negb _ || _); [exact Hacc|].
  destruct (rowCounts String_toNumber (scoreHeaderMap String_toNumber headers) row)
    as [counts total] eqn:Erc.
  destruct (total === Fin 0)%js; [exact Hacc|].
  apply Forall_app. split; [exact Hacc|]. constructor; [|constructor].
  exists row. exact Erc.
Qed.

Lemma detectQuestions_fromRow (headers : list jsstring) (rows : list Row)
  (qs : list QuestionFreq) :
  detectQuestions String_toNumber Number_toString headers rows = Some qs ->
  qs <> [] /\ Forall (fromRow String_toNumber headers) qs.
Proof.
  unfold detectQuestions.
  destruct (length rows <? 3)%nat; [discriminate|].
  destruct (length (scoreHeaderMap String_toNumber headers) <? 3)%nat; [discriminate|].
  destruct (_ <? _)%js; [discriminate|].
  destruct (find _ headers) as [textColumn|]; [|discriminate].
  destruct (negb (truthy_string textColumn)); [discriminate|].
  cbv zeta.
  set (qs' := fold_left _ (tl rows) []).
  assert (HF : Forall (fromRow String_toNumber headers) qs')
    by (apply parseQuestion_fromRow; constructor).
  destruct qs' as [|q l']; [discriminate|].
  cbn [length Nat.eqb]. intros H. injection H as <-. split; [easy | exact HF].
Qed.

Lemma fromRow_counts (headers : list jsstring) (q : QuestionFreq) :
  fromRow String_toNumber headers q -> natCounts q ->
  NoDup (map fst (qf_counts q)) /\ qf_total q = of_nat (total_nat q).
Proof.
  intros [row Hrow] Hnat.
  rewrite rowCounts_value in Hrow by apply scoreHeaderMap_NoDup.
  injection Hrow as Hc Ht. split.
  - rewrite <- Hc, map_map. cbn [fst]. apply scoreHeaderMap_NoDup.
  - rewrite <- Ht. unfold total_nat.
    assert (Hm : map (fun e => cellCount String_toNumber row (snd e))
                     (scoreHeaderMap String_toNumber headers)
                 = map of_nat (map (fun e => count_nat (snd e)) (qf_counts q))).
    { unfold natCounts in Hnat. rewrite <- Hc in *. rewrite !map_map. cbn [snd].
      apply map_ext_in. intros e He.
      rewrite Forall_forall in Hnat.
      destruct (Hnat (fst e, cellCount String_toNumber row (snd e))) as [n Hn].
      - apply in_map_iff. exists e. split; [reflexivity | exact He].
      - cbn [snd] in Hn. rewrite Hn. now rewrite count_nat_of_nat. }
    rewrite Hm. change (Fin 0) with (of_nat 0). rewrite sum_of_counts. reflexivity.
Qed.

End Detect.

Lemma pushScores_nat (fuel : nat) (counts : NumMap) :
  Forall (fun e => exists n : nat, snd e = of_nat n) counts ->
  Forall (fun e => (count_nat (snd e) < fuel)%nat) counts ->
  forall arr,
  pushScores fuel counts arr
  = Some (arr ++ flat_map (fun e => repeat (Some (fst e)) (count_nat (snd e))) counts).
Proof.
  induction counts as [|[s c] counts IH]; intros Hnat Hfuel arr.
  - simpl. now rewrite app_nil_r.
  - apply Forall_cons_iff in Hnat. destruct Hnat as [[n Hn] Hnat].
    apply Forall_cons_iff in Hfuel. destruct Hfuel as [Hf Hfuel].
    cbn [snd fst] in *. subst c. rewrite count_nat_of_nat in Hf.
    cbn [pushScores]. rewrite pushScore_nat by lia.
    rewrite IH by assumption. cbn [flat_map fst snd].
    rewrite count_nat_of_nat, Nat.sub_0_r, <- app_assoc. reflexivity.
Qed.

Lemma rawScores_length (q : QuestionFreq) : length (rawScores q) = total_nat q.
Proof.
  unfold rawScores, total_nat. induction (qf_counts q) as [|e counts IH]; [reflexivity|].
  cbn [flat_map map]. rewrite length_app, repeat_length, IH. reflexivity.
Qed.

Lemma filter_repeat {A : Type} (p : A -> bool) (x : A) (n : nat) :
  filter p (repeat x n) = if p x then repeat x n else [].
Proof.
  induction n as [|n IH]; simpl; [now destruct (p x)|].
  rewrite IH. destruct (p x); reflexivity.
Qed.

Lemma rawScores_other (s : number) (counts : NumMap) :
  ~ In s (map fst counts) ->
  filter (is_score s)
    (flat_map (fun e => repeat (Some (fst e)) (count_nat (snd e))) counts) = [].
Proof.
  induction counts as [|[k c] counts IH]; intros H; [reflexivity|].
  cbn [flat_map fst snd]. rewrite filter_app, filter_repeat. cbn [is_score].
  cbn [map fst In] in H.
  replace (same_value_zero k s) with false by (symmetry; apply svz_false_iff; tauto).
  rewrite IH by tauto. reflexivity.
Qed.

Lemma rawScores_count (q : QuestionFreq) (s c : number) :
  NoDup (map fst (qf_counts q)) ->
  In (s, c) (qf_counts q) ->
  length (filter (is_score s) (rawScores q)) = count_nat c.
Proof.
  unfold rawScores. induction (qf_counts q) as [|[k c'] counts IH]; intros Hnd Hin; [easy|].
  cbn [map fst] in Hnd. apply NoDup_cons_iff in Hnd. destruct Hnd as [Hk Hnd].
  cbn [flat_map fst snd]. rewrite filter_app, filter_repeat, length_app. cbn [is_score].
  destruct Hin as [Hin|Hin].
  - injection Hin as -> ->. rewrite svz_refl, repeat_length.
    rewrite rawScores_other by exact Hk. simpl. lia.
  - assert (Hks : k <> s).
    { intros ->. apply Hk. apply in_map_iff. exists (s, c). auto. }
    replace (same_value_zero k s) with false by (symmetry; now apply svz_false_iff).
    rewrite IH by assumption. reflexivity.
Qed.

Lemma rawScores_no_null (q : QuestionFreq) : filter is_null (rawScores q) = [].
Proof.
  unfold rawScores. induction (qf_counts q) as [|e counts IH]; [reflexivity|].
  cbn [flat_map]. rewrite filter_app, filter_repeat, IH. reflexivity.
Qed.

Lemma count_le_total (q : QuestionFreq) (e : number * number) :
  In e (qf_counts q) -> (count_nat (snd e) <= total_nat q)%nat.
Proof.
  unfold total_nat. induction (qf_counts q) as [|e' counts IH]; intros H; [easy|].
  cbn [map]. change (list_sum (?x :: ?l)) with (x + list_sum l)%nat.
  destruct H as [->|H]; [lia|]. specialize (IH H). lia.
Qed.

Lemma total_le_max (qs : list QuestionFreq) (q : QuestionFreq) :
  In q qs -> (total_nat q <= max_total qs)%nat.
Proof.
  unfold max_total. induction qs as [|q' qs IH]; intros H; [easy|].
  cbn [map fold_right]. destruct H as [->|H]; [lia|]. specialize (IH H). lia.
Qed.

Lemma max2_of_nat (a b : nat) : max2 (of_nat a) (of_nat b) = of_nat (Nat.max a b).
Proof.
  unfold max2, of_nat. cbn [lt].
  destruct (Nat.lt_ge_cases a b) as [H|H].
  - rewrite (proj2 (Rltb_true_iff _ _)) by now apply lt_INR.
    now rewrite Nat.max_r by lia.
  - rewrite (proj2 (Rltb_false_iff _ _)) by now apply le_INR.
    now rewrite Nat.max_l by lia.
Qed.

Lemma Math_max_of_nat (l : list nat) :
  l <> [] -> Math_max (map of_nat l) = of_nat (fold_right Nat.max 0%nat l).
Proof.
  destruct l as [|a l]; [easy|]. intros _. unfold Math_max. cbn [map fold_left].
  replace (max2 NInf (of_nat a)) with (of_nat a) by reflexivity.
  cbn [fold_right]. revert a. induction l as [|b l IH]; intros a.
  - cbn. now rewrite Nat.max_0_r.
  - cbn [map fold_left fold_right]. rewrite max2_of_nat, IH. f_equal. lia.
Qed.

Lemma lookup_assign_same {V : Type} (k : jsstring) (v : V) (o : list (jsstring * V)) :
  Arr.lookup k (Arr.assign k v o) = Some v.
Proof.
  induction o as [|[k' v'] o IH]; cbn [Arr.assign Arr.lookup].
  - now rewrite streq_refl.
  - destruct (streq k' k) eqn:E; cbn [Arr.lookup]; rewrite E; [reflexivity | exact IH].
Qed.

Lemma lookup_assign_other {V : Type} (k k' : jsstring) (v : V) (o : list (jsstring * V)) :
  k <> k' -> Arr.lookup k (Arr.assign k' v o) = Arr.lookup k o.
Proof.
  intros Hne. induction o as [|[k'' v''] o IH]; cbn [Arr.assign Arr.lookup].
  - destruct (streq k' k) eqn:E; [|reflexivity].
    apply streq_true_iff in E. congruence.
  - destruct (streq k'' k') eqn:E; cbn [Arr.lookup].
    + apply streq_true_iff in E. subst k''.
      destruct (streq k' k) eqn:E'; [|reflexivity].
      apply streq_true_iff in E'. congruence.
    + destruct (streq k'' k); [reflexivity | exact IH].
Qed.

Lemma rowStep_fold_other (i : nat) (key : jsstring)
  (entries : list (jsstring * list (option number))) :
  ~ In key (map fst entries) ->
  forall row, Arr.lookup key (fold_left (rowStep i) entries row) = Arr.lookup key row.
Proof.
  induction entries as [|[k arr] entries IH]; intros Hk row; [reflexivity|].
  cbn [fold_left]. cbn [map fst In] in Hk. rewrite IH by tauto.
  unfold rowStep. cbn [fst snd].
  destruct (nth_error arr i) as [[s|]|]; try reflexivity.
  apply lookup_assign_other. intros ->. tauto.
Qed.

Lemma rowStep_fold_lookup (i : nat) (key : jsstring) (arr : list (option number))
  (entries : list (jsstring * list (option number))) :
  NoDup (map fst entries) ->
  In (key, arr) entries ->
  forall row,
  Arr.lookup key (fold_left (rowStep i) entries row)
  = match nth_error arr i with
    | Some (Some s) => Some (CNum s)
    | _ => Arr.lookup key row
    end.
Proof.
  induction entries as [|[k a] entries IH]; intros Hnd Hin row; [easy|].
  cbn [map fst] in Hnd. apply NoDup_cons_iff in Hnd. destruct Hnd as [Hk Hnd].
  cbn [fold_left]. destruct Hin as [Hin|Hin].
  - injection Hin as -> ->. rewrite rowStep_fold_other by exact Hk.
    unfold rowStep. cbn [fst snd].
    destruct (nth_error arr i) as [[s|]|]; try reflexivity.
    apply lookup_assign_same.
  - rewrite IH by assumption.
    destruct (nth_error arr i) as [[s|]|]; try reflexivity;
      unfold rowStep; cbn [fst snd];
      destruct (nth_error a i) as [[s'|]|]; try reflexivity;
      apply lookup_assign_other; intros ->; apply Hk;
      apply in_map_iff; exists (k, arr); auto.
Qed.

Lemma map_fst_combine' {A B : Type} (l : list A) (l' : list B) :
  length l = length l' -> map fst (combine l l') = l.
Proof.
  revert l'. induction l as [|x l IH]; intros [|y l'] H; simpl in *; try easy.
  f_equal. apply IH. lia.
Qed.

Lemma pseudoRow_lookup (respondentId key : jsstring) (arr : list (option number))
  (keys : list jsstring) (arrays : list (list (option number))) (i : nat) :
  NoDup keys -> length keys = length arrays ->
  key <> RESPONDENT_ID ->
  In (key, arr) (combine keys arrays) ->
  Arr.lookup key (pseudoRow respondentId keys arrays i)
  = match nth_error arr i with
    | Some (Some s) => Some (CNum s)
    | _ => None
    end.
Proof.
  intros Hnd Hlen Hne Hin. unfold pseudoRow.
  change (fun row entry =>
            match nth_error (snd entry) i with
            | Some (Some score) => Arr.assign (fst entry) (CNum score) row
            | _ => row
            end) with (rowStep i).
  rewrite (rowStep_fold_lookup i key arr).
  - cbn [Arr.lookup].
    replace (streq RESPONDENT_ID key) with false; [reflexivity|].
    symmetry. destruct (streq RESPONDENT_ID key) eqn:E; [|reflexivity].
    apply streq_true_iff in E. congruence.
  - rewrite map_fst_combine'; [exact Hnd | exact Hlen].
  - exact Hin.
Qed.

Lemma filter_seq_nth_error {A : Type} (f : option A -> bool) (l : list A) :
  length (filter (fun i => f (nth_error l i)) (seq 0 (length l)))
  = length (filter (fun x => f (Some x)) l).
Proof.
  induction l as [|x l IH] using rev_ind; [reflexivity|].
  rewrite length_app. cbn [length]. rewrite Nat.add_1_r, seq_S, !filter_app, !length_app.
  cbn [Nat.add filter].
  rewrite nth_error_app2 by lia. rewrite Nat.sub_diag. cbn [nth_error].
  rewrite <- IH.
  assert (Hl : filter (fun i => f (nth_error (l ++ [x]) i)) (seq 0 (length l))
               = filter (fun i => f (nth_error l i)) (seq 0 (length l))).
  { apply filter_ext_in. intros i Hi. apply in_seq in Hi.
    rewrite nth_error_app1 by lia. reflexivity. }
  rewrite Hl. destruct (f (Some x)); reflexivity.
Qed.

Section Arrays.
Variable String_toNumber : jsstring -> number.
Variable Number_toString : number -> jsstring.
Variable random : nat -> R.

Lemma scoreArray_value (fuel m : nat) (q : QuestionFreq) (k : nat) :
  natCounts q -> NoDup (map fst (qf_counts q)) ->
  (total_nat q <= m)%nat -> (m < fuel)%nat ->
  exists arr k', scoreArray random fuel (of_nat m) q k = Some (arr, k') /\ arrayFor m q arr.
Proof.
  intros Hnat Hnd Hle Hfuel. unfold scoreArray.
  rewrite pushScores_nat.
  - cbn [app]. fold (rawScores q).
    rewrite padNull_nat by (rewrite rawScores_length; lia).
    rewrite rawScores_length.
    set (arr := rawScores q ++ repeat None (m - total_nat q)).
    destruct (shuffle random (length arr - 1) arr k) as [arr' k'] eqn:Es.
    exists arr', k'. split; [reflexivity|].
    assert (Harr : arr' = fst (shuffle random (length arr - 1) arr k)) by now rewrite Es.
    subst arr'. unfold arrayFor. rewrite shuffle_length. repeat split.
    + subst arr. rewrite length_app, rawScores_length, repeat_length. lia.
    + intros s c Hin. rewrite shuffle_count. subst arr.
      rewrite filter_app, filter_repeat. cbn [is_score]. rewrite app_nil_r.
      now apply rawScores_count.
    + rewrite shuffle_count. subst arr.
      rewrite filter_app, filter_repeat, rawScores_no_null. cbn [is_null app].
      apply repeat_length.
  - exact Hnat.
  - apply Forall_forall. intros e He. pose proof (count_le_total q e He). lia.
Qed.

Lemma scoreArrays_value (fuel m : nat) (qs : list QuestionFreq) :
  Forall natCounts qs ->
  Forall (fun q => NoDup (map fst (qf_counts q))) qs ->
  Forall (fun q => (total_nat q <= m)%nat) qs ->
  (m < fuel)%nat ->
  forall k, exists arrays,
    scoreArrays random fuel (of_nat m) qs k = Some arrays /\
    Forall2 (arrayFor m) qs arrays.
Proof.
  intros Hnat Hnd Hle Hfuel.
  induction qs as [|q qs IH]; intros k.
  - exists []. split; [reflexivity | constructor].
  - apply Forall_cons_iff in Hnat, Hnd, Hle.
    destruct Hnat as [Hn Hnat], Hnd as [Hd Hnd], Hle as [Hl Hle].
    destruct (scoreArray_value fuel m q k Hn Hd Hl Hfuel) as [arr [k' [Hs Ha]]].
    destruct (IH Hnat Hnd Hle k') as [arrays [Hs' Ha']].
    exists (arr :: arrays). cbn [scoreArrays]. rewrite Hs, Hs'.
    split; [reflexivity | now constructor].
Qed.

Lemma pseudoRows_value (m : nat) (keys : list jsstring)
  (arrays : list (list (option number))) :
  forall (fuel i : nat) (rows : list Row),
  (m - i < fuel)%nat ->
  pseudoRows Number_toString fuel i (of_nat m) keys arrays rows
  = Some (rows ++ map (fun i => pseudoRow (padStart3 (Number_toString (of_nat (i + 1))))
                                          keys arrays i)
                      (seq i (m - i))).
Proof.
  intros fuel. induction fuel as [|fuel IH]; intros i rows H; [lia|].
  cbn [pseudoRows].
  destruct (Nat.lt_ge_cases i m) as [Hlt|Hge].
  - replace (of_nat i <? of_nat m)%js with true
      by (symmetry; simpl; apply Rltb_true_iff; now apply lt_INR).
    rewrite IH by lia.
    replace (m - i)%nat with (S (m - S i)) by lia.
    cbn [seq map]. rewrite <- app_assoc. reflexivity.
  - replace (of_nat i <? of_nat m)%js with false
      by (symmetry; simpl; apply Rltb_false_iff; now apply le_INR).
    replace (m - i)%nat with 0%nat by lia. simpl. now rewrite app_nil_r.
Qed.

(** Counting in the rows is counting in the array of the question. *)
Lemma rows_count (f : option cell -> bool) (g : option number -> bool)
  (key : jsstring) (arr : list (option number)) (keys : list jsstring)
  (arrays : list (list (option number))) :
  NoDup keys -> length keys = length arrays -> key <> RESPONDENT_ID ->
  In (key, arr) (combine keys arrays) ->
  (forall s, f (Some (CNum s)) = g (Some s)) ->
  f None = g None ->
  length (filter (fun r => f (Arr.lookup key r))
            (map (fun i => pseudoRow (padStart3 (Number_toString (of_nat (i + 1))))
                                     keys arrays i)
                 (seq 0 (length arr))))
  = length (filter g arr).
Proof.
  intros Hnd Hlen Hne Hin Hf Hnone.
  transitivity
    (length (filter (fun i => match nth_error arr i with
                              | Some x => g x
                              | None => false
                              end) (seq 0 (length arr)))).
  - rewrite filter_map_swap, length_map. f_equal.
    apply filter_ext_in. intros i Hi. apply in_seq in Hi.
    rewrite (pseudoRow_lookup _ key arr keys arrays i Hnd Hlen Hne Hin).
    destruct (nth_error arr i) as [[s|]|] eqn:E; auto.
    apply nth_error_None in E. lia.
  - rewrite (filter_seq_nth_error
               (fun o => match o with Some x => g x | None => false end) arr).
    reflexivity.
Qed.

End Arrays.

Lemma Forall2_combine_In {A B : Type} (P : A -> B -> Prop) (l : list A) (l' : list B) (a : A) :
  Forall2 P l l' -> In a l -> exists b, In (a, b) (combine l l') /\ P a b.
Proof.
  induction 1 as [|x y l l' Hxy HF IH]; intros Hin; [easy|].
  destruct Hin as [->|Hin].
  - exists y. split; [now left | exact Hxy].
  - destruct (IH Hin) as [b [Hb HP]]. exists b. split; [now right | exact HP].
Qed.

Lemma combine_map_l_In {A B C : Type} (f : A -> C) (l : list A) (l' : list B) (a : A) (b : B) :
  In (a, b) (combine l l') -> In (f a, b) (combine (map f l) l').
Proof.
  revert l'. induction l as [|x l IH]; intros [|y l'] H; simpl in *; try easy.
  destruct H as [H|H]; [injection H as -> ->; now left | right; now apply IH].
Qed.

Section Main.
Variable String_toNumber : jsstring -> number.
Variable Number_toString : number -> jsstring.
Variable random : nat -> R.

Lemma questionKey_not_id (q : QuestionFreq) : questionKey Number_toString q <> RESPONDENT_ID.
Proof. unfold questionKey, RESPONDENT_ID. cbn. discriminate. Qed.

(** C6 (amended): for a table that is read as a frequency table, whose
    count cells are non-negative integers and whose generated question keys
    are pairwise distinct, and for every random source, the conversion
    returns (given fuel for the largest total) pseudo rows in which every
    score occurs under a question's key exactly as often as the question's
    count cell states; the number of rows is the largest total of a
    question; and under the key of a question with a smaller total the
    remaining rows have no entry at all. *)
Theorem frequency_table_counts (fuel : nat) (headers : list jsstring) (rows : list Row)
  (qs : list QuestionFreq) :
  detectQuestions String_toNumber Number_toString headers rows = Some qs ->
  Forall natCounts qs ->
  NoDup (map (questionKey Number_toString) qs) ->
  (max_total qs < fuel)%nat ->
  exists data,
    tryConvertFrequencyTable String_toNumber Number_toString random fuel headers rows
    = Some (Some data) /\
    of_nat (length (pd_rows data)) = Math_max (map qf_total qs) /\
    Forall
      (fun q =>
         (forall score count,
            In (score, count) (qf_counts q) ->
            of_nat (occurrences (pd_rows data) (questionKey Number_toString q) score)
            = count) /\
         (of_nat (absences (pd_rows data) (questionKey Number_toString q)) + qf_total q)%js
         = Math_max (map qf_total qs))
      qs.
Proof.
  intros Hdet Hnat Hkeys Hfuel.
  destruct (detectQuestions_fromRow _ _ _ _ _ Hdet) as [Hne Hrows].
  assert (Hq : Forall (fun q => NoDup (map fst (qf_counts q))
                                /\ qf_total q = of_nat (total_nat q)) qs).
  { rewrite Forall_forall in *. intros q Hin.
    apply (fromRow_counts String_toNumber headers q); auto. }
  assert (Hmax : Math_max (map qf_total qs) = of_nat (max_total qs)).
  { unfold max_total. rewrite <- Math_max_of_nat.
    - f_equal. rewrite map_map. apply map_ext_in. intros q Hin.
      rewrite Forall_forall in Hq. now destruct (Hq q Hin).
    - destruct qs; [easy|]. discriminate. }
  destruct (scoreArrays_value random fuel (max_total qs) qs) with (k := 0%nat)
    as [arrays [Harr HF2]]; auto.
  { rewrite Forall_forall in *. intros q Hin. now destruct (Hq q Hin). }
  { rewrite Forall_forall. intros q Hin. now apply total_le_max. }
  unfold tryConvertFrequencyTable. rewrite Hdet, Hmax, Harr.
  rewrite pseudoRows_value by lia. cbn [app]. rewrite Nat.sub_0_r.
  eexists. split; [reflexivity|]. cbn [pd_rows].
  split; [now rewrite length_map, length_seq|].
  rewrite Forall_forall. intros q Hin.
  destruct (Forall2_combine_In _ _ _ q HF2 Hin) as [arr [Hc [Hlen [Hcount Hnull]]]].
  pose proof (combine_map_l_In (questionKey Number_toString) _ _ _ _ Hc) as Hc'.
  assert (Hlens : length (map (questionKey Number_toString) qs) = length arrays).
  { rewrite length_map. now apply Forall2_length in HF2. }
  rewrite <- Hlen. split.
  - intros score count Hsc. unfold occurrences.
    rewrite (rows_count Number_toString
               (fun o => match o with Some (CNum v) => same_value_zero v score | _ => false end)
               (is_score score) _ arr _ _ Hkeys Hlens (questionKey_not_id q) Hc');
      [| reflexivity | reflexivity].
    rewrite (Hcount score count Hsc).
    rewrite Forall_forall in Hnat. pose proof (Hnat q Hin) as Hn.
    unfold natCounts in Hn. rewrite Forall_forall in Hn.
    destruct (Hn (score, count) Hsc) as [n Hn']. cbn [snd] in Hn'. subst count.
    now rewrite count_nat_of_nat.
  - unfold absences.
    rewrite (rows_count Number_toString
               (fun o => match o with None => true | Some _ => false end)
               is_null _ arr _ _ Hkeys Hlens (questionKey_not_id q) Hc');
      [| reflexivity | reflexivity].
    rewrite Hnull, Hlen. rewrite Forall_forall in Hq. destruct (Hq q Hin) as [_ Ht].
    rewrite Ht. pose proof (total_le_max qs q Hin) as Hle.
    unfold of_nat. cbn [add]. rewrite <- plus_INR. f_equal. f_equal. lia.
Qed.

End Main.

(** *** The conversion at sample tables *)

(** Evaluate comparisons and conversions on numerals. *)
Ltac js_eval :=
  repeat (progress (cbn -[Rfloor INR]; simpl INR;
                    unfold num_or, truthy_number, ge, gt, Math_max, max2, scoreArray,
                      of_nat;
                    rcmp)).

Lemma isInteger_of_Z (z : Z) : isInteger (of_Z z) = true.
Proof. unfold isInteger, of_Z. rewrite Rfloor_IZR. apply Reqb_refl. Qed.

Lemma scoreHeaders_sample :
  scoreHeaderMap Samples.digit_toNumber Samples.freq_headers
  = [(Fin 3, str "3"); (Fin 2, str "2"); (Fin 1, str "1")].
Proof.
  unfold scoreHeaderMap, Samples.freq_headers. cbn [fold_left].
  cbv zeta.
  change (Samples.digit_toNumber (str "Question")) with NaN.
  change (Samples.digit_toNumber (str "3")) with (of_Z 3).
  change (Samples.digit_toNumber (str "2")) with (of_Z 2).
  change (Samples.digit_toNumber (str "1")) with (of_Z 1).
  rewrite !isInteger_of_Z. unfold of_Z, ge. do 4 (cbn; rcmp). reflexivity.
Qed.

Lemma detect_sample :
  detectQuestions Samples.digit_toNumber Samples.digit_toString
    Samples.freq_headers Samples.freq_table
  = Some Samples.freq_questions.
Proof.
  unfold detectQuestions. rewrite scoreHeaders_sample.
  js_eval. unfold Samples.freq_questions.
  repeat f_equal; lra.
Qed.

Lemma natCounts_sample : Forall natCounts Samples.freq_questions.
Proof.
  unfold natCounts, Samples.freq_questions. cbn [qf_counts].
  repeat constructor; cbn [snd];
    first [ exists 0%nat; unfold of_nat; simpl; f_equal; lra
          | exists 1%nat; unfold of_nat; simpl; f_equal; lra
          | exists 2%nat; unfold of_nat; simpl; f_equal; lra ].
Qed.

Lemma keys_sample :
  NoDup (map (questionKey Samples.digit_toString) Samples.freq_questions).
Proof.
  cbn [map Samples.freq_questions]. constructor; [|constructor; [easy|constructor]].
  intros [H|[]]. apply (f_equal (@rev N)) in H.
  unfold questionKey in H. cbn [qf_text qf_number] in H.
  rewrite !rev_app_distr in H. cbn in H. discriminate.
Qed.

Lemma count_nat_IZR (z : Z) : count_nat (Fin (IZR z)) = Z.to_nat z.
Proof. unfold count_nat. now rewrite Rfloor_IZR. Qed.

Lemma max_total_sample : max_total Samples.freq_questions = 3%nat.
Proof.
  unfold max_total, total_nat, Samples.freq_questions. cbn [map qf_counts snd].
  rewrite !count_nat_IZR. reflexivity.
Qed.

Lemma frequency_table_counts_witness :
  detectQuestions Samples.digit_toNumber Samples.digit_toString
    Samples.freq_headers Samples.freq_table = Some Samples.freq_questions /\
  Forall natCounts Samples.freq_questions /\
  NoDup (map (questionKey Samples.digit_toString) Samples.freq_questions) /\
  (max_total Samples.freq_questions < 10)%nat /\
  exists data,
    tryConvertFrequencyTable Samples.digit_toNumber Samples.digit_toString
      Samples.zero_random 10 Samples.freq_headers Samples.freq_table
    = Some (Some data) /\
    of_nat (length (pd_rows data)) = Math_max (map qf_total Samples.freq_questions) /\
    Forall
      (fun q =>
         (forall score count,
            In (score, count) (qf_counts q) ->
            of_nat (occurrences (pd_rows data) (questionKey Samples.digit_toString q) score)
            = count) /\
         (of_nat (absences (pd_rows data) (questionKey Samples.digit_toString q))
          + qf_total q)%js
         = Math_max (map qf_total Samples.freq_questions))
      Samples.freq_questions.
Proof.
  split; [exact detect_sample|]. split; [exact natCounts_sample|].
  split; [exact keys_sample|]. split; [rewrite max_total_sample; lia|].
  apply frequency_table_counts.
  - exact detect_sample.
  - exact natCounts_sample.
  - exact keys_sample.
  - rewrite max_total_sample. lia.
Defined.


Lemma detect_fractional :
  detectQuestions Samples.digit_toNumber Samples.digit_toString
    Samples.freq_headers Samples.freq_fractional
  = Some [ {| qf_number := Fin 1;
              qf_text := str "Work is rewarding";
              qf_counts := [(Fin 3, Fin (5 / 10)); (Fin 2, Fin 0); (Fin 1, Fin 0)];
              qf_total := Fin (5 / 10);
              qf_weightedAvg := None |} ].
Proof.
  unfold detectQuestions. rewrite scoreHeaders_sample.
  js_eval. unfold of_nat. simpl INR.
  replace (0 + 5 / 10 + 0 + 0)%R with (5 / 10)%R by lra. reflexivity.
Qed.

(** C6, counterexample: the only question of the table has the cell [0.5]
    under the score [3] (total [0.5]); the conversion yields one pseudo row,
    in which the score [3] occurs once. *)
Lemma frequency_table_fractional_count :
  detectQuestions Samples.digit_toNumber Samples.digit_toString
    Samples.freq_headers Samples.freq_fractional
  = Some [ {| qf_number := Fin 1;
              qf_text := str "Work is rewarding";
              qf_counts := [(Fin 3, Fin (5 / 10)); (Fin 2, Fin 0); (Fin 1, Fin 0)];
              qf_total := Fin (5 / 10);
              qf_weightedAvg := None |} ] /\
  exists data,
    tryConvertFrequencyTable Samples.digit_toNumber Samples.digit_toString
      Samples.zero_random 5 Samples.freq_headers Samples.freq_fractional
    = Some (Some data) /\
    map (Arr.lookup (str "Q1_Work is rewarding")) (pd_rows data) = [Some (CNum (Fin 3))].
Proof.
  split; [exact detect_fractional|].
  unfold tryConvertFrequencyTable. rewrite detect_fractional.
  unfold questionKey, Samples.digit_toString. cbn [map qf_number qf_text qf_total].
  rewrite Rfloor_IZR.
  js_eval. eexists. split; [reflexivity|]. cbn. reflexivity.
Qed.

(** *** The department-score matrix *)

Section Matrix.
Variable String_toNumber : jsstring -> number.
Variable Number_toString : number -> jsstring.
Variable toLowerCase : jsstring -> jsstring.
Variable localeCompare : jsstring -> jsstring -> number.

Lemma mapi_length {A B : Type} (f : A -> nat -> B) (l : list A) (i : nat) :
  length (mapi f l i) = length l.
Proof.
  revert i. induction l as [|x l IH]; intros i; simpl; [reflexivity|]. now rewrite IH.
Qed.

(** X27: the outcome of [extractDepartmentScores] case by case: which
    error is thrown under which condition, and what a returned value rests
    on. *)
Lemma extractDepartmentScores_cases (rows : list Row) :
  match extractDepartmentScores String_toNumber Number_toString toLowerCase localeCompare
          rows with
  | Throw m =>
      (m = MSG_EMPTY /\ rows = []) \/
      (m = MSG_NO_TEXT_COLUMN /\ rows <> [] /\
         (labelColumn rows = None \/ labelColumn rows = Some [])) \/
      (exists textCol,
         labelColumn rows = Some textCol /\ textCol <> [] /\
         ((m = MSG_NO_DEPT_COLUMNS /\ deptColumns String_toNumber rows textCol = []) \/
          (m = MSG_NO_QUESTIONS /\ deptColumns String_toNumber rows textCol <> [] /\
             questionRows Number_toString rows textCol = [])))
  | Return d =>
      exists textCol,
        labelColumn rows = Some textCol /\ textCol <> [] /\
        deptColumns String_toNumber rows textCol <> [] /\
        questionRows Number_toString rows textCol <> [] /\
        length (ds_questions d) = length (questionRows Number_toString rows textCol) /\
        ds_departments d
        = sortDepartments localeCompare (deptColumns String_toNumber rows textCol)
  end.
Proof.
  unfold extractDepartmentScores.
  destruct rows as [|row0 rows']; [left; split; reflexivity|].
  set (rows := row0 :: rows').
  change (Arr.keys row0) with (columns rows).
  fold (labelColumn rows).
  destruct (labelColumn rows) as [textCol|] eqn:El.
  2:{ right; left. repeat split; [easy | now left]. }
  destruct textCol as [|c textCol].
  { cbn [truthy_string negb]. right; left. repeat split; [easy | now right]. }
  cbn [truthy_string negb].
  set (tc := c :: textCol) in *.
  fold (numberColumn rows tc). fold (deptColumns String_toNumber rows tc).
  destruct (deptColumns String_toNumber rows tc) as [|d ds] eqn:Ed.
  { cbn [length Nat.eqb]. right; right. exists tc.
    split; [reflexivity|]. split; [easy|]. left. split; auto. }
  cbn [length Nat.eqb]. rewrite mapi_length. fold (questionRows Number_toString rows tc).
  destruct (questionRows Number_toString rows tc) as [|q qs] eqn:Eq.
  { cbn [length Nat.eqb]. right; right. exists tc.
    split; [reflexivity|]. split; [easy|]. right.
    split; [reflexivity|]. split; [rewrite ?Ed; easy | auto]. }
  cbn [length Nat.eqb].
  exists tc. split; [reflexivity|]. split; [easy|].
  split; [rewrite ?Ed; easy|]. split; [rewrite ?Eq; easy|].
  cbn [ds_questions ds_departments]. rewrite mapi_length.
  split; [rewrite ?Eq; reflexivity | rewrite ?Ed; reflexivity].
Qed.

(** The four error messages differ from one another. *)
Lemma messages_distinct :
  NoDup [MSG_EMPTY; MSG_NO_TEXT_COLUMN; MSG_NO_DEPT_COLUMNS; MSG_NO_QUESTIONS].
Proof.
  repeat constructor; cbn; intuition discriminate.
Qed.

(** C7, at the failing input: a table whose question-label column has the
    empty header has a column with a string cell longer than five
    characters, and [extractDepartmentScores] still throws the error of the
    missing label column; with the header [Question] the same table is
    accepted. *)
Theorem extractDepartmentScores_empty_header :
  extractDepartmentScores String_toNumber Number_toString toLowerCase localeCompare
    Samples.empty_label_header = Throw MSG_NO_TEXT_COLUMN /\
  (exists h r,
     In h (columns Samples.empty_label_header) /\ In r Samples.empty_label_header /\
     long_string 5 (Arr.lookup h r) = true) /\
  (exists d,
     extractDepartmentScores String_toNumber Number_toString toLowerCase localeCompare
       Samples.named_label_header = Return d).
Proof.
  split; [reflexivity|]. split.
  - exists [], (hd [] Samples.empty_label_header). cbn. auto.
  - unfold extractDepartmentScores, Samples.named_label_header.
    cbn -[classifyQuestion Rfloor]. unfold ge, gt.
    do 3 (cbn -[classifyQuestion Rfloor]; rcmp).
    eexists. reflexivity.
Qed.

End Matrix.

End ParserProps.

(** ** Laws of the statistics engine *)

Module AnalysisLaws.
Import JS Types Analysis Stats Views LawViews JSFacts AnalysisProps.

(** *** Sorting finite numbers *)

Lemma insert_Fin (x : R) (l : list R) :
  Arr.insert (fun a b => (a - b)%js) (Fin x) (map Fin l) = map Fin (insertR x l).
Proof.
  induction l as [|y l IH]; [reflexivity|].
  cbn [map Arr.insert insertR]. rewrite sub_Fin. unfold gt. cbn [lt].
  replace (Rltb 0 (x - y)) with (Rltb y x).
  - destruct (Rltb y x); [rewrite IH|]; reflexivity.
  - destruct (Rltb y x) eqn:E.
    + apply Rltb_true_iff in E. symmetry. apply Rltb_true_iff. lra.
    + apply Rltb_false_iff in E. symmetry. apply Rltb_false_iff. lra.
Qed.

Lemma sort_Fin (l : list R) :
  Arr.sort (fun a b => (a - b)%js) (map Fin l) = map Fin (sortR l).
Proof.
  induction l as [|x l IH]; [reflexivity|].
  cbn [map Arr.sort]. rewrite IH. apply insert_Fin.
Qed.

Lemma insertR_perm (x : R) (l : list R) : Permutation (insertR x l) (x :: l).
Proof.
  induction l as [|y l IH]; [reflexivity|]. cbn [insertR].
  destruct (Rltb y x); [|reflexivity].
  rewrite IH. apply perm_swap.
Qed.

Lemma sortR_perm (l : list R) : Permutation (sortR l) l.
Proof.
  induction l as [|x l IH]; [reflexivity|]. cbn [sortR fold_right].
  rewrite insertR_perm. now constructor.
Qed.

Lemma insertR_sorted (x : R) (l : list R) :
  StronglySorted Rle l -> StronglySorted Rle (insertR x l).
Proof.
  induction 1 as [|y l Hs IH Hy]; cbn [insertR].
  - repeat constructor.
  - destruct (Rltb y x) eqn:E.
    + apply Rltb_true_iff in E. constructor; [exact IH|].
      apply (Permutation_Forall (Permutation_sym (insertR_perm x l))).
      constructor; [lra | exact Hy].
    + apply Rltb_false_iff in E. constructor; [now constructor|].
      constructor; [exact E|].
      eapply Forall_impl; [|exact Hy]. intros z Hz. simpl in Hz. lra.
Qed.

Lemma sortR_sorted (l : list R) : StronglySorted Rle (sortR l).
Proof.
  induction l as [|x l IH]; [constructor|]. now apply insertR_sorted.
Qed.

Lemma sorted_perm_unique (l l' : list R) :
  StronglySorted Rle l -> StronglySorted Rle l' -> Permutation l l' -> l = l'.
Proof.
  intros Hl. revert l'. induction Hl as [|x l Hs IH Hx]; intros l' Hl' Hp.
  - apply Permutation_nil in Hp. now subst.
  - destruct Hl' as [|y l' Hs' Hy].
    + apply Permutation_sym, Permutation_nil in Hp. discriminate.
    + assert (x = y).
      { assert (Hin1 : In x (y :: l')) by (apply (Permutation_in _ Hp); now left).
        assert (Hin2 : In y (x :: l))
          by (apply (Permutation_in _ (Permutation_sym Hp)); now left).
        rewrite Forall_forall in Hx, Hy.
        destruct Hin1 as [->|Hin1]; [reflexivity|].
        destruct Hin2 as [->|Hin2]; [reflexivity|].
        apply Rle_antisym; auto. }
      subst y. f_equal. apply IH; [exact Hs'|].
      now apply Permutation_cons_inv in Hp.
Qed.

Lemma sortR_permutation_invariant (l l' : list R) :
  Permutation l l' -> sortR l = sortR l'.
Proof.
  intros Hp. apply sorted_perm_unique; try apply sortR_sorted.
  rewrite !sortR_perm. exact Hp.
Qed.

Lemma get_Fin (l : list R) (i : nat) :
  (i < length l)%nat -> Arr.get (map Fin l) i = Fin (nth i l 0%R).
Proof.
  intros H. unfold Arr.get. rewrite (nth_indep _ NaN (Fin 0)) by now rewrite length_map.
  apply (map_nth Fin).
Qed.

Lemma sortR_length (l : list R) : length (sortR l) = length l.
Proof. apply Permutation_length, sortR_perm. Qed.

Lemma calcMedian_Fin (l : list R) : calcMedian (map Fin l) = Fin (medianR l).
Proof.
  unfold calcMedian, medianR. rewrite length_map.
  destruct l as [|x l]; [reflexivity|].
  cbn [length Nat.eqb]. rewrite sort_Fin, length_map.
  set (s := sortR (x :: l)).
  assert (Hlen : length s = S (length l)) by apply sortR_length.
  assert (Hmid : (length s / 2 < length s)%nat)
    by (apply Nat.div_lt; lia).
  destruct (negb (length s mod 2 =? 0)%nat).
  - now rewrite get_Fin.
  - rewrite !get_Fin by lia. rewrite add_Fin, div_Fin by lra. reflexivity.
Qed.

Lemma perm_filter_length {A : Type} (p : A -> bool) (l l' : list A) :
  Permutation l l' -> length (filter p l) = length (filter p l').
Proof.
  induction 1 as [|x l l' _ IH|x y l|l l' l'' _ IH1 _ IH2]; cbn [filter].
  - reflexivity.
  - destruct (p x); cbn [length]; now rewrite IH.
  - destruct (p x), (p y); reflexivity.
  - now rewrite IH1.
Qed.

Lemma filter_all {A : Type} (p : A -> bool) (l : list A) :
  Forall (fun x => p x = true) l -> filter p l = l.
Proof.
  induction 1 as [|x l Hx _ IH]; cbn [filter]; [reflexivity|]. now rewrite Hx, IH.
Qed.

Lemma filter_firstn_le {A : Type} (p : A -> bool) (k : nat) (l : list A) :
  Forall (fun x => p x = true) (firstn k l) ->
  (length (firstn k l) <= length (filter p l))%nat.
Proof.
  intros H. rewrite <- (firstn_skipn k l) at 2.
  rewrite filter_app, length_app, (filter_all _ _ H). lia.
Qed.

Lemma filter_skipn_le {A : Type} (p : A -> bool) (k : nat) (l : list A) :
  Forall (fun x => p x = true) (skipn k l) ->
  (length (skipn k l) <= length (filter p l))%nat.
Proof.
  intros H. rewrite <- (firstn_skipn k l) at 2.
  rewrite filter_app, length_app, (filter_all _ _ H). lia.
Qed.

Lemma sorted_nth_le (s : list R) (i j : nat) :
  StronglySorted Rle s -> (i <= j < length s)%nat -> (nth i s 0 <= nth j s 0)%R.
Proof.
  intros Hs. revert i j. induction Hs as [|x s Hs IH Hx]; intros i j [Hij Hj].
  - simpl in Hj. lia.
  - destruct j as [|j].
    + replace i with 0%nat by lia. lra.
    + destruct i as [|i].
      * cbn [nth]. rewrite Forall_forall in Hx. apply Hx, nth_In.
        simpl in Hj. lia.
      * cbn [nth]. apply IH. simpl in Hj. lia.
Qed.

Lemma firstn_below (s : list R) (k : nat) (m : R) :
  StronglySorted Rle s -> (0 < k <= length s)%nat -> (nth (k - 1) s 0 <= m)%R ->
  Forall (fun v => Rleb v m = true) (firstn k s).
Proof.
  intros Hs Hk Hm. apply Forall_forall. intros v Hv.
  apply (In_nth _ _ 0%R) in Hv. destruct Hv as [i [Hi <-]].
  rewrite length_firstn in Hi.
  rewrite nth_firstn. replace (i <? k)%nat with true by (symmetry; apply Nat.ltb_lt; lia).
  apply Rleb_true_iff. apply Rle_trans with (2 := Hm). apply sorted_nth_le; [exact Hs | lia].
Qed.

Lemma skipn_above (s : list R) (k : nat) (m : R) :
  StronglySorted Rle s -> (k < length s)%nat -> (m <= nth k s 0)%R ->
  Forall (fun v => Rleb m v = true) (skipn k s).
Proof.
  intros Hs Hk Hm. apply Forall_forall. intros v Hv.
  apply (In_nth _ _ 0%R) in Hv. destruct Hv as [i [Hi <-]].
  rewrite length_skipn in Hi. rewrite nth_skipn.
  apply Rleb_true_iff. apply Rle_trans with (1 := Hm). apply sorted_nth_le; [exact Hs | lia].
Qed.

Lemma medianR_splits (l : list R) :
  l <> [] ->
  (length l <= 2 * length (filter (fun v => Rleb v (medianR l)) l))%nat /\
  (length l <= 2 * length (filter (fun v => Rleb (medianR l) v) l))%nat.
Proof.
  intros Hne.
  rewrite (perm_filter_length _ _ _ (Permutation_sym (sortR_perm l))).
  rewrite (perm_filter_length (fun v => Rleb (medianR l) v) _ _
             (Permutation_sym (sortR_perm l))).
  unfold medianR. destruct l as [|x l]; [easy|].
  set (s := sortR (x :: l)).
  assert (Hlen : length s = S (length l)) by apply sortR_length.
  assert (Hs : StronglySorted Rle s) by apply sortR_sorted.
  cbn [length]. rewrite <- Hlen.
  pose proof (Nat.div_mod_eq (length s) 2) as Hdm.
  assert (Hr : (length s mod 2 < 2)%nat) by (apply Nat.mod_upper_bound; lia).
  set (mid := (length s / 2)%nat) in *.
  destruct (length s mod 2 =? 0)%nat eqn:E; cbn [negb].
  - apply Nat.eqb_eq in E.
    assert (Hmid : (0 < mid)%nat) by lia.
    assert (H1 : (nth (mid - 1) s 0 <= nth mid s 0)%R)
      by (apply sorted_nth_le; [exact Hs | lia]).
    set (m := ((nth (mid - 1) s 0 + nth mid s 0) / 2)%R).
    split.
    + pose proof (filter_firstn_le (fun v => Rleb v m) mid s) as H.
      rewrite length_firstn in H.
      assert (Hf : Forall (fun v => Rleb v m = true) (firstn mid s)).
      { apply firstn_below; [exact Hs | lia | unfold m; lra]. }
      specialize (H Hf). lia.
    + pose proof (filter_skipn_le (fun v => Rleb m v) mid s) as H.
      rewrite length_skipn in H.
      assert (Hf : Forall (fun v => Rleb m v = true) (skipn mid s)).
      { apply skipn_above; [exact Hs | lia | unfold m; lra]. }
      specialize (H Hf). lia.
  - apply Nat.eqb_neq in E.
    set (m := nth mid s 0%R).
    split.
    + pose proof (filter_firstn_le (fun v => Rleb v m) (mid + 1) s) as H.
      rewrite length_firstn in H.
      assert (Hf : Forall (fun v => Rleb v m = true) (firstn (mid + 1) s)).
      { apply firstn_below; [exact Hs | lia |].
        replace (mid + 1 - 1)%nat with mid by lia. unfold m. lra. }
      specialize (H Hf). lia.
    + pose proof (filter_skipn_le (fun v => Rleb m v) mid s) as H.
      rewrite length_skipn in H.
      assert (Hf : Forall (fun v => Rleb m v = true) (skipn mid s)).
      { apply skipn_above; [exact Hs | lia | unfold m; lra]. }
      specialize (H Hf). lia.
Qed.

Lemma filter_Fin_length (l : list R) (p : R -> bool) :
  length (filter (fun v => p v) l)
  = length (filter (fun v => match v with Fin a => p a | _ => false end) (map Fin l)).
Proof.
  induction l as [|x l IH]; [reflexivity|].
  cbn [map filter]. destruct (p x); cbn [length]; now rewrite IH.
Qed.

(** X1: on finite values the median [calcMedian] returns does not depend
    on the order in which the values are given. *)
Theorem calcMedian_order_independent (l l' : list R) :
  Permutation l l' -> calcMedian (map Fin l) = calcMedian (map Fin l').
Proof.
  intros Hp. rewrite !calcMedian_Fin. f_equal. unfold medianR.
  rewrite (sortR_permutation_invariant _ _ Hp).
  destruct l, l'; try reflexivity.
  - apply Permutation_nil in Hp. discriminate.
  - apply Permutation_sym, Permutation_nil in Hp. discriminate.
Qed.

Lemma calcMedian_order_independent_witness :
  Permutation [3; 1; 2]%R [1; 2; 3]%R /\
  calcMedian (map Fin [3; 1; 2]%R) = calcMedian (map Fin [1; 2; 3]%R).
Proof.
  assert (H : Permutation [3; 1; 2]%R [1; 2; 3]%R).
  { apply perm_trans with [1; 3; 2]%R; [apply perm_swap|].
    apply perm_skip, perm_swap. }
  split; [exact H | exact (calcMedian_order_independent _ _ H)].
Defined.

(** X2: on a non-empty list of finite values [calcMedian] returns a finite
    number that splits the values: at least half of them are at most the
    median and at least half of them are at least the median. *)
Theorem calcMedian_splits_values (l : list R) :
  l <> [] ->
  exists m,
    calcMedian (map Fin l) = Fin m /\
    (length l <= 2 * length (filter (fun v => (v <=? Fin m)%js) (map Fin l)))%nat /\
    (length l <= 2 * length (filter (fun v => (v >=? Fin m)%js) (map Fin l)))%nat.
Proof.
  intros Hne. exists (medianR l). split; [apply calcMedian_Fin|].
  destruct (medianR_splits l Hne) as [H1 H2].
  pose proof (filter_Fin_length l) as Hf.
  split.
  - rewrite (Hf (fun v => Rleb v (medianR l))) in H1.
    erewrite filter_ext_in; [exact H1|].
    intros v Hv. apply in_map_iff in Hv. destruct Hv as [a [<- _]]. reflexivity.
  - rewrite (Hf (fun v => Rleb (medianR l) v)) in H2.
    erewrite filter_ext_in; [exact H2|].
    intros v Hv. apply in_map_iff in Hv. destruct Hv as [a [<- _]]. reflexivity.
Qed.

Lemma calcMedian_splits_values_witness :
  [3; 1; 2]%R <> [] /\
  exists m,
    calcMedian (map Fin [3; 1; 2]%R) = Fin m /\
    (length [3; 1; 2]%R
     <= 2 * length (filter (fun v => (v <=? Fin m)%js) (map Fin [3; 1; 2]%R)))%nat /\
    (length [3; 1; 2]%R
     <= 2 * length (filter (fun v => (v >=? Fin m)%js) (map Fin [3; 1; 2]%R)))%nat.
Proof.
  split; [discriminate | apply calcMedian_splits_values; discriminate].
Defined.

Lemma answers_within_finite lo hi responses :
  answers_within lo hi responses -> finite_answers responses.
Proof.
  unfold answers_within, finite_answers. apply Forall_impl.
  intros r H k v E. destruct (H k v E) as [a [-> _]]. reflexivity.
Qed.

Lemma question_values_Fin (responses : list SurveyResponse) (k : jsstring) :
  finite_answers responses ->
  defined_numbers (map (fun r => answer r k) responses)
  = map Fin (question_values responses k).
Proof.
  unfold finite_answers, question_values.
  induction 1 as [|r responses Hr _ IH]; [reflexivity|].
  cbn [map defined_numbers flat_map].
  fold (defined_numbers (map (fun r => answer r k) responses)).
  rewrite IH, map_app. f_equal.
  destruct (answer r k) as [v|] eqn:E; [|reflexivity].
  pose proof (Hr k v E) as Hv. destruct v; try discriminate. reflexivity.
Qed.

Lemma question_values_within lo hi responses k :
  answers_within lo hi responses ->
  Forall (fun a => (lo <= a <= hi)%R) (question_values responses k).
Proof.
  unfold answers_within, question_values.
  induction 1 as [|r responses Hr _ IH]; [constructor|].
  cbn [flat_map]. apply Forall_app. split; [|exact IH].
  destruct (answer r k) as [v|] eqn:E; [|constructor].
  destruct (Hr k v E) as [a [-> Ha]]. constructor; [exact Ha | constructor].
Qed.

(** *** Bounds of the mean, the median and the standard deviation *)

Lemma sum_bounds (lo hi : R) (l : list R) :
  Forall (fun a => (lo <= a <= hi)%R) l ->
  (INR (length l) * lo <= Stats.sum l <= INR (length l) * hi)%R.
Proof.
  induction 1 as [|x l Hx _ IH].
  - simpl. lra.
  - cbn [length]. rewrite S_INR. unfold Stats.sum in *. cbn [fold_right]. lra.
Qed.

Lemma mean_bounds (lo hi : R) (l : list R) :
  l <> [] -> Forall (fun a => (lo <= a <= hi)%R) l -> (lo <= Stats.mean l <= hi)%R.
Proof.
  intros Hne H. pose proof (sum_bounds lo hi l H) as [H1 H2].
  assert (Hn : (0 < INR (length l))%R) by now apply INR_length_pos.
  destruct l as [|x l]; [easy|]. unfold Stats.mean.
  set (n := INR (length (x :: l))) in *. set (s := Stats.sum (x :: l)) in *.
  split.
  - apply (Rmult_le_reg_r n); [exact Hn|]. unfold Rdiv.
    rewrite Rmult_assoc, Rinv_l; lra.
  - apply (Rmult_le_reg_r n); [exact Hn|]. unfold Rdiv.
    rewrite Rmult_assoc, Rinv_l; lra.
Qed.

Lemma medianR_bounds (lo hi : R) (l : list R) :
  l <> [] -> Forall (fun a => (lo <= a <= hi)%R) l -> (lo <= medianR l <= hi)%R.
Proof.
  intros Hne H. unfold medianR. destruct l as [|x l]; [easy|].
  set (s := sortR (x :: l)).
  assert (Hlen : length s = S (length l)) by apply sortR_length.
  assert (Hs : Forall (fun a => (lo <= a <= hi)%R) s)
    by (apply (Permutation_Forall (Permutation_sym (sortR_perm _))); exact H).
  rewrite Forall_forall in Hs.
  assert (Hmid : (length s / 2 < length s)%nat) by (apply Nat.div_lt; lia).
  assert (Hnth : forall i, (i < length s)%nat -> (lo <= nth i s 0 <= hi)%R)
    by (intros i Hi; apply Hs, nth_In, Hi).
  destruct (negb (length s mod 2 =? 0)%nat).
  - now apply Hnth.
  - pose proof (Hnth (length s / 2)%nat Hmid).
    pose proof (Hnth (length s / 2 - 1)%nat ltac:(lia)). lra.
Qed.

Lemma sum_sq_shift (l : list R) (c : R) :
  Stats.sum (map (fun v => ((v - c) * (v - c))%R) l)
  = (Stats.sum (map (fun v => (v * v)%R) l) - 2 * c * Stats.sum l
     + INR (length l) * c * c)%R.
Proof.
  induction l as [|x l IH].
  - simpl. lra.
  - cbn [map length]. rewrite S_INR. unfold Stats.sum in *. cbn [fold_right].
    rewrite IH. ring.
Qed.

Lemma sum_mean (l : list R) : l <> [] -> Stats.sum l = (INR (length l) * Stats.mean l)%R.
Proof.
  intros Hne. assert (Hn : (0 < INR (length l))%R) by now apply INR_length_pos.
  destruct l as [|x l]; [easy|]. unfold Stats.mean. field. lra.
Qed.

(** The mean minimises the sum of squared deviations. *)
Lemma sum_sq_dev_min (l : list R) (c : R) :
  l <> [] ->
  (Stats.sum_sq_dev l <= Stats.sum (map (fun v => ((v - c) * (v - c))%R) l))%R.
Proof.
  intros Hne. unfold Stats.sum_sq_dev. rewrite !sum_sq_shift, (sum_mean l Hne).
  set (n := INR (length l)). set (m := Stats.mean l).
  assert (Hn : (0 <= n)%R) by apply pos_INR.
  assert (H : (0 <= n * ((c - m) * (c - m)))%R).
  { apply Rmult_le_pos; [exact Hn|]. apply Rle_0_sqr. }
  lra.
Qed.

Lemma sum_sq_centre_bound (lo hi : R) (l : list R) :
  Forall (fun a => (lo <= a <= hi)%R) l ->
  (Stats.sum (map (fun v => ((v - (lo + hi) / 2) * (v - (lo + hi) / 2))%R) l)
   <= INR (length l) * (((hi - lo) / 2) * ((hi - lo) / 2)))%R.
Proof.
  induction 1 as [|x l Hx _ IH].
  - simpl. lra.
  - cbn [map length]. rewrite S_INR. unfold Stats.sum in *. cbn [fold_right].
    assert (H : ((x - (lo + hi) / 2) * (x - (lo + hi) / 2)
                 <= ((hi - lo) / 2) * ((hi - lo) / 2))%R) by nra.
    lra.
Qed.

Lemma variance_bound (lo hi : R) (l : list R) :
  l <> [] -> Forall (fun a => (lo <= a <= hi)%R) l ->
  (Stats.variance l <= ((hi - lo) / 2) * ((hi - lo) / 2))%R.
Proof.
  intros Hne H. unfold Stats.variance.
  assert (Hn : (0 < INR (length l))%R) by now apply INR_length_pos.
  pose proof (sum_sq_dev_min l ((lo + hi) / 2) Hne) as H1.
  pose proof (sum_sq_centre_bound lo hi l H) as H2.
  apply (Rmult_le_reg_r (INR (length l))); [exact Hn|].
  unfold Rdiv at 1. rewrite Rmult_assoc, Rinv_l; lra.
Qed.

Lemma population_stddev_bound (lo hi : R) (l : list R) :
  (lo <= hi)%R -> Forall (fun a => (lo <= a <= hi)%R) l ->
  (0 <= Stats.population_stddev l <= (hi - lo) / 2)%R.
Proof.
  intros Hle H. split; [apply population_stddev_nonneg|].
  unfold Stats.population_stddev. destruct l as [|x l]; [lra|].
  rewrite <- (sqrt_square ((hi - lo) / 2)) by lra.
  apply sqrt_le_1_alt. apply variance_bound; easy.
Qed.

Lemma round2dp_hundredths (z : Z) : Stats.round2dp (IZR z / 100) = (IZR z / 100)%R.
Proof.
  unfold Stats.round2dp. rewrite (Rfloor_unique _ z); [reflexivity|]. lra.
Qed.

Lemma round2dp_between (lo hi : Z) (x : R) :
  (IZR lo / 100 <= x <= IZR hi / 100)%R ->
  (IZR lo / 100 <= Stats.round2dp x <= IZR hi / 100)%R.
Proof.
  intros [H1 H2]. split.
  - rewrite <- (round2dp_hundredths lo). now apply round2dp_mono.
  - rewrite <- (round2dp_hundredths hi). now apply round2dp_mono.
Qed.

Lemma analyseQuestion_centre (responses : list SurveyResponse) (overallScores : list number)
  (settings : AppSettings) (question : Question) :
  finite_answers responses ->
  let res := analyseQuestion responses overallScores settings question in
  let values := question_values responses (q_key question) in
  ar_mean res = Fin (Stats.round2dp (Stats.mean values)) /\
  ar_median res = Fin (medianR values) /\
  ar_stdDev res = Fin (Stats.round2dp (Stats.population_stddev values)).
Proof.
  intros Hfin. cbv zeta. unfold analyseQuestion. cbn [ar_mean ar_median ar_stdDev].
  rewrite (question_values_Fin _ _ Hfin).
  rewrite calcMean_Fin, calcMedian_Fin, calcStdDev_Fin, !round2_Fin.
  repeat split.
Qed.

Lemma medianR_nil : medianR [] = 0%R.
Proof. reflexivity. Qed.

(** X3: when every stored answer is a finite number between the integers
    [lo] and [hi], every result of [runAnalysis] reports a mean and a median
    between [lo] and [hi] for a question that has an answer, and [0] for
    both (and for the standard deviation) when it has none; the reported
    standard deviation is at least [0] and at most half the width of the
    scale. *)
Theorem results_within_scale (responses : list SurveyResponse) (questions : list Question)
  (settings : AppSettings) (lo hi : Z) :
  responses <> [] -> (lo <= hi)%Z ->
  answers_within (IZR lo) (IZR hi) responses ->
  Forall2
    (fun question res =>
       exists mean median stdDev : R,
         ar_mean res = Fin mean /\ ar_median res = Fin median /\
         ar_stdDev res = Fin stdDev /\
         (0 <= stdDev <= (IZR hi - IZR lo) / 2)%R /\
         (question_values responses (q_key question) = [] ->
          mean = 0%R /\ median = 0%R /\ stdDev = 0%R) /\
         (question_values responses (q_key question) <> [] ->
          (IZR lo <= mean <= IZR hi)%R /\ (IZR lo <= median <= IZR hi)%R))
    questions (runAnalysis responses questions settings).
Proof.
  intros Hne Hle Hin. rewrite (runAnalysis_nonempty _ _ _ Hne).
  apply Forall2_map_graph. intros q.
  pose proof (answers_within_finite _ _ _ Hin) as Hfin.
  destruct (analyseQuestion_centre responses
              (calcOverallScores responses (map q_key questions)) settings q Hfin)
    as [Hm [Hmd Hsd]].
  pose proof (question_values_within _ _ _ (q_key q) Hin) as Hv.
  set (values := question_values responses (q_key q)) in *.
  apply IZR_le in Hle.
  exists (Stats.round2dp (Stats.mean values)), (medianR values),
    (Stats.round2dp (Stats.population_stddev values)).
  repeat split; try assumption.
  - rewrite <- round2dp_0. apply round2dp_mono.
    apply (population_stddev_bound (IZR lo) (IZR hi)); assumption.
  - replace ((IZR hi - IZR lo) / 2)%R with (IZR (50 * (hi - lo)) / 100)%R
      by (rewrite mult_IZR, minus_IZR; lra).
    rewrite <- round2dp_hundredths. apply round2dp_mono.
    rewrite mult_IZR, minus_IZR.
    pose proof (population_stddev_bound (IZR lo) (IZR hi) values Hle Hv). lra.
  - rewrite H. apply round2dp_0.
  - now rewrite H.
  - rewrite H. apply round2dp_0.
  - replace (IZR lo) with (IZR (100 * lo) / 100)%R by (rewrite mult_IZR; lra).
    rewrite <- round2dp_hundredths. apply round2dp_mono. rewrite mult_IZR.
    pose proof (mean_bounds _ _ _ H Hv). lra.
  - replace (IZR hi) with (IZR (100 * hi) / 100)%R by (rewrite mult_IZR; lra).
    rewrite <- round2dp_hundredths. apply round2dp_mono. rewrite mult_IZR.
    pose proof (mean_bounds _ _ _ H Hv). lra.
  - apply (medianR_bounds _ _ _ H Hv).
  - apply (medianR_bounds _ _ _ H Hv).
Qed.

Lemma one_low_seven_high_within : answers_within 1 5 Samples.one_low_seven_high.
Proof.
  unfold answers_within, Samples.one_low_seven_high. rewrite Forall_map.
  repeat constructor; intros k v; unfold answer, Samples.response; cbn [r_answers Arr.lookup];
    destruct (streq _ k); intros E; inversion E; eexists; (split; [reflexivity | lra]).
Qed.

Lemma results_within_scale_witness :
  Forall2
    (fun question res =>
       exists mean median stdDev : R,
         ar_mean res = Fin mean /\ ar_median res = Fin median /\
         ar_stdDev res = Fin stdDev /\
         (0 <= stdDev <= (IZR 5 - IZR 1) / 2)%R /\
         (question_values Samples.one_low_seven_high (q_key question) = [] ->
          mean = 0%R /\ median = 0%R /\ stdDev = 0%R) /\
         (question_values Samples.one_low_seven_high (q_key question) <> [] ->
          (IZR 1 <= mean <= IZR 5)%R /\ (IZR 1 <= median <= IZR 5)%R))
    [Samples.question "q1"]
    (runAnalysis Samples.one_low_seven_high [Samples.question "q1"]
       Samples.DEFAULT_SETTINGS).
Proof.
  apply results_within_scale; [discriminate | lia | exact one_low_seven_high_within].
Defined.

(** X4: in every result of [runAnalysis] the priority is [high] exactly for
    the quadrant [improve], [medium] exactly for the quadrant [monitor] with
    the extraction type [issue], and [low] exactly in the remaining cases. *)
Theorem priority_from_quadrant_and_extraction (responses : list SurveyResponse)
  (questions : list Question) (settings : AppSettings) :
  Forall
    (fun res =>
       (ar_priority res = high <-> ar_quadrant res = improve) /\
       (ar_priority res = medium <->
        ar_quadrant res = monitor /\ ar_extractionType res = issue) /\
       (ar_priority res = low <->
        ar_quadrant res = maintain \/ ar_quadrant res = excess \/
        (ar_quadrant res = monitor /\ ar_extractionType res <> issue)))
    (runAnalysis responses questions settings).
Proof.
  unfold runAnalysis.
  destruct ((length responses =? 0)%nat || (length questions =? 0)%nat); [constructor|].
  apply Forall_map, Forall_forall. intros q _.
  unfold analyseQuestion. cbn [ar_priority ar_quadrant ar_extractionType].
  set (mean := calcMean _).
  set (quadrant := getQuadrant _ _ _ _).
  unfold getPriority.
  destruct quadrant; cbn [quadrant_eqb andb];
    destruct (mean <=? issueThreshold settings)%js;
    try destruct (mean >=? excellentThreshold settings)%js;
    repeat split; try easy; intuition congruence.
Qed.

(** *** A survey with one question *)











(** *** One department *)








(** *** The collation order *)

Lemma insert_sorted (localeCompare : jsstring -> jsstring -> number) (x : jsstring)
  (l : list jsstring) :
  (forall a b, (localeCompare a b >? Fin 0)%js = true -> precedes localeCompare b a) ->
  (forall a b c, precedes localeCompare a b -> precedes localeCompare b c ->
                 precedes localeCompare a c) ->
  StronglySorted (precedes localeCompare) l ->
  StronglySorted (precedes localeCompare) (Arr.insert (fun a b => localeCompare a b) x l).
Proof.
  intros asymmetric transitive.
  induction 1 as [|y l Hs IH Hy]; cbn [Arr.insert].
  - repeat constructor.
  - destruct (localeCompare x y >? Fin 0)%js eqn:E.
    + constructor; [exact IH|].
      apply (Permutation_Forall (Permutation_sym (insert_perm _ x l))).
      constructor; [now apply asymmetric | exact Hy].
    + constructor; [now constructor|].
      constructor; [exact E|].
      eapply Forall_impl; [|exact Hy]. intros z Hz. now apply (transitive x y z).
Qed.

(** X7: [sortDepartments] returns a permutation of its input, whatever the
    collation; when the collation is asymmetric and transitive, the result
    is sorted: no department precedes one that the collation puts before
    it. *)
Theorem sortDepartments_sorted (localeCompare : jsstring -> jsstring -> number)
  (departments : list jsstring) :
  (forall a b, (localeCompare a b >? Fin 0)%js = true -> precedes localeCompare b a) ->
  (forall a b c, precedes localeCompare a b -> precedes localeCompare b c ->
                 precedes localeCompare a c) ->
  Permutation (sortDepartments localeCompare departments) departments /\
  StronglySorted (precedes localeCompare) (sortDepartments localeCompare departments).
Proof.
  intros Ha Ht. split; [apply sort_perm|].
  unfold sortDepartments. induction departments as [|x l IH]; [constructor|].
  cbn [Arr.sort]. now apply insert_sorted.
Qed.

Lemma by_length_precedes (a b : jsstring) :
  precedes Cases.by_length a b <-> (length a <= length b)%nat.
Proof.
  unfold precedes, Cases.by_length, of_nat, gt. rewrite sub_Fin. cbn [lt].
  rewrite Rltb_false_iff. split; intros H.
  - apply INR_le. lra.
  - apply le_INR in H. lra.
Qed.

Lemma sortDepartments_sorted_witness :
  Permutation (sortDepartments Cases.by_length [str "Sales"; str "HR"; str "Dev"])
              [str "Sales"; str "HR"; str "Dev"] /\
  StronglySorted (precedes Cases.by_length)
    (sortDepartments Cases.by_length [str "Sales"; str "HR"; str "Dev"]).
Proof.
  apply sortDepartments_sorted.
  - intros a b H. apply by_length_precedes.
    destruct (Nat.le_gt_cases (length b) (length a)) as [Hle|Hgt]; [exact Hle|].
    assert (Hp : precedes Cases.by_length a b) by (apply by_length_precedes; lia).
    unfold precedes in Hp. congruence.
  - intros a b c H1 H2. apply by_length_precedes.
    apply by_length_precedes in H1. apply by_length_precedes in H2. lia.
Defined.

(** *** Categories *)

Lemma category_keys : map fst CATEGORY_KEYWORDS
  = [str "cat-1"; str "cat-2"; str "cat-3"; str "cat-4"; str "cat-5"; str "cat-6"].
Proof. reflexivity. Qed.

(** X8: [classifyQuestion] always returns the id of one of
    [DEFAULT_CATEGORIES]; it returns [cat-other] exactly when the label
    contains no keyword of [CATEGORY_KEYWORDS], and a category of
    [CATEGORY_KEYWORDS] only when the label contains one of its keywords. *)
Theorem classifyQuestion_known_category (toLowerCase : jsstring -> jsstring)
  (questionLabel : jsstring) :
  let c := classifyQuestion toLowerCase questionLabel in
  In c (map Catalogue.c_id Catalogue.DEFAULT_CATEGORIES) /\
  (c = str "cat-other" <->
   forall entry kw, In entry CATEGORY_KEYWORDS -> In kw (snd entry) ->
                    includes (toLowerCase questionLabel) (toLowerCase kw) = false) /\
  (forall categoryId keywords,
     c = categoryId -> In (categoryId, keywords) CATEGORY_KEYWORDS ->
     exists kw, In kw keywords /\
                includes (toLowerCase questionLabel) (toLowerCase kw) = true).
Proof.
  cbv zeta. unfold classifyQuestion.
  set (p := fun entry : jsstring * list jsstring =>
              existsb (fun kw => includes (toLowerCase questionLabel) (toLowerCase kw))
                      (snd entry)).
  destruct (find p CATEGORY_KEYWORDS) as [[cid kws]|] eqn:E.
  - apply find_some in E. destruct E as [Hin Hp].
    assert (Hcid : In cid (map fst CATEGORY_KEYWORDS)) by (apply (in_map fst _ _ Hin)).
    rewrite category_keys in Hcid.
    split; [|split].
    + cbn in Hcid |- *. intuition.
    + split.
      * intros ->. cbn in Hcid. intuition discriminate.
      * intros H. unfold p in Hp. apply existsb_exists in Hp.
        destruct Hp as [kw [Hkw Hinc]]. now rewrite (H _ kw Hin Hkw) in Hinc.
    + intros categoryId keywords <- Hk.
      assert (kws = keywords).
      { clear - Hin Hk. cbn in Hin, Hk.
        repeat (destruct Hin as [Hin|Hin]; [inversion Hin; subst; clear Hin;
          repeat (destruct Hk as [Hk|Hk]; [inversion Hk; subst; reflexivity|]);
          contradiction|]). contradiction. }
      subst. unfold p in Hp. apply existsb_exists in Hp. exact Hp.
  - split; [|split].
    + cbn. intuition.
    + split; [|reflexivity]. intros _ entry kw Hin Hkw.
      pose proof (find_none _ _ E entry Hin) as Hp. unfold p in Hp.
      destruct (includes _ _) eqn:Ei; [|reflexivity].
      rewrite <- Hp. symmetry. apply existsb_exists. now exists kw.
    + intros categoryId keywords <- Hk. exfalso.
      apply (in_map fst) in Hk. rewrite category_keys in Hk. cbn in Hk.
      intuition discriminate.
Qed.

End AnalysisLaws.

(** ** Properties of the plain table, of validation and of conversion *)

Module IngestProps.
Import JS Types Analysis Parser Views FreqViews MatrixViews Ingest IngestViews.
Import JSFacts AnalysisProps ParserProps AnalysisLaws.

(** *** Validation *)

Section Validation.
Variable String_toNumber : jsstring -> number.
Variable Number_toString : number -> jsstring.

Lemma validateCell_places (scaleMin scaleMax rowNum : number) (row : Row)
  (acc : list ValidationError * list ValidationWarning) (col : jsstring) :
  let val := Arr.lookup col row in
  map errorPlace
    (fst (validateCell String_toNumber Number_toString scaleMin scaleMax rowNum row acc
            col))
  = map errorPlace (fst acc)
    ++ (if notNumeric String_toNumber val then [(Some rowNum, Some col)] else []) /\
  map warningPlace
    (snd (validateCell String_toNumber Number_toString scaleMin scaleMax rowNum row acc
            col))
  = map warningPlace (snd acc)
    ++ (if flagged String_toNumber scaleMin scaleMax val then [(Some rowNum, Some col)]
        else []).
Proof.
  cbv zeta. unfold Ingest.validateCell, notNumeric, flagged.
  destruct (isMissing (Arr.lookup col row)); cbn [negb andb orb fst snd].
  - rewrite map_app, app_nil_r. split; reflexivity.
  - destruct (isNaN (Number_of String_toNumber (Arr.lookup col row)));
      cbn [negb andb orb fst snd].
    + rewrite map_app, app_nil_r. split; reflexivity.
    + destruct ((_ <? scaleMin)%js || (_ >? scaleMax)%js); cbn [fst snd];
        rewrite ?map_app, ?app_nil_r; split; reflexivity.
Qed.

Lemma validateCells_places (scaleMin scaleMax rowNum : number) (row : Row)
  (cols : list jsstring) :
  forall acc,
  map errorPlace
    (fst (fold_left (validateCell String_toNumber Number_toString scaleMin scaleMax rowNum row)
            cols acc))
  = map errorPlace (fst acc)
    ++ map (fun col => (Some rowNum, Some col))
         (filter (fun col => notNumeric String_toNumber (Arr.lookup col row)) cols) /\
  map warningPlace
    (snd (fold_left (validateCell String_toNumber Number_toString scaleMin scaleMax rowNum row)
            cols acc))
  = map warningPlace (snd acc)
    ++ map (fun col => (Some rowNum, Some col))
         (filter (fun col => flagged String_toNumber scaleMin scaleMax (Arr.lookup col row))
                 cols).
Proof.
  induction cols as [|col cols IH]; intros acc.
  - cbn. rewrite !app_nil_r. split; reflexivity.
  - cbn [fold_left filter].
    destruct (IH (validateCell String_toNumber Number_toString scaleMin scaleMax rowNum row acc
                    col)) as [He Hw].
    destruct (validateCell_places scaleMin scaleMax rowNum row acc col) as [He1 Hw1].
    cbv zeta in He1, Hw1. rewrite He, Hw, He1, Hw1, <- !app_assoc.
    split.
    + destruct (notNumeric _ _); reflexivity.
    + destruct (flagged _ _ _ _); reflexivity.
Qed.

Lemma validateRows_places (scaleMin scaleMax : number) (cols : list jsstring)
  (rows : list Row) :
  forall idx acc,
  map errorPlace
    (fst (validateRows String_toNumber Number_toString scaleMin scaleMax cols rows idx
            acc))
  = map errorPlace (fst acc) ++ cellsWhere (notNumeric String_toNumber) cols rows idx /\
  map warningPlace
    (snd (validateRows String_toNumber Number_toString scaleMin scaleMax cols rows idx
            acc))
  = map warningPlace (snd acc)
    ++ cellsWhere (flagged String_toNumber scaleMin scaleMax) cols rows idx.
Proof.
  induction rows as [|row rows IH]; intros idx acc.
  - cbn. rewrite !app_nil_r. split; reflexivity.
  - cbn [Ingest.validateRows]. unfold cellsWhere. cbn [length seq combine flat_map fst snd].
    destruct (IH (S idx)
                (fold_left
                   (validateCell String_toNumber Number_toString scaleMin scaleMax
                      (of_nat (idx + 2)) row) cols acc))
      as [He Hw].
    destruct (validateCells_places scaleMin scaleMax (of_nat (idx + 2)) row cols acc)
      as [He1 Hw1].
    rewrite He, Hw, He1, Hw1, <- !app_assoc. split; reflexivity.
Qed.

Lemma filter_none {A : Type} (p : A -> bool) (l : list A) :
  (forall x, In x l -> p x = false) -> filter p l = [].
Proof.
  induction l as [|x l IH]; intros H; [reflexivity|]. cbn [filter].
  rewrite (H x) by now left. apply IH. intros y Hy. apply H. now right.
Qed.

Lemma cellsWhere_nil (p : option cell -> bool) (cols : list jsstring) (rows : list Row)
  (idx : nat) :
  cellsWhere p cols rows idx = []
  <-> forall row col, In row rows -> In col cols -> p (Arr.lookup col row) = false.
Proof.
  unfold cellsWhere. revert idx. induction rows as [|row rows IH]; intros idx.
  - cbn. split; [intros _ ? ? [] | reflexivity].
  - cbn [length seq combine flat_map fst snd]. split.
    + intros H. apply app_eq_nil in H. destruct H as [H1 H2].
      intros r col [->|Hr] Hc.
      * apply map_eq_nil in H1.
        destruct (p (Arr.lookup col r)) eqn:E; [|reflexivity].
        assert (Hin : In col (filter (fun col => p (Arr.lookup col r)) cols))
          by (apply filter_In; auto).
        rewrite H1 in Hin. destruct Hin.
      * apply (proj1 (IH (S idx)) H2 r col Hr Hc).
    + intros H. rewrite filter_none.
      * cbn [map app]. apply IH. intros r col Hr Hc. apply H; auto. now right.
      * intros col Hc. apply H; auto. now left.
Qed.

Lemma cellsWhere_disjoint_length (p q : option cell -> bool) (cols : list jsstring)
  (rows : list Row) (idx : nat) :
  (forall v, p v = true -> q v = false) ->
  (length (cellsWhere p cols rows idx) + length (cellsWhere q cols rows idx)
   <= length rows * length cols)%nat.
Proof.
  intros H. unfold cellsWhere. revert idx.
  induction rows as [|row rows IH]; intros idx; [cbn; lia|].
  cbn [length seq combine flat_map fst snd]. rewrite !length_app, !length_map.
  specialize (IH (S idx)).
  pose proof (filter_disjoint_length (fun col => p (Arr.lookup col row))
                (fun col => q (Arr.lookup col row)) cols
                (fun col Hp => H _ Hp)) as Hd.
  lia.
Qed.

Lemma validateData_places (data : ParsedSurveyData) (scaleMin scaleMax : number) :
  pd_rows data <> [] -> pd_questionColumns data <> [] ->
  let result := validateData String_toNumber Number_toString data scaleMin scaleMax in
  isValid result = (length (errors result) =? 0)%nat /\
  map errorPlace (errors result)
  = cellsWhere (notNumeric String_toNumber) (pd_questionColumns data) (pd_rows data) 0 /\
  map warningPlace (warnings result)
  = cellsWhere (flagged String_toNumber scaleMin scaleMax)
      (pd_questionColumns data) (pd_rows data) 0.
Proof.
  intros Hr Hc. cbv zeta. unfold Ingest.validateData.
  destruct (pd_rows data) as [|row0 rows] eqn:Er; [easy|].
  destruct (pd_questionColumns data) as [|col0 cols] eqn:Ec; [easy|].
  cbn [length Nat.eqb isValid errors warnings].
  set (acc := validateRows _ _ _ _ _ _ _ _).
  destruct (validateRows_places scaleMin scaleMax (col0 :: cols) (row0 :: rows) 0 ([], []))
    as [He Hw].
  fold acc in He, Hw. cbn [fst snd map app] in He, Hw.
  split; [reflexivity|]. split; [exact He | exact Hw].
Qed.

(** Valid data has a row and a question column, and no cell that is not a
    number. *)
Lemma valid_cells (data : ParsedSurveyData) (scaleMin scaleMax : number) :
  isValid (validateData String_toNumber Number_toString data scaleMin scaleMax) = true ->
  pd_rows data <> [] /\ pd_questionColumns data <> [] /\
  forall row col, In row (pd_rows data) -> In col (pd_questionColumns data) ->
    isMissing (Arr.lookup col row) = true
    \/ isNaN (Number_of String_toNumber (Arr.lookup col row)) = false.
Proof.
  intros Hv.
  assert (Hr : pd_rows data <> []).
  { intros E. unfold Ingest.validateData in Hv. rewrite E in Hv. discriminate. }
  assert (Hc : pd_questionColumns data <> []).
  { intros E. unfold Ingest.validateData in Hv. rewrite E in Hv.
    destruct (length (pd_rows data) =? 0)%nat; discriminate. }
  split; [exact Hr|]. split; [exact Hc|].
  destruct (validateData_places data scaleMin scaleMax Hr Hc) as [Hi [He _]].
  rewrite Hi in Hv. apply Nat.eqb_eq, length_zero_iff_nil in Hv.
  rewrite Hv in He. cbn [map] in He. symmetry in He.
  intros row col Hrow Hcol.
  pose proof (proj1 (cellsWhere_nil _ _ _ _) He row col Hrow Hcol) as Hn.
  unfold notNumeric in Hn. destruct (isMissing _); [now left|]. now right.
Qed.

(** X10: [validateData] reports the data as valid exactly when there is a
    row, there is a question column, and every cell of a question column is
    either missing (absent or the empty string) or converts to a number;
    values outside the scale never make the data invalid. *)
Theorem validateData_valid_iff (data : ParsedSurveyData) (scaleMin scaleMax : number) :
  isValid (validateData String_toNumber Number_toString data scaleMin scaleMax) = true
  <-> pd_rows data <> [] /\ pd_questionColumns data <> [] /\
      forall row col, In row (pd_rows data) -> In col (pd_questionColumns data) ->
        isMissing (Arr.lookup col row) = true
        \/ isNaN (Number_of String_toNumber (Arr.lookup col row)) = false.
Proof.
  split; [apply valid_cells|].
  intros [Hr [Hc H]].
  destruct (validateData_places data scaleMin scaleMax Hr Hc) as [Hi [He _]].
  rewrite Hi. apply Nat.eqb_eq. rewrite <- (length_map errorPlace), He.
  apply length_zero_iff_nil, cellsWhere_nil. intros row col Hrow Hcol.
  unfold notNumeric.
  destruct (H row col Hrow Hcol) as [-> | ->]; [reflexivity | apply andb_false_r].
Qed.

(** X11: for data with a row and a question column, the errors of
    [validateData] are, in row-major order, one per cell that is present but
    not a number, and the warnings one per cell that is missing or a number
    outside the scale, each carrying the sheet row number (index + 2) and
    the column; no cell gets both, so there are at most rows x columns
    messages. *)
Theorem validateData_report (data : ParsedSurveyData) (scaleMin scaleMax : number) :
  pd_rows data <> [] -> pd_questionColumns data <> [] ->
  let result := validateData String_toNumber Number_toString data scaleMin scaleMax in
  map errorPlace (errors result)
  = cellsWhere (notNumeric String_toNumber) (pd_questionColumns data) (pd_rows data) 0 /\
  map warningPlace (warnings result)
  = cellsWhere (flagged String_toNumber scaleMin scaleMax)
      (pd_questionColumns data) (pd_rows data) 0 /\
  (length (errors result) + length (warnings result)
   <= length (pd_rows data) * length (pd_questionColumns data))%nat.
Proof.
  intros Hr Hc. cbv zeta.
  destruct (validateData_places data scaleMin scaleMax Hr Hc) as [_ [He Hw]].
  split; [exact He|]. split; [exact Hw|].
  rewrite <- (length_map errorPlace), <- (length_map warningPlace), He, Hw.
  apply cellsWhere_disjoint_length.
  intros v Hv. unfold notNumeric in Hv. unfold flagged.
  apply andb_true_iff in Hv. destruct Hv as [Hm Hn].
  apply negb_true_iff in Hm. rewrite Hm, Hn. reflexivity.
Qed.

End Validation.

(** *** Conversion to responses *)

Lemma Forall2_mapi {A B : Type} (P : A -> B -> Prop) (f : A -> nat -> B) (l : list A) :
  (forall x i, In x l -> P x (f x i)) -> forall idx, Forall2 P l (mapi f l idx).
Proof.
  induction l as [|x l IH]; intros H idx; cbn [mapi]; constructor.
  - apply H. now left.
  - apply IH. intros y i Hy. apply H. now right.
Qed.

Lemma mapi_nth_error {A B : Type} (f : A -> nat -> B) (l : list A) (idx i : nat) :
  nth_error (mapi f l idx) i = option_map (fun x => f x (idx + i)) (nth_error l i).
Proof.
  revert idx i. induction l as [|x l IH]; intros idx [|i]; cbn [mapi nth_error option_map];
    try reflexivity.
  - now rewrite Nat.add_0_r.
  - rewrite IH. now rewrite Nat.add_succ_r.
Qed.

Lemma streq_sym (a b : jsstring) : streq a b = streq b a.
Proof.
  destruct (streq a b) eqn:E.
  - apply streq_true_iff in E. subst. symmetry. apply streq_refl.
  - destruct (streq b a) eqn:E'; [|reflexivity].
    apply streq_true_iff in E'. subst. now rewrite streq_refl in E.
Qed.

Lemma streq_false_iff (a b : jsstring) : streq a b = false <-> a <> b.
Proof.
  split.
  - intros H ->. now rewrite streq_refl in H.
  - intros H. destruct (streq a b) eqn:E; [|reflexivity].
    apply streq_true_iff in E. contradiction.
Qed.

Lemma existsb_streq_In (k : jsstring) (l : list jsstring) :
  existsb (streq k) l = true <-> In k l.
Proof.
  rewrite existsb_exists. split.
  - intros [x [Hx E]]. apply streq_true_iff in E. now subst.
  - intros H. exists k. split; [exact H | apply streq_refl].
Qed.

(** [Object.fromEntries]: the value under a key, when all the entries of
    the key agree. *)
Lemma fromEntries_lookup (k : jsstring) (v : number) (entries : list (jsstring * number)) :
  (forall e, In e entries -> fst e = k -> snd e = v) ->
  Arr.lookup k (fromEntries entries)
  = if existsb (fun e => streq (fst e) k) entries then Some v else None.
Proof.
  unfold fromEntries.
  assert (H : forall o,
             (forall e, In e entries -> fst e = k -> snd e = v) ->
             Arr.lookup k (fold_left (fun o e => Arr.assign (fst e) (snd e) o) entries o)
             = if existsb (fun e => streq (fst e) k) entries then Some v
               else Arr.lookup k o).
  { induction entries as [|e entries IH]; intros o He; [reflexivity|].
    cbn [fold_left existsb]. rewrite IH by (intros e' He'; apply He; now right).
    destruct (existsb _ entries); [now rewrite orb_true_r|]. rewrite orb_false_r.
    destruct (streq (fst e) k) eqn:E.
    - apply streq_true_iff in E. rewrite <- (He e (or_introl eq_refl) E), <- E.
      apply lookup_assign_same.
    - apply lookup_assign_other. apply streq_false_iff in E. congruence. }
  intros He. now rewrite (H [] He).
Qed.

Section Conversion.
Variable String_toNumber : jsstring -> number.
Variable Number_toString : number -> jsstring.
Variable uuidv4 : nat -> jsstring.

Lemma answers_lookup (cols : list jsstring) (row : Row) (col : jsstring) :
  Arr.lookup col
    (fromEntries
       (filter (fun e => negb (isNaN (snd e)))
          (map (fun c => (c, Number_of String_toNumber (Arr.lookup c row))) cols)))
  = if existsb (streq col) cols then cellAnswer String_toNumber (Arr.lookup col row) else None.
Proof.
  rewrite (fromEntries_lookup col (Number_of String_toNumber (Arr.lookup col row))).
  - unfold cellAnswer.
    destruct (existsb (streq col) cols) eqn:Ec.
    + apply existsb_streq_In in Ec.
      destruct (isNaN (Number_of String_toNumber (Arr.lookup col row))) eqn:En.
      * replace (existsb _ _) with false; [reflexivity|]. symmetry.
        apply not_true_is_false. intros H. apply existsb_exists in H.
        destruct H as [e [He Hk]]. apply filter_In in He. destruct He as [He Hn].
        apply in_map_iff in He. destruct He as [c [<- _]]. cbn [fst snd] in Hk, Hn.
        apply streq_true_iff in Hk. subst c. now rewrite En in Hn.
      * replace (existsb _ _) with true; [reflexivity|]. symmetry.
        apply existsb_exists.
        exists (col, Number_of String_toNumber (Arr.lookup col row)). split.
        -- apply filter_In. split.
           ++ apply in_map_iff. exists col. auto.
           ++ cbn [snd]. now rewrite En.
        -- cbn [fst]. apply streq_refl.
    + replace (existsb _ _) with false; [reflexivity|]. symmetry.
      apply not_true_is_false. intros H. apply existsb_exists in H.
      destruct H as [e [He Hk]]. apply filter_In in He. destruct He as [He _].
      apply in_map_iff in He. destruct He as [c [<- Hc]]. cbn [fst] in Hk.
      apply streq_true_iff in Hk. subst c.
      apply existsb_streq_In in Hc. congruence.
  - intros e He Hk. apply filter_In in He. destruct He as [He _].
    apply in_map_iff in He. destruct He as [c [<- _]]. cbn [fst snd] in *. now subst.
Qed.

Lemma converted_answers (k : nat) (data : ParsedSurveyData)
  (projectId : jsstring) :
  Forall2
    (fun row r =>
       r_projectId r = projectId /\
       (forall col,
          answer r col
          = if existsb (streq col) (pd_questionColumns data)
            then cellAnswer String_toNumber (Arr.lookup col row) else None) /\
       (forall col v, answer r col = Some v ->
          In col (pd_questionColumns data) /\ isNaN v = false /\
          v = Number_of String_toNumber (Arr.lookup col row)))
    (pd_rows data)
    (convertToResponses String_toNumber Number_toString uuidv4 k data projectId).
Proof.
  unfold convertToResponses. apply Forall2_mapi. intros row i _.
  cbn [r_projectId]. split; [reflexivity|].
  assert (H : forall col,
             answer
               {| r_id := uuidv4 (k + i); r_projectId := projectId;
                  r_respondentId :=
                    String_or_empty Number_toString
                      (Arr.lookup (pd_respondentIdColumn data) row);
                  r_department :=
                    if truthy_string (pd_departmentColumn data)
                    then String_or_empty Number_toString
                           (Arr.lookup (pd_departmentColumn data) row)
                    else [];
                  r_answers :=
                    fromEntries
                      (filter (fun e => negb (isNaN (snd e)))
                         (map (fun col => (col, Number_of String_toNumber (Arr.lookup col row)))
                              (pd_questionColumns data))) |} col
             = if existsb (streq col) (pd_questionColumns data)
               then cellAnswer String_toNumber (Arr.lookup col row) else None).
  { intros col. unfold answer. cbn [r_answers]. apply answers_lookup. }
  split; [exact H|].
  intros col v Hv. rewrite H in Hv.
  destruct (existsb (streq col) (pd_questionColumns data)) eqn:Ec; [|discriminate].
  apply existsb_streq_In in Ec. unfold cellAnswer in Hv.
  destruct (isNaN (Number_of String_toNumber (Arr.lookup col row))) eqn:En; [discriminate|].
  injection Hv as <-. auto.
Qed.


(** The ids are those of consecutive calls. *)
Lemma convertToResponses_ids (k : nat) (data : ParsedSurveyData) (projectId : jsstring) :
  map r_id (convertToResponses String_toNumber Number_toString uuidv4 k data projectId)
  = map (fun i => uuidv4 (k + i)) (seq 0 (length (pd_rows data))).
Proof.
  unfold convertToResponses.
  generalize (pd_rows data) as rows. intros rows.
  change (seq 0 (length rows)) with (seq 0 (length rows)).
  assert (H : forall idx,
             map r_id
               (mapi (fun row i =>
                        {| r_id := uuidv4 (k + i); r_projectId := projectId;
                           r_respondentId :=
                             String_or_empty Number_toString
                               (Arr.lookup (pd_respondentIdColumn data) row);
                           r_department :=
                             if truthy_string (pd_departmentColumn data)
                             then String_or_empty Number_toString
                                    (Arr.lookup (pd_departmentColumn data) row)
                             else [];
                           r_answers :=
                             fromEntries
                               (filter (fun e => negb (isNaN (snd e)))
                                  (map (fun col =>
                                          (col, Number_of String_toNumber (Arr.lookup col row)))
                                       (pd_questionColumns data))) |}) rows idx)
             = map (fun i => uuidv4 (k + i)) (seq idx (length rows))).
  { induction rows as [|row rows IH]; intros idx; [reflexivity|].
    cbn [mapi map length seq r_id]. now rewrite IH. }
  apply H.
Qed.

(** X12: [convertToResponses] yields one response per row, in order: the
    response of row [i] has the id of the [i]-th call of [uuidv4] and the
    given project id, and its answers are exactly the cells of the question
    columns that convert to a number, so that an answer is never [NaN] and
    never stored under another column. *)
Theorem convertToResponses_answers (k : nat) (data : ParsedSurveyData)
  (projectId : jsstring) :
  length (convertToResponses String_toNumber Number_toString uuidv4 k data projectId)
  = length (pd_rows data) /\
  forall i row, nth_error (pd_rows data) i = Some row ->
    exists r,
      nth_error (convertToResponses String_toNumber Number_toString uuidv4 k data projectId)
                i = Some r /\
      r_id r = uuidv4 (k + i) /\ r_projectId r = projectId /\
      (forall col,
         answer r col
         = if existsb (streq col) (pd_questionColumns data)
           then cellAnswer String_toNumber (Arr.lookup col row) else None) /\
      (forall col v, answer r col = Some v ->
         In col (pd_questionColumns data) /\ isNaN v = false /\
         v = Number_of String_toNumber (Arr.lookup col row)).
Proof.
  split.
  - rewrite <- (length_map r_id), convertToResponses_ids, length_map. apply length_seq.
  - intros i row Hrow. unfold convertToResponses.
    rewrite mapi_nth_error. unfold Row in *. rewrite Hrow. cbn [option_map].
    eexists. split; [reflexivity|]. cbn [r_id r_projectId].
    split; [reflexivity|]. split; [reflexivity|].
    unfold answer. cbn [r_answers].
    split; [intros col; apply answers_lookup|].
    intros col v Hv. rewrite answers_lookup in Hv.
    destruct (existsb (streq col) (pd_questionColumns data)) eqn:Ec; [|discriminate].
    apply existsb_streq_In in Ec. unfold cellAnswer in Hv.
    destruct (isNaN (Number_of String_toNumber (Arr.lookup col row))) eqn:En;
      [discriminate|].
    injection Hv as <-. auto.
Qed.



End Conversion.

Section Plain.
Variable String_toNumber : jsstring -> number.
Variable Number_toString : number -> jsstring.
Variable uuidv4 : nat -> jsstring.

(** *** The plain table *)

Lemma Forall2_In_r {A B : Type} (P : A -> B -> Prop) (l : list A) (l' : list B) (y : B) :
  Forall2 P l l' -> In y l' -> exists x, In x l /\ P x y.
Proof.
  induction 1 as [|a b l l' Hab _ IH]; intros Hin; [easy|].
  destruct Hin as [<-|Hin].
  - exists a. split; [now left | exact Hab].
  - destruct (IH Hin) as [x [Hx HP]]. exists x. split; [now right | exact HP].
Qed.

Lemma In_hd {A : Type} (d : A) (l : list A) : l <> [] -> In (hd d l) l.
Proof. destruct l; [easy | intros _; now left]. Qed.

Lemma processParsedRows_id (headers : list jsstring) (rows : list Row) :
  headers <> [] ->
  In (pd_respondentIdColumn (processParsedRows headers rows)) headers /\
  ((exists h, In h headers /\ respondentLike h = true) ->
   respondentLike (pd_respondentIdColumn (processParsedRows headers rows)) = true).
Proof.
  intros Hne. unfold processParsedRows. cbn [pd_respondentIdColumn].
  fold respondentLike.
  destruct (find respondentLike headers) as [h|] eqn:E.
  - apply find_some in E. destruct E as [Hin Hl].
    assert (Ht : truthy_string h = true).
    { destruct h; [|reflexivity]. discriminate Hl. }
    rewrite Ht. auto.
  - split; [now apply In_hd|].
    intros [h [Hin Hl]]. rewrite (find_none _ _ E h Hin) in Hl. discriminate.
Qed.

Lemma processParsedRows_department (headers : list jsstring) (rows : list Row) :
  let dept := pd_departmentColumn (processParsedRows headers rows) in
  (dept = [] /\ forall h, In h headers -> test_includes DEPARTMENT_HEADER h = false) \/
  (In dept headers /\ test_includes DEPARTMENT_HEADER dept = true).
Proof.
  cbv zeta. unfold processParsedRows. cbn [pd_departmentColumn].
  destruct (find (test_includes DEPARTMENT_HEADER) headers) as [h|] eqn:E.
  - apply find_some in E. destruct E as [Hin Hl].
    assert (Ht : truthy_string h = true).
    { destruct h; [|reflexivity]. discriminate Hl. }
    rewrite Ht. right. auto.
  - left. split; [reflexivity|]. intros h Hin. apply (find_none _ _ E h Hin).
Qed.

(** X9: for [processParsedRows], the respondent column is a header (given
    one) and reads as a respondent column whenever some header does; the
    department column is empty when no header reads as a department and
    otherwise such a header; the question columns are the headers other than
    these two; and the responses converted from the result never hold an
    answer under the respondent or the department column. *)
Theorem processParsedRows_columns (headers : list jsstring) (rows : list Row) (k : nat)
  (projectId : jsstring) :
  let data := processParsedRows headers rows in
  (headers <> [] -> In (pd_respondentIdColumn data) headers) /\
  ((exists h, In h headers /\ respondentLike h = true) ->
   respondentLike (pd_respondentIdColumn data) = true) /\
  ((pd_departmentColumn data = [] /\
    forall h, In h headers -> test_includes DEPARTMENT_HEADER h = false) \/
   (In (pd_departmentColumn data) headers /\
    test_includes DEPARTMENT_HEADER (pd_departmentColumn data) = true)) /\
  (forall h, In h (pd_questionColumns data)
             <-> In h headers /\ h <> pd_respondentIdColumn data
                 /\ h <> pd_departmentColumn data) /\
  Forall
    (fun r => forall col v, answer r col = Some v ->
       In col headers /\ col <> pd_respondentIdColumn data
       /\ col <> pd_departmentColumn data)
    (convertToResponses String_toNumber Number_toString uuidv4 k data projectId).
Proof.
  cbv zeta.
  assert (Hq : forall h, In h (pd_questionColumns (processParsedRows headers rows))
             <-> In h headers /\ h <> pd_respondentIdColumn (processParsedRows headers rows)
                 /\ h <> pd_departmentColumn (processParsedRows headers rows)).
  { intros h. unfold processParsedRows at 1. cbn [pd_questionColumns].
    rewrite filter_In, andb_true_iff, !negb_true_iff, !streq_false_iff. reflexivity. }
  split; [|split; [|split; [|split]]].
  - intros Hne. now apply processParsedRows_id.
  - destruct headers as [|h0 hs].
    + intros [h [[] _]].
    + now apply processParsedRows_id.
  - apply processParsedRows_department.
  - exact Hq.
  - pose proof (converted_answers String_toNumber Number_toString uuidv4 k
                  (processParsedRows headers rows) projectId) as HF.
    apply Forall_forall. intros r Hr.
    destruct (Forall2_In_r _ _ _ r HF Hr) as [row [_ [_ [_ H]]]].
    intros col v Hv. destruct (H col v Hv) as [Hc _]. now apply Hq.
Qed.

End Plain.

(** *** Validation and conversion together *)

Lemma not_lt_le (x y : number) :
  isNaN x = false -> isNaN y = false -> (x <? y)%js = false -> (y <=? x)%js = true.
Proof.
  destruct x as [a| | |], y as [b| | |]; cbn; try easy.
  intros _ _ H. apply Rltb_false_iff in H. now apply Rleb_true_iff.
Qed.

Lemma cellsWhere_In (p : option cell -> bool) (cols : list jsstring) (rows : list Row)
  (i : nat) (row : Row) (col : jsstring) :
  nth_error rows i = Some row -> In col cols -> p (Arr.lookup col row) = true ->
  forall idx, In (Some (of_nat (idx + i + 2)), Some col) (cellsWhere p cols rows idx).
Proof.
  unfold cellsWhere. revert i. induction rows as [|r rows IH]; intros i Hn Hc Hp idx.
  - destruct i; discriminate.
  - cbn [length seq combine flat_map fst snd]. apply in_or_app.
    destruct i as [|i].
    + left. injection Hn as ->. rewrite Nat.add_0_r.
      apply in_map_iff. exists col. split; [reflexivity|]. apply filter_In. auto.
    + right. cbn [nth_error] in Hn.
      replace (idx + S i + 2)%nat with (S idx + i + 2)%nat by lia.
      now apply IH.
Qed.

Section Checked.
Variable String_toNumber : jsstring -> number.
Variable Number_toString : number -> jsstring.
Variable uuidv4 : nat -> jsstring.

(** X13: when [validateData] reports the data as valid and gives no
    warning (for scale bounds that are numbers), every response of
    [convertToResponses] has an answer to every question column, and the
    answer lies within the scale. *)
Theorem clean_validation_complete_answers (data : ParsedSurveyData)
  (scaleMin scaleMax : number) (k : nat) (projectId : jsstring) :
  isNaN scaleMin = false -> isNaN scaleMax = false ->
  isValid (validateData String_toNumber Number_toString data scaleMin scaleMax) = true ->
  warnings (validateData String_toNumber Number_toString data scaleMin scaleMax) = [] ->
  Forall
    (fun r => forall col, In col (pd_questionColumns data) ->
       exists v, answer r col = Some v /\
                 (scaleMin <=? v)%js = true /\ (v <=? scaleMax)%js = true)
    (convertToResponses String_toNumber Number_toString uuidv4 k data projectId).
Proof.
  intros Hmin Hmax Hvalid Hwarn.
  apply valid_cells in Hvalid. destruct Hvalid as [Hr [Hc Hcells]].
  destruct (validateData_places String_toNumber Number_toString data scaleMin scaleMax Hr Hc)
    as [_ [_ Hw]].
  rewrite Hwarn in Hw. cbn [map] in Hw. symmetry in Hw.
  pose proof (proj1 (cellsWhere_nil _ _ _ _) Hw) as Hflag.
  pose proof (converted_answers String_toNumber Number_toString uuidv4 k data
                projectId) as HF.
  apply Forall_forall. intros r Hin col Hcol.
  destruct (Forall2_In_r _ _ _ r HF Hin) as [row [Hrow [_ [Hans _]]]].
  specialize (Hflag row col Hrow Hcol). specialize (Hcells row col Hrow Hcol).
  unfold flagged in Hflag. apply orb_false_iff in Hflag. destruct Hflag as [Hm Hrange].
  destruct Hcells as [Hm'|Hn]; [congruence|].
  rewrite Hn in Hrange. cbn [negb andb] in Hrange.
  apply orb_false_iff in Hrange. destruct Hrange as [Hlo Hhi].
  exists (Number_of String_toNumber (Arr.lookup col row)).
  rewrite Hans. rewrite (proj2 (existsb_streq_In col _) Hcol).
  unfold cellAnswer. rewrite Hn. repeat split.
  - now apply not_lt_le.
  - unfold gt in Hhi. now apply not_lt_le.
Qed.

(** X14: an empty-string cell of a question column is reported by
    [validateData] as a missing value (a warning at its row and column),
    while [convertToResponses] stores the answer [0] for it, [Number('')]
    being [0]. *)
Theorem blank_cell_is_stored_as_zero (data : ParsedSurveyData) (scaleMin scaleMax : number)
  (k : nat) (projectId : jsstring) (i : nat) (row : Row) (col : jsstring) :
  String_toNumber [] = Fin 0 ->
  nth_error (pd_rows data) i = Some row ->
  In col (pd_questionColumns data) ->
  Arr.lookup col row = Some (CStr []) ->
  In (Some (of_nat (i + 2)), Some col)
     (map warningPlace
        (warnings (validateData String_toNumber Number_toString data scaleMin scaleMax))) /\
  exists r,
    nth_error (convertToResponses String_toNumber Number_toString uuidv4 k data projectId) i
    = Some r /\
    answer r col = Some (Fin 0).
Proof.
  intros Hblank Hrow Hcol Hcell.
  assert (Hr : pd_rows data <> []) by (intros E; rewrite E in Hrow; destruct i; discriminate).
  assert (Hc : pd_questionColumns data <> []) by (intros E; rewrite E in Hcol; destruct Hcol).
  split.
  - destruct (validateData_places String_toNumber Number_toString data scaleMin scaleMax
                Hr Hc) as [_ [_ Hw]].
    rewrite Hw.
    assert (Hf : flagged String_toNumber scaleMin scaleMax (Arr.lookup col row) = true)
      by (unfold flagged; rewrite Hcell; reflexivity).
    exact (cellsWhere_In _ _ _ i row col Hrow Hcol Hf 0).
  - pose proof (converted_answers String_toNumber Number_toString uuidv4 k data
                  projectId) as HF.
    destruct (nth_error (convertToResponses String_toNumber Number_toString uuidv4 k data
                           projectId) i) as [r|] eqn:En.
    + exists r. split; [reflexivity|].
      assert (Hpair : forall l l' (F : Forall2 (fun (row : Row) (r : SurveyResponse) =>
                         forall col, answer r col
                           = if existsb (streq col) (pd_questionColumns data)
                             then cellAnswer String_toNumber (Arr.lookup col row) else None)
                         l l') j x y,
                 nth_error l j = Some x -> nth_error l' j = Some y ->
                 forall col, answer y col
                   = if existsb (streq col) (pd_questionColumns data)
                     then cellAnswer String_toNumber (Arr.lookup col x) else None).
      { intros l l' F. induction F as [|a b l l' Hab _ IH]; intros [|j] x y Hx Hy;
          try discriminate.
        - injection Hx as <-. injection Hy as <-. exact Hab.
        - now apply (IH j). }
      assert (HF' : Forall2 (fun (row : Row) (r : SurveyResponse) =>
                         forall col, answer r col
                           = if existsb (streq col) (pd_questionColumns data)
                             then cellAnswer String_toNumber (Arr.lookup col row) else None)
                      (pd_rows data)
                      (convertToResponses String_toNumber Number_toString uuidv4 k data
                         projectId)).
      { eapply Forall2_impl; [|exact HF]. intros a b [_ [H _]]. exact H. }
      rewrite (Hpair _ _ HF' i row r Hrow En col).
      rewrite (proj2 (existsb_streq_In col _) Hcol), Hcell.
      unfold cellAnswer. cbn [Number_of]. rewrite Hblank. reflexivity.
    + exfalso. apply nth_error_None in En.
      apply Forall2_length in HF.
      assert (Hlt : (i < length (pd_rows data))%nat)
        by (apply nth_error_Some; congruence).
      unfold Row in *. lia.
Qed.

End Checked.

(** *** Questions *)

Lemma dropWhile_suffix (p : N -> bool) (s : jsstring) :
  exists prefix, s = prefix ++ dropWhile p s.
Proof.
  induction s as [|c s [prefix IH]]; [now exists []|].
  cbn [dropWhile]. destruct (p c).
  - exists (c :: prefix). cbn [app]. now f_equal.
  - now exists [].
Qed.

Lemma stripQuestionNumber_suffix (col : jsstring) :
  exists prefix, col = prefix ++ stripQuestionNumber col.
Proof.
  unfold stripQuestionNumber. destruct col as [|c [|d rest]]; try (now exists []).
  destruct (N.eqb (canon c) 81 && is_digit d); [|now exists []].
  destruct (dropWhile_suffix is_digit rest) as [p1 H1].
  destruct (dropWhile_suffix is_separator (dropWhile is_digit rest)) as [p2 H2].
  exists (c :: d :: p1 ++ p2). cbn [app]. do 2 f_equal.
  rewrite <- app_assoc, <- H2. exact H1.
Qed.

Lemma dropWhile_app_stop (p : N -> bool) (s t : jsstring) :
  forallb p s = true ->
  match t with c :: _ => p c = false | [] => True end ->
  dropWhile p (s ++ t) = t.
Proof.
  intros Hs Ht. induction s as [|c s IH].
  - cbn [app]. destruct t as [|c t]; [reflexivity|]. cbn [dropWhile]. now rewrite Ht.
  - cbn [forallb] in Hs. apply andb_true_iff in Hs. destruct Hs as [Hc Hs].
    cbn [app dropWhile]. rewrite Hc. now apply IH.
Qed.

Section Questions.
Variable String_toNumber : jsstring -> number.
Variable Number_toString : number -> jsstring.
Variable toLowerCase : jsstring -> jsstring.
Variable uuidv4 : nat -> jsstring.

(** X15: [generateQuestions] yields one question per question column, in
    order, with the column as key, the category of [classifyQuestion] on the
    column, and a label that is a suffix of the column and is not empty
    unless the column is; every answer key of the converted responses is the
    key of a generated question. *)
Theorem generateQuestions_keys_and_labels (k : nat) (data : ParsedSurveyData)
  (projectId : jsstring) (scaleMin scaleMax : number) :
  Forall2
    (fun col q =>
       q_key q = col /\
       q_categoryId q = classifyQuestion toLowerCase col /\
       (exists prefix, col = prefix ++ q_label q) /\
       (col <> [] -> q_label q <> []))
    (pd_questionColumns data)
    (generateQuestions toLowerCase uuidv4 k data projectId scaleMin scaleMax) /\
  (forall k' pid,
     Forall
       (fun r => forall col v, answer r col = Some v ->
          exists q,
            In q (generateQuestions toLowerCase uuidv4 k data projectId scaleMin scaleMax)
            /\ q_key q = col)
       (convertToResponses String_toNumber Number_toString uuidv4 k' data pid)).
Proof.
  assert (HF : Forall2
    (fun col q =>
       q_key q = col /\
       q_categoryId q = classifyQuestion toLowerCase col /\
       (exists prefix, col = prefix ++ q_label q) /\
       (col <> [] -> q_label q <> []))
    (pd_questionColumns data)
    (generateQuestions toLowerCase uuidv4 k data projectId scaleMin scaleMax)).
  { unfold generateQuestions. apply Forall2_mapi. intros col i _.
    cbn [q_key q_categoryId q_label]. repeat split.
    - destruct (truthy_string (stripQuestionNumber col)).
      + apply stripQuestionNumber_suffix.
      + now exists [].
    - intros Hne. destruct (stripQuestionNumber col) eqn:E; cbn [truthy_string]; easy. }
  split; [exact HF|].
  intros k' pid. apply Forall_forall. intros r Hr col v Hv.
  pose proof (converted_answers String_toNumber Number_toString uuidv4 k' data pid)
    as HA.
  destruct (Forall2_In_r _ _ _ r HA Hr) as [row [_ [_ [_ H]]]].
  destruct (H col v Hv) as [Hc _].
  clear - HF Hc. induction HF as [|c q cols qs Hcq _ IH]; [easy|].
  destruct Hc as [->|Hc].
  - exists q. split; [now left | apply Hcq].
  - destruct (IH Hc) as [q' [Hq' Hk]]. exists q'. split; [now right | exact Hk].
Qed.

Lemma stripQuestionNumber_questionKey (q : QuestionFreq) :
  Number_toString (qf_number q) <> [] ->
  forallb is_digit (Number_toString (qf_number q)) = true ->
  match qf_text q with c :: _ => is_separator c = false | [] => True end ->
  stripQuestionNumber (questionKey Number_toString q) = qf_text q.
Proof.
  intros Hne Hd Ht. unfold questionKey.
  destruct (Number_toString (qf_number q)) as [|d digits]; [easy|].
  cbn [forallb] in Hd. apply andb_true_iff in Hd. destruct Hd as [Hd Hds].
  change (str "Q" ++ (d :: digits) ++ str "_" ++ qf_text q)
    with (81%N :: d :: digits ++ 95%N :: qf_text q).
  unfold stripQuestionNumber. change (canon 81) with 81%N. rewrite N.eqb_refl, Hd.
  cbn [andb].
  rewrite dropWhile_app_stop; [| exact Hds | reflexivity].
  change (95%N :: qf_text q) with ([95%N] ++ qf_text q).
  apply dropWhile_app_stop; [reflexivity | exact Ht].
Qed.

End Questions.

(** *** Label rows *)

Section LabelRows.
Variable String_toNumber : jsstring -> number.
Variable Number_toString : number -> jsstring.

(** X17: [skipLabelRows] only drops rows (the result is a filter of the
    input); it keeps every row that has no string cell, and returns a sheet
    of such rows unchanged. *)
Theorem skipLabelRows_keeps_number_rows (rows : list Row) :
  (exists keep : Row -> bool,
     skipLabelRows String_toNumber Number_toString rows = filter keep rows) /\
  (forall row, In row rows -> numbersOnly row ->
     In row (skipLabelRows String_toNumber Number_toString rows)) /\
  (Forall numbersOnly rows -> skipLabelRows String_toNumber Number_toString rows = rows).
Proof.
  unfold skipLabelRows. destruct rows as [|row0 rows'].
  { split; [now exists (fun _ => true)|]. split; [intros ? []|reflexivity]. }
  set (rows := row0 :: rows').
  set (numericHeaders := filter _ (Arr.keys row0)).
  destruct (length numericHeaders =? 0)%nat eqn:En.
  { split.
    - exists (fun _ => true). symmetry. apply filter_all.
      apply Forall_forall. reflexivity.
    - split; [auto | reflexivity]. }
  apply Nat.eqb_neq in En.
  assert (Hkeep : forall row, numbersOnly row ->
            (of_nat (length (filter (fun h => isLabelText String_toNumber (Arr.lookup h row))
                                    numericHeaders))
             <? of_nat (length numericHeaders) / Fin 2)%js = true).
  { intros row Hrow. rewrite filter_none.
    - cbn [length]. unfold of_nat. rewrite div_Fin by lra. cbn [lt].
      apply Rltb_true_iff. cbn [INR].
      assert (0 < INR (length numericHeaders))%R by (apply lt_0_INR; lia). lra.
    - intros h _. unfold isLabelText.
      destruct (Arr.lookup h row) as [[s|n]|] eqn:E; try reflexivity.
      now contradiction (Hrow h s). }
  split; [eexists; reflexivity|]. split.
  - intros row Hin Hrow. apply filter_In. split; [exact Hin | now apply Hkeep].
  - intros Hall. apply filter_all. eapply Forall_impl; [|exact Hall].
    intros row Hrow. now apply Hkeep.
Qed.

End LabelRows.

(** *** From the frequency table to the distribution *)

Lemma svz_sym (x y : number) : same_value_zero x y = same_value_zero y x.
Proof.
  destruct (same_value_zero x y) eqn:E.
  - apply svz_true_iff in E. subst. symmetry. apply svz_refl.
  - symmetry. apply svz_false_iff. apply svz_false_iff in E. congruence.
Qed.

Lemma Forall2_filter_length {A B : Type} (p : A -> bool) (q : B -> bool)
  (l : list A) (l' : list B) :
  Forall2 (fun a b => p a = q b) l l' -> length (filter p l) = length (filter q l').
Proof.
  induction 1 as [|a b l l' Hab _ IH]; [reflexivity|].
  cbn [filter]. rewrite Hab. destruct (q b); cbn [length]; now rewrite IH.
Qed.

Section RoundTrip.
Variable String_toNumber : jsstring -> number.
Variable Number_toString : number -> jsstring.
Variable random : nat -> R.
Variable uuidv4 : nat -> jsstring.

(** The record a frequency table is converted to. *)
Lemma frequency_table_data (fuel : nat) (headers : list jsstring) (rows : list Row)
  (qs : list QuestionFreq) :
  detectQuestions String_toNumber Number_toString headers rows = Some qs ->
  Forall natCounts qs ->
  (max_total qs < fuel)%nat ->
  exists arrays,
    Forall2 (arrayFor (max_total qs)) qs arrays /\
    tryConvertFrequencyTable String_toNumber Number_toString random fuel headers rows
    = Some (Some
        {| pd_headers := RESPONDENT_ID :: map (questionKey Number_toString) qs;
           pd_respondentIdColumn := RESPONDENT_ID;
           pd_departmentColumn := [];
           pd_questionColumns := map (questionKey Number_toString) qs;
           pd_rows :=
             map (fun i => pseudoRow (padStart3 (Number_toString (of_nat (i + 1))))
                             (map (questionKey Number_toString) qs) arrays i)
                 (seq 0 (max_total qs)) |}).
Proof.
  intros Hdet Hnat Hfuel.
  destruct (detectQuestions_fromRow _ _ _ _ _ Hdet) as [Hne Hrows].
  assert (Hq : Forall (fun q => NoDup (map fst (qf_counts q))
                                /\ qf_total q = of_nat (total_nat q)) qs).
  { rewrite Forall_forall in *. intros q Hin.
    apply (fromRow_counts String_toNumber headers q); auto. }
  assert (Hmax : Math_max (map qf_total qs) = of_nat (max_total qs)).
  { unfold max_total. rewrite <- Math_max_of_nat.
    - f_equal. rewrite map_map. apply map_ext_in. intros q Hin.
      rewrite Forall_forall in Hq. now destruct (Hq q Hin).
    - destruct qs; [easy|]. discriminate. }
  destruct (scoreArrays_value random fuel (max_total qs) qs) with (k := 0%nat)
    as [arrays [Harr HF2]]; auto.
  { rewrite Forall_forall in *. intros q Hin. now destruct (Hq q Hin). }
  { rewrite Forall_forall. intros q Hin. now apply total_le_max. }
  exists arrays. split; [exact HF2|].
  unfold tryConvertFrequencyTable. rewrite Hdet, Hmax, Harr.
  rewrite pseudoRows_value by lia. cbn [app]. rewrite Nat.sub_0_r. reflexivity.
Qed.

(** Counting the answers of the converted responses is counting in the
    pseudo rows. *)
Lemma count_answers_converted (k : nat) (data : ParsedSurveyData) (projectId : jsstring)
  (key : jsstring) (s : number) :
  In key (pd_questionColumns data) ->
  count_answers (convertToResponses String_toNumber Number_toString uuidv4 k data projectId)
    key s
  = length (filter (fun row => match cellAnswer String_toNumber (Arr.lookup key row) with
                               | Some x => same_value_zero s x
                               | None => false
                               end) (pd_rows data)).
Proof.
  intros Hkey. unfold count_answers. symmetry. apply Forall2_filter_length.
  pose proof (converted_answers String_toNumber Number_toString uuidv4 k data
                projectId) as HF.
  eapply Forall2_impl; [|exact HF]. intros row r [_ [H _]].
  unfold answered. rewrite H, (proj2 (existsb_streq_In key _) Hkey). reflexivity.
Qed.

(** X19: a frequency table with non-negative integer counts and distinct
    question keys, converted to pseudo rows, then to responses, gives back
    its counts: for every question, the distribution [getDistribution]
    computes on an integer scale holds, for every score of the scale that
    has a count cell, the bucket with exactly that count, whatever the
    shuffle. *)
Theorem frequency_table_distribution (fuel fuel' : nat) (headers : list jsstring)
  (rows : list Row) (qs : list QuestionFreq) (k : nat) (projectId : jsstring)
  (scaleMin scaleMax : Z) :
  detectQuestions String_toNumber Number_toString headers rows = Some qs ->
  Forall natCounts qs ->
  NoDup (map (questionKey Number_toString) qs) ->
  (max_total qs < fuel)%nat ->
  (Z.to_nat (scaleMax - scaleMin + 1) < fuel')%nat ->
  exists data,
    tryConvertFrequencyTable String_toNumber Number_toString random fuel headers rows
    = Some (Some data) /\
    Forall
      (fun q =>
         exists distribution,
           getDistribution fuel'
             (convertToResponses String_toNumber Number_toString uuidv4 k data projectId)
             (questionKey Number_toString q) (of_Z scaleMin) (of_Z scaleMax)
           = Some distribution /\
           forall score count,
             (scaleMin <= score <= scaleMax)%Z ->
             In (of_Z score, count) (qf_counts q) ->
             In {| value := of_Z score; count := count |} distribution)
      qs.
Proof.
  intros Hdet Hnat Hkeys Hfuel Hfuel'.
  destruct (frequency_table_data fuel headers rows qs Hdet Hnat Hfuel)
    as [arrays [HF2 Hdata]].
  eexists. split; [exact Hdata|].
  apply Forall_forall. intros q Hin.
  eexists. split; [apply getDistribution_value; exact Hfuel'|].
  intros score count Hrange Hsc.
  apply in_map_iff. exists score. split; [|now apply Zrange_In].
  f_equal.
  rewrite count_answers_converted
    by (cbn [pd_questionColumns]; apply in_map; exact Hin).
  cbn [pd_rows].
  destruct (Forall2_combine_In _ _ _ q HF2 Hin) as [arr [Hc [Hlen [Hcount Hnull]]]].
  pose proof (combine_map_l_In (questionKey Number_toString) _ _ _ _ Hc) as Hc'.
  assert (Hlens : length (map (questionKey Number_toString) qs) = length arrays).
  { rewrite length_map. now apply Forall2_length in HF2. }
  rewrite <- Hlen.
  rewrite (rows_count Number_toString
             (fun o => match cellAnswer String_toNumber o with
                       | Some x => same_value_zero (of_Z score) x
                       | None => false
                       end)
             (is_score (of_Z score)) _ arr _ _ Hkeys Hlens
             (questionKey_not_id Number_toString q) Hc').
  - rewrite (Hcount (of_Z score) count Hsc).
    rewrite Forall_forall in Hnat. pose proof (Hnat q Hin) as Hn.
    unfold natCounts in Hn. rewrite Forall_forall in Hn.
    destruct (Hn (of_Z score, count) Hsc) as [n Hn']. cbn [snd] in Hn'. subst count.
    now rewrite count_nat_of_nat.
  - intros s. unfold cellAnswer. cbn [Number_of is_score].
    destruct (isNaN s) eqn:En.
    + destruct s; try discriminate. reflexivity.
    + apply svz_sym.
  - reflexivity.
Qed.

Lemma padStart3_length (s : jsstring) : (3 <= length (padStart3 s))%nat.
Proof. unfold padStart3. rewrite length_app, repeat_length. lia. Qed.

Lemma pseudoRow_id (respondentId : jsstring) (qs : list QuestionFreq)
  (arrays : list (list (option number))) (i : nat) :
  Arr.lookup RESPONDENT_ID
    (pseudoRow respondentId (map (questionKey Number_toString) qs) arrays i)
  = Some (CStr respondentId).
Proof.
  unfold pseudoRow.
  change (fun row entry =>
            match nth_error (snd entry) i with
            | Some (Some score) => Arr.assign (fst entry) (CNum score) row
            | _ => row
            end) with (rowStep i).
  rewrite rowStep_fold_other.
  - cbn [Arr.lookup]. now rewrite streq_refl.
  - intros Hin. apply in_map_iff in Hin. destruct Hin as [[key arr] [Hk Hin]].
    apply in_combine_l in Hin. apply in_map_iff in Hin. destruct Hin as [q [Hq _]].
    cbn [fst] in Hk. subst key. now apply (questionKey_not_id Number_toString q).
Qed.

(** X26: the pseudo respondents of a converted frequency table are as many
    as the largest total of a question, and the converted response of row
    [i] has the respondent id [String(i + 1).padStart(3, '0')], of at least
    three characters, and no department. *)
Theorem frequency_table_respondents (fuel : nat) (headers : list jsstring)
  (rows : list Row) (qs : list QuestionFreq) (k : nat) (projectId : jsstring) :
  detectQuestions String_toNumber Number_toString headers rows = Some qs ->
  Forall natCounts qs ->
  (max_total qs < fuel)%nat ->
  exists data,
    tryConvertFrequencyTable String_toNumber Number_toString random fuel headers rows
    = Some (Some data) /\
    length (convertToResponses String_toNumber Number_toString uuidv4 k data projectId)
    = max_total qs /\
    forall i, (i < max_total qs)%nat ->
      exists r,
        nth_error (convertToResponses String_toNumber Number_toString uuidv4 k data
                     projectId) i = Some r /\
        r_respondentId r = padStart3 (Number_toString (of_nat (i + 1))) /\
        (3 <= length (r_respondentId r))%nat /\
        r_department r = [].
Proof.
  intros Hdet Hnat Hfuel.
  destruct (frequency_table_data fuel headers rows qs Hdet Hnat Hfuel)
    as [arrays [_ Hdata]].
  eexists. split; [exact Hdata|]. split.
  - rewrite <- (length_map r_id), convertToResponses_ids, length_map, length_seq.
    cbn [pd_rows]. now rewrite length_map, length_seq.
  - intros i Hi. unfold convertToResponses.
    cbn [pd_rows pd_respondentIdColumn pd_departmentColumn pd_questionColumns
         truthy_string].
    rewrite mapi_nth_error.
    rewrite (nth_error_map _ i (seq 0 (max_total qs))), nth_error_seq.
    replace (i <? max_total qs)%nat with true by (symmetry; now apply Nat.ltb_lt).
    cbn [option_map Nat.add]. eexists. split; [reflexivity|].
    cbn [r_respondentId r_department]. rewrite pseudoRow_id.
    unfold String_or_empty. cbn [truthy_cell String_of].
    pose proof (padStart3_length (Number_toString (of_nat (i + 1)))) as Hlen.
    destruct (padStart3 (Number_toString (of_nat (i + 1)))) as [|c id] eqn:E;
      [cbn in Hlen; lia|].
    cbn [truthy_string]. repeat split. exact Hlen.
Qed.

(** X20: when the parsed data has no department column, every converted
    response has the empty department, and [runDepartmentAnalysis] on the
    converted responses returns no entry. *)
Theorem no_department_column_no_department_analysis
  (localeCompare : jsstring -> jsstring -> number) (k : nat) (data : ParsedSurveyData)
  (projectId : jsstring) (questions : list Question) (overallResults : list AnalysisResult) :
  pd_departmentColumn data = [] ->
  Forall (fun r => r_department r = [])
    (convertToResponses String_toNumber Number_toString uuidv4 k data projectId) /\
  runDepartmentAnalysis localeCompare
    (convertToResponses String_toNumber Number_toString uuidv4 k data projectId)
    questions overallResults = [].
Proof.
  intros Hd.
  assert (HF : Forall (fun r => r_department r = [])
                 (convertToResponses String_toNumber Number_toString uuidv4 k data projectId)).
  { unfold convertToResponses. rewrite Hd. cbn [truthy_string].
    generalize 0%nat. induction (pd_rows data) as [|row rows IH]; intros idx;
      cbn [mapi]; constructor; [reflexivity | apply IH]. }
  split; [exact HF|].
  rewrite runDepartmentAnalysis_flat_map. unfold departmentsOf.
  rewrite filter_none; [reflexivity|].
  intros d Hdin. apply in_map_iff in Hdin. destruct Hdin as [r [<- Hr]].
  rewrite Forall_forall in HF. now rewrite (HF r Hr).
Qed.

End RoundTrip.

(** *** The department-score matrix *)

Lemma Forall_mapi {A B : Type} (P : B -> Prop) (f : A -> nat -> B) (l : list A) :
  (forall x i, In x l -> P (f x i)) -> forall idx, Forall P (mapi f l idx).
Proof.
  induction l as [|x l IH]; intros H idx; cbn [mapi]; constructor.
  - apply H. now left.
  - apply IH. intros y i Hy. apply H. now right.
Qed.

Section Scores.
Variable String_toNumber : jsstring -> number.
Variable Number_toString : number -> jsstring.
Variable toLowerCase : jsstring -> jsstring.
Variable localeCompare : jsstring -> jsstring -> number.

Lemma rowScores_lookup (deptColumns : list jsstring) (row : Row) (dept : jsstring)
  (v : number) :
  Arr.lookup dept (rowScores String_toNumber deptColumns row) = Some v ->
  In dept deptColumns /\
  In (Number_of String_toNumber (Arr.lookup dept row))
     (numericVals String_toNumber [row] dept) /\
  v = round2 (Number_of String_toNumber (Arr.lookup dept row)).
Proof.
  unfold rowScores.
  assert (H : forall acc,
             Arr.lookup dept
               (fold_left
                  (fun scores d =>
                     let val := Number_of String_toNumber (Arr.lookup d row) in
                     if negb (isNaN val) && (val >? Fin 0)%js
                     then Arr.assign d (round2 val) scores else scores)
                  deptColumns acc) = Some v ->
             Arr.lookup dept acc = Some v \/
             (In dept deptColumns /\
              In (Number_of String_toNumber (Arr.lookup dept row))
                 (numericVals String_toNumber [row] dept) /\
              v = round2 (Number_of String_toNumber (Arr.lookup dept row)))).
  { induction deptColumns as [|d cols IH]; intros acc Hl; [now left|].
    cbn [fold_left] in Hl. apply IH in Hl. destruct Hl as [Hl|[Hin Hrest]].
    - cbv zeta in Hl.
      destruct (negb (isNaN (Number_of String_toNumber (Arr.lookup d row)))
                && (Number_of String_toNumber (Arr.lookup d row) >? Fin 0)%js) eqn:E;
        [|now left].
      destruct (streq d dept) eqn:Ed.
      + apply streq_true_iff in Ed. subst d. rewrite lookup_assign_same in Hl.
        injection Hl as <-. right. split; [now left|]. split; [|reflexivity].
        unfold numericVals. cbn [map filter]. rewrite E. now left.
      + rewrite lookup_assign_other in Hl; [now left|].
        apply streq_false_iff in Ed. congruence.
    - right. split; [now right | exact Hrest]. }
  intros Hl. destruct (H [] Hl) as [Hnil|Hres]; [discriminate | exact Hres].
Qed.

Lemma numericVals_In (rows : list Row) (row : Row) (h : jsstring) (v : number) :
  In row rows -> In v (numericVals String_toNumber [row] h) ->
  In v (numericVals String_toNumber rows h).
Proof.
  unfold numericVals. intros Hr Hv. apply filter_In in Hv. destruct Hv as [Hv Hp].
  destruct Hv as [<-|[]]. apply filter_In. split; [|exact Hp].
  apply in_map_iff. exists row. auto.
Qed.

Lemma isDeptColumn_range (rows : list Row) (textCol : jsstring) (numCol : option jsstring)
  (h : jsstring) (v : number) :
  isDeptColumn String_toNumber rows textCol numCol h = true ->
  In v (numericVals String_toNumber rows h) ->
  exists a, v = Fin a /\ (1 <= a <= 55 / 10)%R.
Proof.
  unfold isDeptColumn. intros H Hv.
  destruct (streq h textCol || _); [discriminate|].
  destruct (test_equal SKIP_COL_PATTERNS (trim h)); [discriminate|].
  apply andb_true_iff in H. destruct H as [_ H].
  rewrite forallb_forall in H. specialize (H v Hv).
  apply andb_true_iff in H. destruct H as [H1 H2].
  unfold ge in H1. destruct v as [a| | |]; cbn in H1, H2; try discriminate.
  exists a. split; [reflexivity|].
  apply Rleb_true_iff in H1. apply Rleb_true_iff in H2. lra.
Qed.

(** X18: in the data [extractDepartmentScores] returns, every question has
    a label longer than two characters and a number that is neither [0] nor
    [NaN]; every score is stored under one of the listed departments and is
    a finite number between [1] and [5.5]; and the overall department is
    empty or a listed department whose header matches the overall
    pattern. *)
Theorem extractDepartmentScores_invariants (rows : list Row) (d : DepartmentScoreData) :
  extractDepartmentScores String_toNumber Number_toString toLowerCase localeCompare rows
  = Return d ->
  Forall
    (fun q =>
       (2 < length (dq_label q))%nat /\
       truthy_number (dq_number q) = true /\
       forall dept v, Arr.lookup dept (dq_scores q) = Some v ->
         In dept (ds_departments d) /\
         exists a, v = Fin a /\ (1 <= a <= 55 / 10)%R)
    (ds_questions d) /\
  (ds_overallDepartment d = [] \/
   (In (ds_overallDepartment d) (ds_departments d) /\
    test_includes OVERALL_HEADER (ds_overallDepartment d) = true)).
Proof.
  unfold extractDepartmentScores.
  destruct rows as [|row0 rows']; [discriminate|].
  set (rows := row0 :: rows').
  destruct (find _ (Arr.keys row0)) as [textCol|]; [|discriminate].
  destruct (negb (truthy_string textCol)); [discriminate|].
  cbv zeta.
  set (numCol := find _ (Arr.keys row0)).
  set (deptCols := filter (isDeptColumn String_toNumber rows textCol numCol) (Arr.keys row0)).
  destruct (length deptCols =? 0)%nat; [discriminate|].
  set (questions := mapi _ _ 0).
  destruct (length questions =? 0)%nat; [discriminate|].
  intros H. injection H as <-. cbn [ds_questions ds_departments ds_overallDepartment].
  assert (Hperm : forall h, In h deptCols ->
            In h (Arr.sort (fun a b => localeCompare a b) deptCols)).
  { intros h Hh. apply (Permutation_in _ (Permutation_sym (sort_perm _ _)) Hh). }
  split.
  - subst questions. apply Forall_mapi. intros row i Hrow.
    apply filter_In in Hrow. destruct Hrow as [Hrow Hlen].
    cbn [dq_label dq_number dq_categoryId dq_scores].
    assert (Hlabel : trim (String_of Number_toString (Arr.lookup textCol row))
                     = trim (String_or_empty Number_toString (Arr.lookup textCol row))).
    { unfold String_or_empty in *.
      destruct (truthy_cell (Arr.lookup textCol row)); [reflexivity|].
      cbn in Hlen. discriminate. }
    split; [rewrite Hlabel; apply Nat.ltb_lt; exact Hlen|].
    split.
    { assert (Hidx : truthy_number (of_nat (i + 1)) = true).
      { unfold truthy_number, of_nat. apply negb_true_iff, Reqb_false_iff.
        rewrite Nat.add_1_r, S_INR. pose proof (pos_INR i). lra. }
      destruct numCol as [n|]; [|exact Hidx].
      destruct (truthy_string n); [|exact Hidx].
      unfold num_or. destruct (truthy_number (Number_of _ _)) eqn:E; [exact E | exact Hidx]. }
    intros dept v Hl. apply rowScores_lookup in Hl. destruct Hl as [Hin [Hv ->]].
    split; [now apply Hperm|].
    pose proof (numericVals_In rows row dept _ Hrow Hv) as Hv'.
    unfold deptCols in Hin. apply filter_In in Hin. destruct Hin as [_ Hd].
    destruct (isDeptColumn_range rows textCol numCol dept _ Hd Hv') as [a [-> Ha]].
    exists (Stats.round2dp a). split; [apply round2_Fin|].
    replace 1%R with (IZR 100 / 100)%R by lra.
    replace (55 / 10)%R with (IZR 550 / 100)%R by lra.
    apply round2dp_between. lra.
  - destruct (find (test_includes OVERALL_HEADER) deptCols) as [h|] eqn:E; [|now left].
    apply find_some in E. destruct E as [Hin Ht].
    destruct (truthy_string h) eqn:Eh; [|now left].
    right. split; [now apply Hperm | exact Ht].
Qed.

End Scores.

(** *** [trim] *)

Lemma trimStart_head (s : jsstring) :
  match trimStart s with c :: _ => is_space c = false | [] => True end.
Proof.
  induction s as [|c s IH]; [exact I|]. cbn [trimStart].
  destruct (is_space c) eqn:E; [exact IH | exact E].
Qed.

Lemma trimStart_snoc (s : jsstring) (c : N) :
  is_space c = false -> exists t, trimStart (s ++ [c]) = t ++ [c].
Proof.
  intros Hc. induction s as [|d s [t IH]].
  - exists []. cbn [app trimStart]. now rewrite Hc.
  - cbn [app trimStart]. destruct (is_space d).
    + now exists t.
    + now exists (d :: s).
Qed.

Lemma trim_head (s : jsstring) :
  match trim s with c :: _ => is_space c = false | [] => True end.
Proof.
  unfold trim. pose proof (trimStart_head s) as H.
  destruct (trimStart s) as [|c s']; [exact I|].
  cbn [rev]. destruct (trimStart_snoc (rev s') c H) as [t ->].
  rewrite rev_app_distr. cbn [rev app]. exact H.
Qed.

(** *** The labels of the frequency questions, and the reader *)

Section Labels.
Variable String_toNumber : jsstring -> number.
Variable Number_toString : number -> jsstring.
Variable toLowerCase : jsstring -> jsstring.
Variable uuidv4 : nat -> jsstring.
Variable random : nat -> R.

Lemma parseQuestion_texts scoreHeaders textColumn numberColumn avgColumn
  (dataRows : list Row) :
  forall acc,
  Forall (fun q => exists s, qf_text q = trim s /\ (2 <= length (qf_text q))%nat) acc ->
  Forall (fun q => exists s, qf_text q = trim s /\ (2 <= length (qf_text q))%nat)
    (fold_left (parseQuestion String_toNumber Number_toString
                  scoreHeaders textColumn numberColumn avgColumn)
               dataRows acc).
Proof.
  induction dataRows as [|row dataRows IH]; intros acc Hacc; [exact Hacc|].
  cbn [fold_left]. apply IH. unfold parseQuestion.
  destruct (negb _ || (length _ <? 2)%nat) eqn:E; [exact Hacc|].
  destruct (rowCounts String_toNumber scoreHeaders row) as [counts total].
  destruct (total === Fin 0)%js; [exact Hacc|].
  apply Forall_app. split; [exact Hacc|]. constructor; [|constructor].
  cbn [qf_text]. eexists. split; [reflexivity|].
  apply orb_false_iff in E. destruct E as [_ E]. now apply Nat.ltb_ge in E.
Qed.

Lemma detectQuestions_texts (headers : list jsstring) (rows : list Row)
  (qs : list QuestionFreq) :
  detectQuestions String_toNumber Number_toString headers rows = Some qs ->
  Forall (fun q => exists s, qf_text q = trim s /\ (2 <= length (qf_text q))%nat) qs.
Proof.
  unfold detectQuestions.
  destruct (length rows <? 3)%nat; [discriminate|].
  destruct (length (scoreHeaderMap String_toNumber headers) <? 3)%nat; [discriminate|].
  destruct (_ <? _)%js; [discriminate|].
  destruct (find _ headers) as [textColumn|]; [|discriminate].
  destruct (negb (truthy_string textColumn)); [discriminate|].
  cbv zeta.
  set (qs' := fold_left _ (tl rows) []).
  assert (HF : Forall (fun q => exists s, qf_text q = trim s
                                          /\ (2 <= length (qf_text q))%nat) qs')
    by (apply parseQuestion_texts; constructor).
  destruct (length qs' =? 0)%nat; [discriminate|].
  intros H. injection H as <-. exact HF.
Qed.

Lemma tryConvert_columns (fuel : nat) (headers : list jsstring) (rows : list Row)
  (qs : list QuestionFreq) (data : ParsedSurveyData) :
  detectQuestions String_toNumber Number_toString headers rows = Some qs ->
  tryConvertFrequencyTable String_toNumber Number_toString random fuel headers rows
  = Some (Some data) ->
  pd_headers data = RESPONDENT_ID :: map (questionKey Number_toString) qs /\
  pd_respondentIdColumn data = RESPONDENT_ID /\
  pd_departmentColumn data = [] /\
  pd_questionColumns data = map (questionKey Number_toString) qs.
Proof.
  intros Hdet. unfold tryConvertFrequencyTable. rewrite Hdet.
  destruct (scoreArrays _ _ _ _ _); [|discriminate].
  destruct (pseudoRows _ _ _ _ _ _ _); [|discriminate].
  intros H. injection H as <-. repeat split.
Qed.

Lemma mapi_map {A B C : Type} (f : A -> nat -> B) (g : B -> C) (h : A -> C) (l : list A) :
  (forall x i, g (f x i) = h x) -> forall idx, map g (mapi f l idx) = map h l.
Proof.
  intros H. induction l as [|x l IH]; intros idx; [reflexivity|].
  cbn [mapi map]. now rewrite H, IH.
Qed.

(** X16: for the data a frequency table is converted to, the questions of
    [generateQuestions] have the generated keys and get the question texts
    back as labels, provided the question numbers print as digits and no
    text starts with an underscore. *)
Theorem frequency_question_labels (fuel : nat) (headers : list jsstring) (rows : list Row)
  (qs : list QuestionFreq) (data : ParsedSurveyData) (k : nat) (projectId : jsstring)
  (scaleMin scaleMax : number) :
  detectQuestions String_toNumber Number_toString headers rows = Some qs ->
  tryConvertFrequencyTable String_toNumber Number_toString random fuel headers rows
  = Some (Some data) ->
  Forall (fun q => Number_toString (qf_number q) <> [] /\
                   forallb is_digit (Number_toString (qf_number q)) = true /\
                   hd_error (qf_text q) <> Some 95%N) qs ->
  map q_key (generateQuestions toLowerCase uuidv4 k data projectId scaleMin scaleMax)
  = map (questionKey Number_toString) qs /\
  map q_label (generateQuestions toLowerCase uuidv4 k data projectId scaleMin scaleMax)
  = map qf_text qs.
Proof.
  intros Hdet Hconv Hqs.
  destruct (tryConvert_columns fuel headers rows qs data Hdet Hconv) as [_ [_ [_ Hcols]]].
  pose proof (detectQuestions_texts headers rows qs Hdet) as Htexts.
  unfold generateQuestions. rewrite Hcols. split.
  - rewrite (mapi_map _ q_key (fun col => col)); [apply map_id | reflexivity].
  - rewrite (mapi_map _ q_label
               (fun col => if truthy_string (stripQuestionNumber col)
                           then stripQuestionNumber col else col)) by reflexivity.
    rewrite map_map. apply map_ext_in. intros q Hin.
    rewrite Forall_forall in Hqs, Htexts.
    destruct (Hqs q Hin) as [Hne [Hd Hu]]. destruct (Htexts q Hin) as [s [Ht Hlen]].
    rewrite (stripQuestionNumber_questionKey Number_toString q Hne Hd).
    + destruct (qf_text q); [cbn in Hlen; lia | reflexivity].
    + pose proof (trim_head s) as Hh. rewrite <- Ht in Hh.
      destruct (qf_text q) as [|c t]; [exact I|].
      unfold is_separator. rewrite Hh, orb_false_r.
      apply N.eqb_neq. intros ->. now apply Hu.
Qed.


End Labels.

(** *** The theorems at sample inputs *)

Lemma validateData_report_witness :
  pd_rows Cases.plain_data <> [] /\ pd_questionColumns Cases.plain_data <> [] /\
  let result :=
    validateData Samples.digit_toNumber Samples.digit_toString Cases.plain_data
      (Fin 1) (Fin 5) in
  map errorPlace (errors result)
  = cellsWhere (notNumeric Samples.digit_toNumber) (pd_questionColumns Cases.plain_data)
      (pd_rows Cases.plain_data) 0 /\
  map warningPlace (warnings result)
  = cellsWhere (flagged Samples.digit_toNumber (Fin 1) (Fin 5))
      (pd_questionColumns Cases.plain_data) (pd_rows Cases.plain_data) 0 /\
  (length (errors result) + length (warnings result)
   <= length (pd_rows Cases.plain_data) * length (pd_questionColumns Cases.plain_data))%nat.
Proof.
  split; [discriminate|]. split; [discriminate|].
  apply validateData_report; discriminate.
Defined.

Lemma plain_data_clean :
  isValid (validateData Samples.digit_toNumber Samples.digit_toString Cases.plain_data
             (Fin 1) (Fin 5)) = true /\
  warnings (validateData Samples.digit_toNumber Samples.digit_toString Cases.plain_data
              (Fin 1) (Fin 5)) = [].
Proof.
  unfold validateData, Cases.plain_data.
  cbn [pd_rows pd_questionColumns length Nat.eqb validateRows fold_left].
  unfold validateCell. cbn [Arr.lookup]. rewrite streq_refl.
  replace (streq (str "id") (str "Q1")) with false by reflexivity.
  cbn [isMissing Number_of isNaN]. unfold gt. cbn [lt]. rcmp.
  cbn [orb fst snd isValid warnings length Nat.eqb]. split; reflexivity.
Qed.

Lemma clean_validation_complete_answers_witness :
  Forall
    (fun r => forall col, In col (pd_questionColumns Cases.plain_data) ->
       exists v, answer r col = Some v /\
                 (Fin 1 <=? v)%js = true /\ (v <=? Fin 5)%js = true)
    (convertToResponses Samples.digit_toNumber Samples.digit_toString Cases.counter_uuid 0
       Cases.plain_data (str "p1")).
Proof.
  apply clean_validation_complete_answers;
    [reflexivity | reflexivity | exact (proj1 plain_data_clean)
    | exact (proj2 plain_data_clean)].
Defined.

Lemma blank_cell_is_stored_as_zero_witness :
  In (Some (of_nat (1 + 2)), Some (str "Q1"))
     (map warningPlace
        (warnings (validateData Cases.blank_toNumber Samples.digit_toString
                     Cases.plain_data_with_blank (Fin 1) (Fin 5)))) /\
  exists r,
    nth_error (convertToResponses Cases.blank_toNumber Samples.digit_toString
                 Cases.counter_uuid 0 Cases.plain_data_with_blank (str "p1")) 1
    = Some r /\
    answer r (str "Q1") = Some (Fin 0).
Proof.
  apply (blank_cell_is_stored_as_zero Cases.blank_toNumber Samples.digit_toString
           Cases.counter_uuid Cases.plain_data_with_blank (Fin 1) (Fin 5) 0 (str "p1") 1
           Cases.blank_row (str "Q1")).
  - reflexivity.
  - reflexivity.
  - now left.
  - reflexivity.
Defined.

Lemma sample_numbers_print_as_digits :
  Forall (fun q => Samples.digit_toString (qf_number q) <> [] /\
                   forallb is_digit (Samples.digit_toString (qf_number q)) = true /\
                   hd_error (qf_text q) <> Some 95%N)
         Samples.freq_questions.
Proof.
  unfold Samples.freq_questions, Samples.digit_toString.
  repeat constructor; cbn [qf_number qf_text]; try discriminate;
    rewrite Rfloor_IZR; reflexivity.
Qed.

Lemma frequency_question_labels_witness :
  exists data,
    tryConvertFrequencyTable Samples.digit_toNumber Samples.digit_toString
      Samples.zero_random 10 Samples.freq_headers Samples.freq_table = Some (Some data) /\
    map q_key (generateQuestions Cases.lower Cases.counter_uuid 0 data (str "p1")
                 (Fin 1) (Fin 5))
    = map (questionKey Samples.digit_toString) Samples.freq_questions /\
    map q_label (generateQuestions Cases.lower Cases.counter_uuid 0 data (str "p1")
                   (Fin 1) (Fin 5))
    = map qf_text Samples.freq_questions.
Proof.
  destruct (frequency_table_data Samples.digit_toNumber Samples.digit_toString
              Samples.zero_random 10 Samples.freq_headers Samples.freq_table
              Samples.freq_questions detect_sample natCounts_sample)
    as [arrays [_ Hdata]]; [rewrite max_total_sample; lia|].
  eexists. split; [exact Hdata|].
  exact (frequency_question_labels Samples.digit_toNumber Samples.digit_toString
           Cases.lower Cases.counter_uuid Samples.zero_random 10 Samples.freq_headers
           Samples.freq_table Samples.freq_questions _ 0 (str "p1") (Fin 1) (Fin 5)
           detect_sample Hdata sample_numbers_print_as_digits).
Defined.

Lemma named_label_header_accepted :
  exists d,
    extractDepartmentScores Samples.digit_toNumber Samples.digit_toString Cases.lower
      Cases.by_length Samples.named_label_header = Return d.
Proof.
  unfold extractDepartmentScores, Samples.named_label_header.
  cbn -[classifyQuestion Rfloor]. unfold ge, gt.
  do 3 (cbn -[classifyQuestion Rfloor]; rcmp).
  eexists. reflexivity.
Qed.

Lemma extractDepartmentScores_invariants_witness :
  exists d,
    extractDepartmentScores Samples.digit_toNumber Samples.digit_toString Cases.lower
      Cases.by_length Samples.named_label_header = Return d /\
    Forall
      (fun q =>
         (2 < length (dq_label q))%nat /\
         truthy_number (dq_number q) = true /\
         forall dept v, Arr.lookup dept (dq_scores q) = Some v ->
           In dept (ds_departments d) /\
           exists a, v = Fin a /\ (1 <= a <= 55 / 10)%R)
      (ds_questions d) /\
    (ds_overallDepartment d = [] \/
     (In (ds_overallDepartment d) (ds_departments d) /\
      test_includes OVERALL_HEADER (ds_overallDepartment d) = true)).
Proof.
  destruct named_label_header_accepted as [d Hd]. exists d. split; [exact Hd|].
  exact (extractDepartmentScores_invariants Samples.digit_toNumber Samples.digit_toString
           Cases.lower Cases.by_length Samples.named_label_header d Hd).
Defined.

Lemma frequency_table_distribution_witness :
  exists data,
    tryConvertFrequencyTable Samples.digit_toNumber Samples.digit_toString
      Samples.zero_random 10 Samples.freq_headers Samples.freq_table = Some (Some data) /\
    Forall
      (fun q =>
         exists distribution,
           getDistribution 10
             (convertToResponses Samples.digit_toNumber Samples.digit_toString
                Cases.counter_uuid 0 data (str "p1"))
             (questionKey Samples.digit_toString q) (of_Z 1) (of_Z 3)
           = Some distribution /\
           forall score count,
             (1 <= score <= 3)%Z ->
             In (of_Z score, count) (qf_counts q) ->
             In {| value := of_Z score; count := count |} distribution)
      Samples.freq_questions.
Proof.
  apply frequency_table_distribution.
  - exact detect_sample.
  - exact natCounts_sample.
  - exact keys_sample.
  - rewrite max_total_sample. lia.
  - vm_compute. lia.
Defined.

Lemma frequency_table_respondents_witness :
  exists data,
    tryConvertFrequencyTable Samples.digit_toNumber Samples.digit_toString
      Samples.zero_random 10 Samples.freq_headers Samples.freq_table = Some (Some data) /\
    length (convertToResponses Samples.digit_toNumber Samples.digit_toString
              Cases.counter_uuid 0 data (str "p1"))
    = max_total Samples.freq_questions /\
    forall i, (i < max_total Samples.freq_questions)%nat ->
      exists r,
        nth_error (convertToResponses Samples.digit_toNumber Samples.digit_toString
                     Cases.counter_uuid 0 data (str "p1")) i = Some r /\
        r_respondentId r = padStart3 (Samples.digit_toString (of_nat (i + 1))) /\
        (3 <= length (r_respondentId r))%nat /\
        r_department r = [].
Proof.
  apply frequency_table_respondents.
  - exact detect_sample.
  - exact natCounts_sample.
  - rewrite max_total_sample. lia.
Defined.

Lemma no_department_column_no_department_analysis_witness :
  Forall (fun r => r_department r = [])
    (convertToResponses Samples.digit_toNumber Samples.digit_toString Cases.counter_uuid 0
       Cases.plain_data (str "p1")) /\
  runDepartmentAnalysis Cases.by_length
    (convertToResponses Samples.digit_toNumber Samples.digit_toString Cases.counter_uuid 0
       Cases.plain_data (str "p1"))
    [Samples.question "Q1"] [] = [].
Proof.
  apply no_department_column_no_department_analysis. reflexivity.
Defined.


End IngestProps.

(** ** Properties of the store *)

Module StoreProps.
Import JS Types Analysis Views Store StoreViews JSFacts AnalysisProps.

Lemma targetType_eqb_iff (a b : TargetType) : targetType_eqb a b = true <-> a = b.
Proof. destruct a, b; cbn; split; intros H; try reflexivity; discriminate. Qed.

Lemma sameTarget_iff (comment c : AIComment) :
  sameTarget comment c = true <-> target c = target comment.
Proof.
  unfold sameTarget, target. rewrite andb_true_iff, targetType_eqb_iff, streq_true_iff.
  split; [intros [-> ->]; reflexivity | intros H; injection H; auto].
Qed.

Lemma sameTarget_with_id (comment : AIComment) (id : jsstring) :
  sameTarget comment (with_id comment id) = true.
Proof. apply sameTarget_iff. reflexivity. Qed.

(** *** Questions *)

(** X22: [updateQuestionCategory] leaves the keys of the questions as they
    are, and [runAnalysis] on the updated questions gives the results of the
    old questions with the new category on the results of the question: no
    statistic, quadrant, priority or extraction type changes. *)
Theorem updateQuestionCategory_keeps_statistics (questionId categoryId : jsstring)
  (state : SurveyState) (responses : list SurveyResponse) (settings : AppSettings) :
  map q_key (st_questions (updateQuestionCategory questionId categoryId state))
  = map q_key (st_questions state) /\
  Forall2
    (fun old new =>
       ar_categoryId new
       = (if streq (ar_questionId old) questionId then categoryId else ar_categoryId old) /\
       ar_questionId new = ar_questionId old /\
       ar_questionKey new = ar_questionKey old /\
       ar_questionLabel new = ar_questionLabel old /\
       ar_mean new = ar_mean old /\ ar_median new = ar_median old /\
       ar_stdDev new = ar_stdDev old /\
       ar_lowRatio new = ar_lowRatio old /\ ar_highRatio new = ar_highRatio old /\
       ar_importance new = ar_importance old /\
       ar_priority new = ar_priority old /\ ar_quadrant new = ar_quadrant old /\
       ar_extractionType new = ar_extractionType old)
    (runAnalysis responses (st_questions state) settings)
    (runAnalysis responses
       (st_questions (updateQuestionCategory questionId categoryId state)) settings).
Proof.
  unfold updateQuestionCategory. cbn [st_questions set_questions].
  set (f := fun q => if streq (q_id q) questionId then with_categoryId q categoryId else q).
  assert (Hkeys : map q_key (map f (st_questions state)) = map q_key (st_questions state)).
  { rewrite map_map. apply map_ext. intros q. unfold f.
    destruct (streq (q_id q) questionId); reflexivity. }
  split; [exact Hkeys|].
  unfold runAnalysis. rewrite length_map.
  destruct ((length responses =? 0)%nat || (length (st_questions state) =? 0)%nat);
    [constructor|].
  rewrite Hkeys, map_map. apply Forall2_map_both. intros q _.
  unfold f, analyseQuestion.
  destruct (streq (q_id q) questionId) eqn:E;
    cbn [ar_categoryId ar_questionId ar_questionKey ar_questionLabel ar_mean ar_median
         ar_stdDev ar_lowRatio ar_highRatio ar_importance ar_priority ar_quadrant
         ar_extractionType with_categoryId q_id q_key q_label q_categoryId];
    rewrite ?E; repeat split.
Qed.

(** *** Comments *)

Lemma reset_update (now : Date) (id editedText : jsstring) (comments : list AIComment) :
  resetComments id (updateComments now id editedText comments) = resetComments id comments.
Proof.
  unfold resetComments, updateComments. rewrite map_map. apply map_ext. intros c.
  destruct (streq (ai_id c) id) eqn:E; [|now rewrite E].
  cbn [edited ai_id]. rewrite E. reflexivity.
Qed.

(** X23: [resetAIComment] after [updateAIComment] of the same comment
    leaves the store as [resetAIComment] alone does (likewise for the
    department comments); after the reset a comment of that id has its
    generated text as edited text, is not marked as edited and has no edit
    date, and every other comment is unchanged. *)
Theorem resetAIComment_undoes_edit (now : Date) (id editedText : jsstring)
  (state : SurveyState) :
  resetAIComment id (updateAIComment now id editedText state) = resetAIComment id state /\
  resetDeptAIComment id (updateDeptAIComment now id editedText state)
  = resetDeptAIComment id state /\
  Forall2
    (fun c c' =>
       if streq (ai_id c) id
       then ai_editedText c' = ai_aiGeneratedText c /\ ai_isEdited c' = false /\
            ai_editedAt c' = None /\ ai_id c' = ai_id c /\ target c' = target c
       else c' = c)
    (st_aiComments state) (st_aiComments (resetAIComment id state)).
Proof.
  unfold resetAIComment, updateAIComment, resetDeptAIComment, updateDeptAIComment,
    set_aiComments, set_deptAIComments.
  cbn [st_project st_parsedData st_questions st_categories st_responses st_analysisResults
       st_departmentAnalyses st_aiComments st_deptScoreData st_deptAIComments st_settings].
  rewrite !reset_update. split; [reflexivity|]. split; [reflexivity|].
  unfold resetComments. apply Forall2_map_graph. intros c.
  destruct (streq (ai_id c) id); [|reflexivity]. repeat split.
Qed.

Lemma find_addOrUpdate (comment existing : AIComment) (comments : list AIComment) :
  find (sameTarget comment) comments = Some existing ->
  find (sameTarget comment)
    (map (fun c => if streq (ai_id c) (ai_id existing)
                   then with_id comment (ai_id existing) else c) comments)
  = Some (with_id comment (ai_id existing)).
Proof.
  induction comments as [|c comments IH]; intros H; [discriminate|].
  cbn [find map] in *.
  destruct (sameTarget comment c) eqn:E.
  - injection H as <-. rewrite streq_refl, sameTarget_with_id. reflexivity.
  - destruct (streq (ai_id c) (ai_id existing)).
    + now rewrite sameTarget_with_id.
    + rewrite E. now apply IH.
Qed.

Lemma find_app_none {A : Type} (p : A -> bool) (l : list A) (x : A) :
  find p l = None -> p x = true -> find p (l ++ [x]) = Some x.
Proof.
  induction l as [|y l IH]; intros H Hx; cbn [app find] in *; [now rewrite Hx|].
  destruct (p y); [discriminate | now apply IH].
Qed.

(** X24: after [addOrUpdateAIComment] the first comment of the target is
    the given comment, under the id of the comment that was there for the
    target (the number of comments is then unchanged) or, if there was none,
    under the fresh id, appended at the end; the department comments are not
    touched. *)
Theorem addOrUpdateAIComment_stores_comment (freshId : jsstring) (comment : AIComment)
  (state : SurveyState) :
  let comments := st_aiComments state in
  let comments' := st_aiComments (addOrUpdateAIComment freshId comment state) in
  (exists id,
     find (sameTarget comment) comments' = Some (with_id comment id) /\
     match find (sameTarget comment) comments with
     | Some existing => id = ai_id existing /\ length comments' = length comments
     | None => id = freshId /\ comments' = comments ++ [with_id comment freshId]
     end) /\
  st_deptAIComments (addOrUpdateAIComment freshId comment state) = st_deptAIComments state.
Proof.
  cbv zeta. unfold addOrUpdateAIComment, set_aiComments, addOrUpdateComments.
  cbn [st_aiComments st_deptAIComments]. split; [|reflexivity].
  destruct (find (sameTarget comment) (st_aiComments state)) as [existing|] eqn:E.
  - exists (ai_id existing). split; [now apply find_addOrUpdate|].
    split; [reflexivity | apply length_map].
  - exists freshId. split; [|split; reflexivity].
    apply find_app_none; [exact E | apply sameTarget_with_id].
Qed.




End StoreProps.
